(** * The interview analysis pipeline of worlds-hardest-interview

    A shallow embedding of the TypeScript sources
      - [src/lib/constants.ts]              (tier table, thresholds, limits)
      - [src/app/api/score-interview/route.ts]
      - [src/app/api/conversations/[id]/route.ts]
      - [src/lib/elevenlabs.ts]
      - [src/hooks/useInterviewWizard.ts]
      - [src/app/page.tsx]                  (handlers, analysis pipeline)
      - [src/components/ResultsStep.tsx]    (tier colour)
    followed by the properties proved about them. *)

From Stdlib Require Import ZArith QArith Qround Ascii String List Lia Permutation
  DecimalString.
From stdpp Require Import base decidable option list gmap strings.
Import ListNotations.

Local Open Scope Z_scope.

(** ** JavaScript values *)

Module JS.

(** A JavaScript string is a sequence of UTF-16 code units; [length]
    counts code units, exactly as [String.prototype.length] does. *)
Abbreviation jsstring := (list N) (only parsing).

(** Literals of the source are ASCII: one code unit per character. *)
Definition lit (s : string) : jsstring :=
  List.map N_of_ascii (list_ascii_of_string s).

(** [WhiteSpace] and [LineTerminator] of ECMAScript, the code units that
    [String.prototype.trim] strips. *)
Definition is_ws (c : N) : bool :=
  ((c =? 9) || (c =? 10) || (c =? 11) || (c =? 12) || (c =? 13) || (c =? 32)
   || (c =? 160) || (c =? 5760) || ((8192 <=? c) && (c <=? 8202))
   || (c =? 8232) || (c =? 8233) || (c =? 8239) || (c =? 8287)
   || (c =? 12288) || (c =? 65279))%N.

Fixpoint trimStart (s : jsstring) : jsstring :=
  match s with
  | c :: s' => if is_ws c then trimStart s' else s
  | [] => []
  end.

Fixpoint trimEnd (s : jsstring) : jsstring :=
  match s with
  | c :: s' =>
      match trimEnd s' with
      | [] => if is_ws c then [] else [c]
      | kept => c :: kept
      end
  | [] => []
  end.

Definition trim (s : jsstring) : jsstring := trimEnd (trimStart s).

(** [s.trim().length === 0] *)
Definition blank (s : jsstring) : bool := (length (trim s) =? 0)%nat.

Definition str_eqb (a b : jsstring) : bool := bool_decide (a = b).

(** [a.join(sep)] on an array of strings. *)
Fixpoint join (sep : jsstring) (parts : list jsstring) : jsstring :=
  match parts with
  | [] => []
  | [p] => p
  | p :: rest => p ++ sep ++ join sep rest
  end.

(** A JavaScript number: the finite doubles are rationals, so every
    statement quantified over [Q] covers every finite double. *)
Inductive number : Type :=
| Fin (q : Q)
| NaN
| PosInf
| NegInf.

(** [Number.isFinite] on a value already known to be a number. *)
Definition isFinite (n : number) : bool :=
  match n with Fin _ => true | _ => false end.

Definition Qlt_bool (x y : Q) : bool := negb (Qle_bool y x).

(** [Math.round]: the nearest integer, ties towards plus infinity. *)
Definition Math_round (q : Q) : Z := Qfloor (q + (1 # 2)).

(** The values [JSON.parse] produces.  An object is the list of its own
    properties; a lookup returns the first binding of the key. *)
Unset Elimination Schemes.
Inductive JValue : Type :=
| JNull
| JBool (b : bool)
| JNum (n : number)
| JStr (s : jsstring)
| JArr (items : list JValue)
| JObj (fields : list (jsstring * JValue)).
Set Elimination Schemes.

Fixpoint assoc (fields : list (jsstring * JValue)) (k : jsstring)
  : option JValue :=
  match fields with
  | [] => None
  | (k', v) :: rest => if str_eqb k' k then Some v else assoc rest k
  end.

(** [v.k] for a value [v] that is not [null]: [None] is [undefined].
    Only objects carry the property names the pipeline reads (none of
    them is [length], an index or a member of a built-in prototype). *)
Definition member (v : JValue) (k : jsstring) : option JValue :=
  match v with
  | JObj fields => assoc fields k
  | _ => None
  end.

(** [typeof v === "object" && v !== null] *)
Definition is_object (v : JValue) : bool :=
  match v with
  | JObj _ | JArr _ => true
  | _ => false
  end.

(** Truthiness, as tested by [if (v)] and [!v]. *)
Definition truthy (v : option JValue) : bool :=
  match v with
  | None | Some JNull => false
  | Some (JBool b) => b
  | Some (JNum (Fin q)) => negb (Qeq_bool q 0)
  | Some (JNum NaN) => false
  | Some (JNum _) => true
  | Some (JStr s) => negb (length s =? 0)%nat
  | Some (JArr _) | Some (JObj _) => true
  end.

End JS.
Export JS.

(** ** Exceptions *)

Inductive result (E A : Type) : Type :=
| Ok (a : A)
| Throw (e : E).
Arguments Ok {E A} a.
Arguments Throw {E A} e.

#[export] Instance result_ret {E} : MRet (result E) := fun A a => Ok a.

#[export] Instance result_bind {E} : MBind (result E) := fun A B k m =>
  match m with
  | Ok a => k a
  | Throw e => Throw e
  end.

Definition is_ok {E A} (r : result E A) : bool :=
  match r with Ok _ => true | Throw _ => false end.

(** ** [src/lib/types.ts] and [src/lib/constants.ts] *)

Module Types.

(** [BossTier]: the six tier names. *)
Inductive BossTier : Type :=
| WastingMyTime
| ShowsAPulse
| Adequate
| Noteworthy
| Impressive
| HiredMaterial.

Definition tier_name (t : BossTier) : jsstring :=
  match t with
  | WastingMyTime => lit "Wasting My Time"
  | ShowsAPulse => lit "Shows a Pulse"
  | Adequate => lit "Adequate"
  | Noteworthy => lit "Noteworthy"
  | Impressive => lit "Impressive"
  | HiredMaterial => lit "Hired Material"
  end.

(** ["HIRED" | "NOT HIRED"] *)
Inductive Verdict : Type :=
| HIRED
| NOT_HIRED.

Definition verdict_name (v : Verdict) : jsstring :=
  match v with
  | HIRED => lit "HIRED"
  | NOT_HIRED => lit "NOT HIRED"
  end.

(** [ScoringDimension] and [MomentAnnotationType] are string unions that
    the route fills by unchecked casts, so the fields below hold the
    string itself. *)
Record Dimension : Type := mkDimension {
  name : jsstring;
  score : number;
  feedback : jsstring
}.

Record MomentAnnotation : Type := mkMoment {
  type : jsstring;
  question : jsstring;
  quote : jsstring;
  explanation : jsstring
}.

Record ScoringResults : Type := mkScoringResults {
  eloRating : number;
  tier : BossTier;
  verdict : Verdict;
  bossSummary : jsstring;
  dimensions : list Dimension;
  moments : list MomentAnnotation;
  isPartial : bool;
  note : option jsstring
}.

Record EloTierDefinition : Type := mkEloTier {
  tname : BossTier;
  min : Q;
  max : Q;
  colour : jsstring
}.

Inductive WizardStep : Type :=
| landing
| upload_cv
| interview
| analysis
| results_step.

(** [AnalysisPhase = 1 | 2 | 3] *)
Inductive AnalysisPhase : Type :=
| Phase1
| Phase2
| Phase3.

End Types.
Export Types.

Module Constants.

Definition ELO_TIERS : list EloTierDefinition :=
  [ mkEloTier WastingMyTime 100 599 (lit "var(--color-error)");
    mkEloTier ShowsAPulse 600 999 (lit "var(--color-warning-strong)");
    mkEloTier Adequate 1000 1399 (lit "var(--color-warning)");
    mkEloTier Noteworthy 1400 1799 (lit "var(--color-success)");
    mkEloTier Impressive 1800 2199 (lit "var(--color-accent)");
    mkEloTier HiredMaterial 2200 3000 (lit "var(--color-elite)") ].

Definition MAX_CV_TEXT_LENGTH : Z := 100000.

Definition MAX_TRANSCRIPT_LENGTH : Z := 200000.

Definition HIRED_THRESHOLD : Q := 2200.

End Constants.
Export Constants.

(** ** The inline rate limiter of the two API routes *)

(** The module-level state of one route: [rateLimitStore] and
    [rateLimitCallCount]. *)
Record LimiterState : Type := mkLimiter {
  rateLimitStore : gmap (list N) (list Z);
  rateLimitCallCount : Z
}.

Record RateLimitResult : Type := mkRateLimitResult {
  success : bool;
  remaining : Z
}.

(** [timestamps.filter((t) => now - t < windowMs)] *)
Definition prune (now windowMs : Z) (timestamps : list Z) : list Z :=
  List.filter (fun t => now - t <? windowMs) timestamps.

(** The periodic cleanup loop over every entry of the store. *)
Definition sweep (now windowMs : Z) (store : gmap (list N) (list Z))
  : gmap (list N) (list Z) :=
  omap (fun v =>
          let filtered := prune now windowMs v in
          if (length filtered =? 0)%nat then None else Some filtered)
       store.

Module ConversationsRoute.

(** The same function, declared a second time in
    [src/app/api/conversations/[id]/route.ts]. *)
Definition rateLimit (now : Z) (identifier : jsstring) (maxRequests : Z)
    (windowMs : Z) (namespace : jsstring) (st : LimiterState)
  : LimiterState * RateLimitResult :=
  let key := namespace ++ lit ":" ++ identifier in
  let timestamps := default [] (rateLimitStore st !! key) in
  let valid := prune now windowMs timestamps in
  let count := rateLimitCallCount st + 1 in
  let store :=
    if count mod 100 =? 0 then sweep now windowMs (rateLimitStore st)
    else rateLimitStore st in
  if Z.of_nat (length valid) >=? maxRequests then
    (mkLimiter (<[key := valid]> store) count,
     mkRateLimitResult false 0)
  else
    let valid' := valid ++ [now] in
    (mkLimiter (<[key := valid']> store) count,
     mkRateLimitResult true (maxRequests - Z.of_nat (length valid'))).

End ConversationsRoute.

Module ScoreInterviewRoute.

(** [rateLimit]; [now] is the value of [Date.now()] read by the call. *)
Definition rateLimit (now : Z) (identifier : jsstring) (maxRequests : Z)
    (windowMs : Z) (namespace : jsstring) (st : LimiterState)
  : LimiterState * RateLimitResult :=
  let key := namespace ++ lit ":" ++ identifier in
  let timestamps := default [] (rateLimitStore st !! key) in
  let valid := prune now windowMs timestamps in
  let count := rateLimitCallCount st + 1 in
  let store :=
    if count mod 100 =? 0 then sweep now windowMs (rateLimitStore st)
    else rateLimitStore st in
  if Z.of_nat (length valid) >=? maxRequests then
    (mkLimiter (<[key := valid]> store) count,
     mkRateLimitResult false 0)
  else
    let valid' := valid ++ [now] in
    (mkLimiter (<[key := valid']> store) count,
     mkRateLimitResult true (maxRequests - Z.of_nat (length valid'))).

(** *** Valid dimension keys and annotation types *)

Definition DIMENSION_KEYS : list jsstring :=
  [ lit "communication"; lit "technical"; lit "behavioural";
    lit "confidence"; lit "questionsAsked" ].

Definition VALID_DIMENSIONS : gset (list N) := list_to_set DIMENSION_KEYS.

Definition ANNOTATION_TYPES : list jsstring :=
  [ lit "brilliant"; lit "good"; lit "neutral";
    lit "inaccuracy"; lit "mistake"; lit "blunder" ].

Definition VALID_ANNOTATION_TYPES : gset (list N) :=
  list_to_set ANNOTATION_TYPES.

(** [set.has(x)] *)
Definition has (set : gset (list N)) (x : jsstring) : bool :=
  bool_decide (x ∈ set).

(** *** Tier self-healing *)

Fixpoint find_tier (tiers : list EloTierDefinition) (rating : Q)
  : option BossTier :=
  match tiers with
  | [] => None
  | t :: rest =>
      if Qle_bool (min t) rating && Qle_bool rating (max t)
      then Some (tname t)
      else find_tier rest rating
  end.

Definition deriveTierFromRating (rating : Q) : BossTier :=
  match find_tier ELO_TIERS rating with
  | Some t => t
  | None => if Qlt_bool rating 100 then WastingMyTime else HiredMaterial
  end.

(** *** Response validation *)

(** The errors [validateScoringResponse] throws, one constructor per
    [throw] of the source; [NullPayload] is the [TypeError] raised by
    reading a property of [null]. *)
Inductive ValidationError : Type :=
| NullPayload
| EloNotANumber (got : option JValue)
| EloOutOfRange (got : Q)
| SummaryMissing
| DimensionsNotArray
| DimensionNotObject
| InvalidDimensionName (got : option JValue)
| DuplicateDimension (key : jsstring)
| InvalidDimensionScore (key : jsstring) (got : option JValue)
| EmptyDimensionFeedback (key : jsstring)
| MissingDimensions (keys : list jsstring)
| MomentsNotArray
| MomentNotObject
| InvalidAnnotationType (got : option JValue)
| EmptyMomentQuestion (ty : jsstring)
| EmptyMomentQuote (ty : jsstring)
| EmptyMomentExplanation (ty : jsstring).

(** The two [console.warn] lines of the self-healing steps. *)
Inductive Warning : Type :=
| TierHealed (returned : jsstring) (rating : Z) (correct : BossTier)
| VerdictHealed (returned : jsstring) (rating : Z) (correct : Verdict).

(** [parsed.k]: reading a property of [null] throws. *)
Definition prop (parsed : JValue) (k : jsstring)
  : result ValidationError (option JValue) :=
  match parsed with
  | JNull => Throw NullPayload
  | _ => Ok (member parsed k)
  end.

(** The checks on [eloRating], up to [Math.round]. *)
Definition validate_rating (eloRating : option JValue)
  : result ValidationError Z :=
  match eloRating with
  | Some (JNum (Fin q)) =>
      if Qlt_bool q 100 || Qlt_bool 3000 q then Throw (EloOutOfRange q)
      else Ok (Math_round q)
  | other => Throw (EloNotANumber other)
  end.

(** The body of the loop over [parsed.dimensions]. *)
Definition validate_dimension (dim : JValue) (dimensionNames : gset (list N))
  : result ValidationError (gset (list N) * Dimension) :=
  if negb (is_object dim) then Throw DimensionNotObject else
  match member dim (lit "name") with
  | Some (JStr name) =>
      if negb (has VALID_DIMENSIONS name)
      then Throw (InvalidDimensionName (Some (JStr name)))
      else if has dimensionNames name then Throw (DuplicateDimension name)
      else
        let dimensionNames := {[ name ]} ∪ dimensionNames in
        match member dim (lit "score") with
        | Some (JNum (Fin q)) =>
            match member dim (lit "feedback") with
            | Some (JStr feedback) =>
                if blank feedback then Throw (EmptyDimensionFeedback name)
                else Ok (dimensionNames, mkDimension name (Fin q) feedback)
            | _ => Throw (EmptyDimensionFeedback name)
            end
        | other => Throw (InvalidDimensionScore name other)
        end
  | other => Throw (InvalidDimensionName other)
  end.

Fixpoint validate_dimensions (dims : list JValue)
    (dimensionNames : gset (list N)) (validatedDimensions : list Dimension)
  : result ValidationError (gset (list N) * list Dimension) :=
  match dims with
  | [] => Ok (dimensionNames, validatedDimensions)
  | dim :: rest =>
      '(dimensionNames, d) ← validate_dimension dim dimensionNames;
      validate_dimensions rest dimensionNames (validatedDimensions ++ [d])
  end.

(** The body of the loop over [parsed.moments]. *)
Definition validate_moment (moment : JValue)
  : result ValidationError MomentAnnotation :=
  if negb (is_object moment) then Throw MomentNotObject else
  match member moment (lit "type") with
  | Some (JStr ty) =>
      if negb (has VALID_ANNOTATION_TYPES ty)
      then Throw (InvalidAnnotationType (Some (JStr ty)))
      else
        match member moment (lit "question") with
        | Some (JStr question) =>
            if blank question then Throw (EmptyMomentQuestion ty) else
            match member moment (lit "quote") with
            | Some (JStr quote) =>
                if blank quote then Throw (EmptyMomentQuote ty) else
                match member moment (lit "explanation") with
                | Some (JStr explanation) =>
                    if blank explanation
                    then Throw (EmptyMomentExplanation ty)
                    else Ok (mkMoment ty question quote explanation)
                | _ => Throw (EmptyMomentExplanation ty)
                end
            | _ => Throw (EmptyMomentQuote ty)
            end
        | _ => Throw (EmptyMomentQuestion ty)
        end
  | other => Throw (InvalidAnnotationType other)
  end.

Fixpoint validate_moments (moments : list JValue)
    (validatedMoments : list MomentAnnotation)
  : result ValidationError (list MomentAnnotation) :=
  match moments with
  | [] => Ok validatedMoments
  | moment :: rest =>
      m ← validate_moment moment;
      validate_moments rest (validatedMoments ++ [m])
  end.

(** Everything after the two self-healing steps. *)
Definition validate_rest (parsed : JValue) (roundedRating : Z)
    (correctTier : BossTier) (correctVerdict : Verdict)
  : result ValidationError ScoringResults :=
  bossSummary ←
    match member parsed (lit "bossSummary") with
    | Some (JStr s) => if blank s then Throw SummaryMissing else Ok s
    | _ => Throw SummaryMissing
    end;
  dims ←
    match member parsed (lit "dimensions") with
    | Some (JArr dims) => Ok dims
    | _ => Throw DimensionsNotArray
    end;
  '(dimensionNames, validatedDimensions) ← validate_dimensions dims ∅ [];
  if negb (size dimensionNames =? size VALID_DIMENSIONS)%nat then
    Throw (MissingDimensions
             (List.filter (fun d => negb (has dimensionNames d))
                          DIMENSION_KEYS))
  else
  moments ←
    match member parsed (lit "moments") with
    | Some (JArr moments) => Ok moments
    | _ => Throw MomentsNotArray
    end;
  validatedMoments ← validate_moments moments [];
  let isPartial :=
    match member parsed (lit "isPartial") with
    | Some (JBool b) => b
    | _ => false
    end in
  let note :=
    match member parsed (lit "note") with
    | Some (JStr s) => if negb (blank s) then Some s else None
    | _ => None
    end in
  Ok (mkScoringResults (Fin (inject_Z roundedRating)) correctTier
        correctVerdict bossSummary validatedDimensions validatedMoments
        isPartial note).

(** [validateScoringResponse]: the warnings logged, and the value
    returned or the error thrown. *)
Definition validateScoringResponse (parsed : JValue)
  : list Warning * result ValidationError ScoringResults :=
  match eloRating ← prop parsed (lit "eloRating"); validate_rating eloRating with
  | Throw e => ([], Throw e)
  | Ok roundedRating =>
      let correctTier := deriveTierFromRating (inject_Z roundedRating) in
      let tierWarning :=
        match member parsed (lit "tier") with
        | Some (JStr returnedTier) =>
            if negb (str_eqb returnedTier (tier_name correctTier))
            then [TierHealed returnedTier roundedRating correctTier]
            else []
        | _ => []
        end in
      let correctVerdict :=
        if Qle_bool HIRED_THRESHOLD (inject_Z roundedRating)
        then HIRED else NOT_HIRED in
      let verdictWarning :=
        match member parsed (lit "verdict") with
        | Some (JStr returnedVerdict) =>
            if negb (str_eqb returnedVerdict (verdict_name correctVerdict))
            then [VerdictHealed returnedVerdict roundedRating correctVerdict]
            else []
        | _ => []
        end in
      (tierWarning ++ verdictWarning,
       validate_rest parsed roundedRating correctTier correctVerdict)
  end.

(** *** Route handler *)

Definition open_brace : N := 123.
Definition close_brace : N := 125.

(** The longest prefix of [s] that ends in a closing brace: what the
    greedy [[\s\S]*\}] matches at the start of [s]. *)
Fixpoint upto_last_close (s : jsstring) : option jsstring :=
  match s with
  | [] => None
  | c :: s' =>
      match upto_last_close s' with
      | Some p => Some (c :: p)
      | None => if (c =? close_brace)%N then Some [c] else None
      end
  end.

(** [responseText.match(/\{[\s\S]*\}/)]: the matcher starts at the
    leftmost opening brace from which a match exists; the greedy
    [[\s\S]*] takes everything and gives back code units until a
    closing brace follows. *)
Fixpoint match_braces (s : jsstring) : option jsstring :=
  match s with
  | [] => None
  | c :: s' =>
      if (c =? open_brace)%N then
        match upto_last_close s' with
        | Some p => Some (c :: p)
        | None => match_braces s'
        end
      else match_braces s'
  end.

(** A block of the collaborator's message. *)
Inductive ContentBlock : Type :=
| TextBlock (text : jsstring)
| OtherBlock.

Definition block_text (blocks : list ContentBlock) : jsstring :=
  join [] (omap (fun b => match b with
                          | TextBlock t => Some t
                          | OtherBlock => None
                          end) blocks).

Record Request : Type := mkRequest {
  forwardedFor : option jsstring;  (* the x-forwarded-for header *)
  body : option JValue             (* [None]: [req.json()] rejects *)
}.

Inductive ResponseBody : Type :=
| ErrorBody (error : jsstring)
| ResultsBody (results : ScoringResults).

Record Response : Type := mkResponse {
  status : Z;
  payload : ResponseBody
}.

Definition error_response (message : string) (code : Z) : Response :=
  mkResponse code (ErrorBody (lit message)).

Definition failed_to_score : Response :=
  error_response "Failed to score the interview" 500.

(** The response of the outer [catch]. *)
Definition unexpected_error : Response :=
  error_response
    "Something went wrong while scoring your interview. Please try again."
    500.

Definition LF : jsstring := [10%N].

Section Handler.

(** [JSON.parse] of the runtime: [None] when it throws. *)
Variable JSON_parse : jsstring -> option JValue.

(** [client.messages.create] with the fixed model, token limit and
    system prompt: from the user message to the content blocks of the
    reply, [None] when the call rejects. *)
Variable messages_create : jsstring -> option (list ContentBlock).

(** [process.env.ANTHROPIC_API_KEY] *)
Variable ANTHROPIC_API_KEY : option jsstring.

(** Step 7: raw parse first, then the first [{...}] block. *)
Definition parse_response (responseText : jsstring) : option JValue :=
  match JSON_parse (trim responseText) with
  | Some parsed => Some parsed
  | None =>
      match match_braces responseText with
      | None => None
      | Some jsonMatch => JSON_parse jsonMatch
      end
  end.

(** Steps 6 to 9, on the reply of the collaborator. *)
Definition score_reply (blocks : list ContentBlock) : Response :=
  let responseText := block_text blocks in
  if blank responseText then failed_to_score else
  match parse_response responseText with
  | None => failed_to_score
  | Some parsed =>
      match snd (validateScoringResponse parsed) with
      | Throw _ => failed_to_score
      | Ok results => mkResponse 200 (ResultsBody results)
      end
  end.

(** Step 4: the user message. *)
Definition user_message (cvText : option JValue) (transcript : jsstring)
  : jsstring :=
  let cvPart :=
    match cvText with
    | Some (JStr cv) =>
        if negb (blank cv)
        then [lit "=== CANDIDATE CV ===" ++ LF ++ cv] else []
    | _ => []
    end in
  join (LF ++ LF)
    (cvPart ++
     [ lit "=== INTERVIEW TRANSCRIPT ===" ++ LF ++ transcript;
       LF ++ lit "Please analyse this interview transcript (and CV if provided) and produce the scoring assessment. Return only the JSON object as specified in your instructions." ]).

(** Steps 2 to 9, for a request the limiter admitted: the messages
    sent to the collaborator and the response. *)
Definition handle_admitted (req : Request) : list jsstring * Response :=
  match body req with
  | None | Some JNull => ([], unexpected_error)
  | Some body =>
      let cvText := member body (lit "cvText") in
      match member body (lit "transcript") with
      | Some (JStr transcript) =>
          if blank transcript
          then ([], error_response "Interview transcript is required" 400)
          else if Z.of_nat (length transcript) >? MAX_TRANSCRIPT_LENGTH
          then ([], error_response "Transcript exceeds maximum length" 400)
          else
            let cvCheck :=
              match cvText with
              | None | Some JNull => None
              | Some (JStr cv) =>
                  if Z.of_nat (length cv) >? MAX_CV_TEXT_LENGTH
                  then Some (error_response
                               "CV text exceeds maximum length" 400)
                  else None
              | Some _ =>
                  Some (error_response "CV text must be a string" 400)
              end in
            match cvCheck with
            | Some rejection => ([], rejection)
            | None =>
                match ANTHROPIC_API_KEY with
                | None | Some [] =>
                    ([], error_response "Service configuration error" 500)
                | Some _ =>
                    let content := user_message cvText transcript in
                    match messages_create content with
                    | None => ([content], unexpected_error)
                    | Some blocks => ([content], score_reply blocks)
                    end
                end
            end
      | _ => ([], error_response "Interview transcript is required" 400)
      end
  end.

(** [POST]: the new limiter state, the messages sent to the
    collaborator and the response. *)
Definition POST (now : Z) (st : LimiterState) (req : Request)
  : LimiterState * list jsstring * Response :=
  let ip := default (lit "unknown") (forwardedFor req) in
  let '(st', limit) :=
    rateLimit now ip 30 60000 (lit "score-interview") st in
  if negb (success limit) then
    (st', [],
     error_response
       "Too many requests. Please wait a moment and try again." 429)
  else
    let '(calls, response) := handle_admitted req in
    (st', calls, response).

End Handler.

End ScoreInterviewRoute.

(** ** [src/lib/elevenlabs.ts]: the transcript retriever *)

Module ElevenLabs.

Definition BASE_DELAY_MS : Q := 3000.
Definition BACKOFF_MULTIPLIER : Q := 3 # 2.
Definition MAX_ATTEMPTS : nat := 5.

(** What one [fetch] of the conversation route resolves to:
    [NetworkFailure] when it rejects, otherwise the status and the
    result of [res.json()] ([None] when that rejects). *)
Inductive FetchResult : Type :=
| NetworkFailure
| HttpResponse (status : Z) (json : option JValue).

(** The errors [fetchTranscript] throws. *)
Inductive FetchError : Type :=
| NetworkError          (* "Network error ..." *)
| UnexpectedResponse    (* "... unexpected server response." *)
| HttpError (status : Z) (message : option JValue)
                        (* [body.error], or the status fallback *)
| NotYetAvailable.      (* "Transcript is not yet available. ..." *)

(** The effects of the loop, in order. *)
Inductive Event : Type :=
| Fetch (url : jsstring)
| Sleep (ms : Q).

(** The [res.status === 200] branch: [data.transcript], whatever it is;
    a body that is not JSON, or is [null], ends in the [catch]. *)
Definition read_transcript (json : option JValue)
  : result FetchError (option JValue) :=
  match json with
  | None | Some JNull => Throw UnexpectedResponse
  | Some data => Ok (member data (lit "transcript"))
  end.

(** The error branch: [body.error] when it is truthy. *)
Definition read_error (status : Z) (json : option JValue) : FetchError :=
  match json with
  | None | Some JNull => HttpError status None
  | Some body =>
      let error := member body (lit "error") in
      if truthy error then HttpError status error
      else HttpError status None
  end.

Section Retriever.

(** The conversation route as seen by the client: the outcome of the
    poll with the given index. *)
Variable source : nat -> FetchResult.

Variable conversationId : jsstring.

Definition url : jsstring := lit "/api/conversations/" ++ conversationId.

(** The [for] loop from [attempt] on; [remaining] is
    [MAX_ATTEMPTS - attempt]. *)
Fixpoint poll (remaining attempt : nat)
  : list Event * result FetchError (option JValue) :=
  match remaining with
  | O => ([], Throw NotYetAvailable)
  | S remaining' =>
      match source attempt with
      | NetworkFailure => ([Fetch url], Throw NetworkError)
      | HttpResponse status json =>
          if status =? 200 then ([Fetch url], read_transcript json)
          else if status =? 202 then
            let backoff :=
              if (attempt <? MAX_ATTEMPTS - 1)%nat
              then [Sleep (BASE_DELAY_MS
                           * BACKOFF_MULTIPLIER ^ Z.of_nat attempt)]
              else [] in
            let '(events, outcome) := poll remaining' (S attempt) in
            (Fetch url :: backoff ++ events, outcome)
          else ([Fetch url], Throw (read_error status json))
      end
  end.

Definition fetchTranscript
  : list Event * result FetchError (option JValue) :=
  poll MAX_ATTEMPTS 0.

End Retriever.

End ElevenLabs.

(** ** [src/hooks/useInterviewWizard.ts] *)

Module Wizard.

Record WizardState : Type := mkWizardState {
  step : WizardStep;
  cvText : option jsstring;
  cvFileName : option jsstring;
  conversationId : option jsstring;
  transcript : option JValue;  (* [TranscriptEntry[]], as received *)
  results : option ScoringResults;
  analysisPhase : option AnalysisPhase;
  error : option jsstring;
  loading : bool
}.

Definition INITIAL_STATE : WizardState :=
  {| step := landing;
     cvText := None;
     cvFileName := None;
     conversationId := None;
     transcript := None;
     results := None;
     analysisPhase := None;
     error := None;
     loading := false |}.

(** The hook between two renders: [stateRef.current] is the state of
    the latest render, and the updates passed to [setState] since then
    wait in a queue that the next render applies in order. *)
Record Hook : Type := mkHook {
  stateRef : WizardState;
  queue : list (WizardState -> WizardState)
}.

Definition useState_initial : Hook := mkHook INITIAL_STATE [].

Definition setState (update : WizardState -> WizardState) (h : Hook) : Hook :=
  mkHook (stateRef h) (queue h ++ [update]).

Definition render (h : Hook) : Hook :=
  mkHook (fold_left (fun s update => update s) (queue h) (stateRef h)) [].

Definition setStep (st : WizardStep) : Hook -> Hook :=
  setState (fun s =>
    mkWizardState st (cvText s) (cvFileName s) (conversationId s)
      (transcript s) (results s) (analysisPhase s) None (loading s)).

Definition setCvText (text : option jsstring) : Hook -> Hook :=
  setState (fun s =>
    mkWizardState (step s) text (cvFileName s) (conversationId s)
      (transcript s) (results s) (analysisPhase s) (error s) (loading s)).

Definition setCvFileName (fileName : option jsstring) : Hook -> Hook :=
  setState (fun s =>
    mkWizardState (step s) (cvText s) fileName (conversationId s)
      (transcript s) (results s) (analysisPhase s) (error s) (loading s)).

Definition setConversationId (id : option jsstring) : Hook -> Hook :=
  setState (fun s =>
    mkWizardState (step s) (cvText s) (cvFileName s) id
      (transcript s) (results s) (analysisPhase s) (error s) (loading s)).

Definition setTranscript (entries : option JValue) : Hook -> Hook :=
  setState (fun s =>
    mkWizardState (step s) (cvText s) (cvFileName s) (conversationId s)
      entries (results s) (analysisPhase s) (error s) (loading s)).

Definition setResults (r : option ScoringResults) : Hook -> Hook :=
  setState (fun s =>
    mkWizardState (step s) (cvText s) (cvFileName s) (conversationId s)
      (transcript s) r (analysisPhase s) (error s) (loading s)).

Definition setAnalysisPhase (phase : option AnalysisPhase) : Hook -> Hook :=
  setState (fun s =>
    mkWizardState (step s) (cvText s) (cvFileName s) (conversationId s)
      (transcript s) (results s) phase (error s) (loading s)).

Definition setError (message : option jsstring) : Hook -> Hook :=
  setState (fun s =>
    mkWizardState (step s) (cvText s) (cvFileName s) (conversationId s)
      (transcript s) (results s) (analysisPhase s) message (loading s)).

Definition setLoading (l : bool) : Hook -> Hook :=
  setState (fun s =>
    mkWizardState (step s) (cvText s) (cvFileName s) (conversationId s)
      (transcript s) (results s) (analysisPhase s) (error s) l).

(** [resetForRetry] reads [stateRef.current] and replaces the state. *)
Definition resetForRetry (h : Hook) : Hook :=
  let current := stateRef h in
  setState (fun _ =>
    {| step := interview;
       cvText := cvText current;
       cvFileName := cvFileName current;
       conversationId := conversationId INITIAL_STATE;
       transcript := transcript INITIAL_STATE;
       results := results INITIAL_STATE;
       analysisPhase := analysisPhase INITIAL_STATE;
       error := error INITIAL_STATE;
       loading := loading INITIAL_STATE |}) h.

Definition resetFull : Hook -> Hook := setState (fun _ => INITIAL_STATE).

End Wizard.

(** ** A reference [JSON.parse]

    The route handler is parametric in the parser of the runtime.  The
    examples run it with this recursive-descent parser of the JSON
    grammar (ECMA-404).  A numeric literal denotes its decimal value,
    which for the integer literals of the examples is the double
    [JSON.parse] returns; a literal beyond the double range becomes an
    infinity, as in the runtime. *)

Module Json.

Definition json_ws (c : N) : bool :=
  ((c =? 32) || (c =? 9) || (c =? 10) || (c =? 13))%N.

Fixpoint skip_ws (s : jsstring) : jsstring :=
  match s with
  | c :: s' => if json_ws c then skip_ws s' else s
  | [] => []
  end.

Fixpoint expect (word s : jsstring) : option jsstring :=
  match word, s with
  | [], _ => Some s
  | w :: word', c :: s' => if (w =? c)%N then expect word' s' else None
  | _ :: _, [] => None
  end.

Definition is_digit (c : N) : bool := ((48 <=? c) && (c <=? 57))%N.

Definition hex_value (c : N) : option N :=
  if is_digit c then Some (c - 48)%N
  else if ((97 <=? c) && (c <=? 102))%N then Some (c - 87)%N
  else if ((65 <=? c) && (c <=? 70))%N then Some (c - 55)%N
  else None.

(** The characters of a string literal after its opening quote. *)
Fixpoint string_body (s acc : jsstring) : option (jsstring * jsstring) :=
  match s with
  | [] => None
  | c :: s' =>
      if (c =? 34)%N then Some (rev acc, s')
      else if (c =? 92)%N then
        match s' with
        | [] => None
        | e :: s'' =>
            if (e =? 117)%N then
              match s'' with
              | h1 :: h2 :: h3 :: h4 :: s''' =>
                  match hex_value h1, hex_value h2,
                        hex_value h3, hex_value h4 with
                  | Some a, Some b, Some c', Some d =>
                      string_body s'''
                        ((4096 * a + 256 * b + 16 * c' + d)%N :: acc)
                  | _, _, _, _ => None
                  end
              | _ => None
              end
            else
              let unescaped :=
                if (e =? 34)%N then Some 34%N
                else if (e =? 92)%N then Some 92%N
                else if (e =? 47)%N then Some 47%N
                else if (e =? 98)%N then Some 8%N
                else if (e =? 102)%N then Some 12%N
                else if (e =? 110)%N then Some 10%N
                else if (e =? 114)%N then Some 13%N
                else if (e =? 116)%N then Some 9%N
                else None in
              match unescaped with
              | Some u => string_body s'' (u :: acc)
              | None => None
              end
        end
      else if (c <? 32)%N then None
      else string_body s' (c :: acc)
  end.

(** A maximal run of digits: its value, its length and the rest. *)
Fixpoint digits (s : jsstring) (value : N) (count : nat)
  : N * nat * jsstring :=
  match s with
  | c :: s' =>
      if is_digit c then digits s' (10 * value + (c - 48))%N (S count)
      else (value, count, s)
  | [] => (value, count, [])
  end.

Definition overflow_bound : Q := inject_Z (2 ^ 1024 - 2 ^ 970).

Definition to_number (q : Q) : number :=
  if Qle_bool overflow_bound q then PosInf
  else if Qle_bool overflow_bound (- q) then NegInf
  else Fin q.

Definition number_literal (s : jsstring) : option (number * jsstring) :=
  let '(negative, s) :=
    match s with
    | c :: s' => if (c =? 45)%N then (true, s') else (false, s)
    | [] => (false, s)
    end in
  let '(int_value, int_count, rest) := digits s 0%N O in
  let leading_zero :=
    match s with
    | c :: _ => (c =? 48)%N && (1 <? int_count)%nat
    | [] => false
    end in
  if (int_count =? 0)%nat || leading_zero then None else
  let fraction :=
    match rest with
    | c :: rest' =>
        if (c =? 46)%N then
          let '(frac_value, frac_count, rest'') := digits rest' 0%N O in
          if (frac_count =? 0)%nat then None
          else Some (inject_Z (Z.of_N frac_value)
                     / inject_Z (10 ^ Z.of_nat frac_count), rest'')%Q
        else Some (0%Q, rest)
    | [] => Some (0%Q, rest)
    end in
  match fraction with
  | None => None
  | Some (frac, rest) =>
      let exponent :=
        match rest with
        | c :: rest' =>
            if ((c =? 101) || (c =? 69))%N then
              let '(minus, rest'') :=
                match rest' with
                | sg :: r =>
                    if (sg =? 45)%N then (true, r)
                    else if (sg =? 43)%N then (false, r)
                    else (false, rest')
                | [] => (false, rest')
                end in
              let '(exp_value, exp_count, rest''') := digits rest'' 0%N O in
              if (exp_count =? 0)%nat then None
              else Some ((if minus then - Z.of_N exp_value
                          else Z.of_N exp_value)%Z, rest''')
            else Some (0%Z, rest)
        | [] => Some (0%Z, rest)
        end in
      match exponent with
      | None => None
      | Some (e, rest) =>
          let magnitude :=
            ((inject_Z (Z.of_N int_value) + frac) * 10 ^ e)%Q in
          Some (to_number (if negative then (- magnitude)%Q else magnitude),
                rest)
      end
  end.

(** Defining a property: a repeated key keeps its place and takes the
    later value. *)
Fixpoint define (fields : list (jsstring * JValue)) (k : jsstring)
    (v : JValue) : list (jsstring * JValue) :=
  match fields with
  | [] => [(k, v)]
  | (k', v') :: rest =>
      if str_eqb k' k then (k', v) :: rest else (k', v') :: define rest k v
  end.

Fixpoint value (fuel : nat) (s : jsstring) : option (JValue * jsstring) :=
  match fuel with
  | O => None
  | S fuel =>
      match skip_ws s with
      | [] => None
      | c :: rest =>
          if (c =? 123)%N then
            match skip_ws rest with
            | c' :: rest' =>
                if (c' =? 125)%N then Some (JObj [], rest')
                else members fuel (c' :: rest') []
            | [] => None
            end
          else if (c =? 91)%N then
            match skip_ws rest with
            | c' :: rest' =>
                if (c' =? 93)%N then Some (JArr [], rest')
                else elements fuel (c' :: rest') []
            | [] => None
            end
          else if (c =? 34)%N then
            match string_body rest [] with
            | Some (str, rest') => Some (JStr str, rest')
            | None => None
            end
          else if (c =? 116)%N then
            option_map (fun r => (JBool true, r)) (expect (lit "rue") rest)
          else if (c =? 102)%N then
            option_map (fun r => (JBool false, r)) (expect (lit "alse") rest)
          else if (c =? 110)%N then
            option_map (fun r => (JNull, r)) (expect (lit "ull") rest)
          else
            option_map (fun '(n, r) => (JNum n, r)) (number_literal (c :: rest))
      end
  end
with elements (fuel : nat) (s : jsstring) (acc : list JValue)
  : option (JValue * jsstring) :=
  match fuel with
  | O => None
  | S fuel =>
      match value fuel s with
      | None => None
      | Some (v, rest) =>
          match skip_ws rest with
          | c :: rest' =>
              if (c =? 44)%N then elements fuel rest' (acc ++ [v])
              else if (c =? 93)%N then Some (JArr (acc ++ [v]), rest')
              else None
          | [] => None
          end
      end
  end
with members (fuel : nat) (s : jsstring) (acc : list (jsstring * JValue))
  : option (JValue * jsstring) :=
  match fuel with
  | O => None
  | S fuel =>
      match skip_ws s with
      | q :: rest =>
          if negb (q =? 34)%N then None else
          match string_body rest [] with
          | None => None
          | Some (key, rest) =>
              match skip_ws rest with
              | colon :: rest =>
                  if negb (colon =? 58)%N then None else
                  match value fuel rest with
                  | None => None
                  | Some (v, rest) =>
                      match skip_ws rest with
                      | c :: rest' =>
                          if (c =? 44)%N
                          then members fuel rest' (define acc key v)
                          else if (c =? 125)%N
                          then Some (JObj (define acc key v), rest')
                          else None
                      | [] => None
                      end
                  end
              | [] => None
              end
          end
      | [] => None
      end
  end.

Definition parse (text : jsstring) : option JValue :=
  match value (2 * length text + 2) text with
  | Some (v, rest) =>
      match skip_ws rest with
      | [] => Some v
      | _ :: _ => None
      end
  | None => None
  end.

End Json.

(** ** Notions used by the statements *)

(** The payload of a canonical result: the object that
    [NextResponse.json(results)] serialises, read back. *)
Module Canonical.

Definition dimension_json (d : Dimension) : JValue :=
  JObj [ (lit "name", JStr (name d));
         (lit "score", JNum (score d));
         (lit "feedback", JStr (feedback d)) ].

Definition moment_json (m : MomentAnnotation) : JValue :=
  JObj [ (lit "type", JStr (type m));
         (lit "question", JStr (question m));
         (lit "quote", JStr (quote m));
         (lit "explanation", JStr (explanation m)) ].

Definition results_json (r : ScoringResults) : JValue :=
  JObj ([ (lit "eloRating", JNum (eloRating r));
          (lit "tier", JStr (tier_name (tier r)));
          (lit "verdict", JStr (verdict_name (verdict r)));
          (lit "bossSummary", JStr (bossSummary r));
          (lit "dimensions", JArr (List.map dimension_json (dimensions r)));
          (lit "moments", JArr (List.map moment_json (moments r)));
          (lit "isPartial", JBool (isPartial r)) ]
        ++ match note r with
           | Some n => [ (lit "note", JStr n) ]
           | None => []
           end).

End Canonical.

(** Membership of a rating in the band of a tier definition. *)
Definition in_band (rating : Q) (t : EloTierDefinition) : bool :=
  Qle_bool (min t) rating && Qle_bool rating (max t).

(** The verdict the validator computes from a rounded rating. *)
Definition verdict_of (r : Z) : Verdict :=
  if Qle_bool HIRED_THRESHOLD (inject_Z r) then HIRED else NOT_HIRED.

(** An entry of [dimensions] that the loop of the validator turns into
    the dimension [d]. *)
Definition dimension_ok (dim : JValue) (d : Dimension) : Prop :=
  is_object dim = true
  /\ member dim (lit "name") = Some (JStr (name d))
  /\ name d ∈ ScoreInterviewRoute.VALID_DIMENSIONS
  /\ (exists q : Q,
        member dim (lit "score") = Some (JNum (Fin q)) /\ score d = Fin q)
  /\ member dim (lit "feedback") = Some (JStr (feedback d))
  /\ blank (feedback d) = false.

(** An entry of [moments] that the loop of the validator turns into the
    annotation [m]. *)
Definition moment_ok (moment : JValue) (m : MomentAnnotation) : Prop :=
  is_object moment = true
  /\ member moment (lit "type") = Some (JStr (type m))
  /\ type m ∈ ScoreInterviewRoute.VALID_ANNOTATION_TYPES
  /\ member moment (lit "question") = Some (JStr (question m))
  /\ blank (question m) = false
  /\ member moment (lit "quote") = Some (JStr (quote m))
  /\ blank (quote m) = false
  /\ member moment (lit "explanation") = Some (JStr (explanation m))
  /\ blank (explanation m) = false.

(** The defects of the [dimensions] property. *)
Inductive DimensionsDefect (raw : JValue) : Prop :=
| NotASequence :
    (forall dims, member raw (lit "dimensions") <> Some (JArr dims)) ->
    DimensionsDefect raw
| EmptySequence :
    member raw (lit "dimensions") = Some (JArr []) ->
    DimensionsDefect raw
| ForeignName (dims : list JValue) (dim : JValue) :
    member raw (lit "dimensions") = Some (JArr dims) ->
    In dim dims ->
    (forall key, In key ScoreInterviewRoute.DIMENSION_KEYS ->
                 member dim (lit "name") <> Some (JStr key)) ->
    DimensionsDefect raw
| DuplicateKey (dims : list JValue) (i j : nat) (di dj : JValue)
    (key : list N) :
    member raw (lit "dimensions") = Some (JArr dims) ->
    i <> j ->
    dims !! i = Some di ->
    dims !! j = Some dj ->
    member di (lit "name") = Some (JStr key) ->
    member dj (lit "name") = Some (JStr key) ->
    DimensionsDefect raw
| MissingKey (dims : list JValue) (key : list N) :
    member raw (lit "dimensions") = Some (JArr dims) ->
    In key ScoreInterviewRoute.DIMENSION_KEYS ->
    (forall dim, In dim dims -> member dim (lit "name") <> Some (JStr key)) ->
    DimensionsDefect raw
| NonFiniteScore (dims : list JValue) (dim : JValue) :
    member raw (lit "dimensions") = Some (JArr dims) ->
    In dim dims ->
    (forall q : Q, member dim (lit "score") <> Some (JNum (Fin q))) ->
    DimensionsDefect raw
| EmptyFeedback (dims : list JValue) (dim : JValue) :
    member raw (lit "dimensions") = Some (JArr dims) ->
    In dim dims ->
    (forall text, member dim (lit "feedback") = Some (JStr text) ->
                  blank text = true) ->
    DimensionsDefect raw.

(** The properties whose value reaches the result of the validator. *)
Definition result_keys : list (list N) :=
  [ lit "eloRating"; lit "bossSummary"; lit "dimensions"; lit "moments";
    lit "isPartial"; lit "note" ].

(** Two payloads that differ at most in the property [k]. *)
Definition differ_only_at (k : jsstring) (a b : JValue) : Prop :=
  (a = JNull <-> b = JNull) /\
  forall k' : jsstring, k' <> k -> member a k' = member b k'.

(** A type shared by the two declarations of [rateLimit]. *)
Definition Limiter : Type :=
  Z -> list N -> Z -> Z -> list N -> LimiterState
  -> LimiterState * RateLimitResult.

(** Successive calls of a limiter on one key and policy, at the given
    clock readings: the final state and the [success] of each call. *)
Fixpoint burst (limiter : Limiter) (identifier : jsstring) (maxRequests : Z)
    (windowMs : Z) (namespace : jsstring) (times : list Z) (st : LimiterState)
  : LimiterState * list bool :=
  match times with
  | [] => (st, [])
  | now :: later =>
      let '(st1, r) := limiter now identifier maxRequests windowMs namespace st in
      let '(st2, rs) :=
        burst limiter identifier maxRequests windowMs namespace later st1 in
      (st2, success r :: rs)
  end.

(** The timestamps stored for a key, none when the key is absent. *)
Definition stored (namespace identifier : jsstring) (st : LimiterState)
  : list Z :=
  default [] (rateLimitStore st !! (namespace ++ lit ":" ++ identifier)).

(** Every clock reading of [times] is less than a window after each
    earlier one. *)
Fixpoint within_window (windowMs : Z) (times : list Z) : Prop :=
  match times with
  | [] => True
  | t :: later =>
      Forall (fun t' => t' - t < windowMs) later /\ within_window windowMs later
  end.

(** The fallback of step 7 as the specification words it: the first
    balanced object of the text. *)
Module SpecWording.

(** The code units after an opening brace, up to the brace closing it;
    [depth] counts the braces still open. *)
Fixpoint balanced (s : jsstring) (depth : nat) : option jsstring :=
  match s with
  | [] => None
  | c :: s' =>
      if (c =? ScoreInterviewRoute.open_brace)%N then
        option_map (cons c) (balanced s' (S depth))
      else if (c =? ScoreInterviewRoute.close_brace)%N then
        match depth with
        | O => Some [c]
        | S depth' => option_map (cons c) (balanced s' depth')
        end
      else option_map (cons c) (balanced s' depth)
  end.

Fixpoint first_balanced_object (s : jsstring) : option jsstring :=
  match s with
  | [] => None
  | c :: s' =>
      if (c =? ScoreInterviewRoute.open_brace)%N
      then option_map (cons c) (balanced s' O)
      else first_balanced_object s'
  end.

Definition parse_response (JSON_parse : jsstring -> option JValue)
    (responseText : jsstring) : option JValue :=
  match JSON_parse (trim responseText) with
  | Some parsed => Some parsed
  | None =>
      match first_balanced_object responseText with
      | None => None
      | Some object => JSON_parse object
      end
  end.

End SpecWording.

(** A poll that finds the source not ready, with the backoff sleep that
    follows poll number [i]. *)
Definition backoff_step (url : list N) (i : nat) : list ElevenLabs.Event :=
  [ ElevenLabs.Fetch url;
    ElevenLabs.Sleep (ElevenLabs.BASE_DELAY_MS
                      * ElevenLabs.BACKOFF_MULTIPLIER ^ Z.of_nat i) ].

(** The effects of a retrieval that finds the transcript at poll [k]:
    each poll before it is followed by its backoff sleep. *)
Definition schedule (url : list N) (k : nat) : list ElevenLabs.Event :=
  flat_map (backoff_step url) (seq 0 k) ++ [ ElevenLabs.Fetch url ].

(** The sleep right before poll number [k] of a trace, if there is one;
    [last] is the sleep seen since the previous poll. *)
Fixpoint delay_scan (events : list ElevenLabs.Event) (k : nat)
    (last : option Q) : option Q :=
  match events with
  | [] => None
  | ElevenLabs.Fetch _ :: rest =>
      match k with
      | O => last
      | S k' => delay_scan rest k' None
      end
  | ElevenLabs.Sleep ms :: rest => delay_scan rest k (Some ms)
  end.

Definition delay_before (events : list ElevenLabs.Event) (k : nat)
  : option Q :=
  delay_scan events k None.

(** The number of polls in a trace. *)
Definition polls (events : list ElevenLabs.Event) : nat :=
  length (List.filter (fun e => match e with
                                | ElevenLabs.Fetch _ => true
                                | ElevenLabs.Sleep _ => false
                                end) events).

(** A source that is not ready for the first [k] polls and ready from
    then on. *)
Definition ready_after (k : nat) (json : option JValue)
  : nat -> ElevenLabs.FetchResult :=
  fun i => if (i <? k)%nat
           then ElevenLabs.HttpResponse 202
                  (Some (JObj [ (lit "ready", JBool false) ]))
           else ElevenLabs.HttpResponse 200 json.

(** The backoff schedule as the specification words it: no delay before
    the first attempt, and [baseDelay * multiplier ^ k] before attempt
    [k]. *)
Definition claimed_delay_before (k : nat) : option Q :=
  match k with
  | O => None
  | S _ => Some (ElevenLabs.BASE_DELAY_MS
                 * ElevenLabs.BACKOFF_MULTIPLIER ^ Z.of_nat k)%Q
  end.

(** Equality of two optional delays, as numbers. *)
Definition same_delay (a b : option Q) : Prop :=
  match a, b with
  | Some x, Some y => (x == y)%Q
  | None, None => True
  | _, _ => False
  end.

(** The retriever as the specification words it: whenever the source is
    not ready for the first [k] polls and then ready, the transcript is
    returned after [k + 1] polls, with the worded delay before each. *)
Definition retriever_as_worded : Prop :=
  forall (source : nat -> ElevenLabs.FetchResult) (id : list N) (k : nat)
         (json : option JValue),
    (forall i, (i < k)%nat ->
               exists body, source i = ElevenLabs.HttpResponse 202 body) ->
    source k = ElevenLabs.HttpResponse 200 json ->
    let run := ElevenLabs.fetchTranscript source id in
    snd run = ElevenLabs.read_transcript json
    /\ polls (fst run) = S k
    /\ forall j, (j <= k)%nat ->
        same_delay (delay_before (fst run) j) (claimed_delay_before j).

(** The parse step as the specification words it. *)
Definition fallback_as_worded (JSON_parse : list N -> option JValue) : Prop :=
  forall text : list N,
    ScoreInterviewRoute.parse_response JSON_parse text
    = SpecWording.parse_response JSON_parse text.

(** ** Concrete inputs of the examples *)

Module Examples.

Definition ip : list N := lit "10.200.200.1".

(** The limiter of a freshly started process. *)
Definition fresh : LimiterState := mkLimiter ∅ 0.

(** A limiter holding two timestamps for [ip] in the retrieval
    namespace. *)
Definition busy : LimiterState :=
  mkLimiter {[ lit "conversations:10.200.200.1" := [1000; 1500] ]} 7.

Definition entry (key : string) (points : Q) : JValue :=
  JObj [ (lit "name", JStr (lit key));
         (lit "score", JNum (Fin points));
         (lit "feedback", JStr (lit "I expected more.")) ].

Definition five_dimensions : JValue :=
  JArr [ entry "communication" 7; entry "technical" 6;
         entry "behavioural" 5; entry "confidence" 8;
         entry "questionsAsked" 4 ].

Definition one_moment : JValue :=
  JObj [ (lit "type", JStr (lit "inaccuracy"));
         (lit "question", JStr (lit "What did you use on the backend?"));
         (lit "quote", JStr (lit "We used React for the backend."));
         (lit "explanation", JStr (lit "React is a frontend library.")) ].

(** A scoring payload with the given rating, tier, verdict and
    dimensions. *)
Definition scoring_of (rating : Q) (tier verdict : string) (dims : JValue)
  : JValue :=
  JObj [ (lit "eloRating", JNum (Fin rating));
         (lit "tier", JStr (lit tier));
         (lit "verdict", JStr (lit verdict));
         (lit "bossSummary", JStr (lit "We are done here."));
         (lit "dimensions", dims);
         (lit "moments", JArr [ one_moment ]);
         (lit "isPartial", JBool false) ].

Definition scoring (rating : Q) (tier verdict : string) : JValue :=
  scoring_of rating tier verdict five_dimensions.

(** Five entries, one key twice and one key missing. *)
Definition repeated_key : list JValue :=
  [ entry "communication" 7; entry "communication" 6;
    entry "behavioural" 5; entry "confidence" 8;
    entry "questionsAsked" 4 ].

(** A transcript body of the conversation route. *)
Definition transcript_body : JValue :=
  JObj [ (lit "ready", JBool true);
         (lit "transcript",
          JArr [ JObj [ (lit "role", JStr (lit "agent"));
                        (lit "message", JStr (lit "Sit down.")) ] ]) ].

Definition conversation : list N := lit "conv_0123456789".

(** JSON text written with apostrophes in place of the double quotes. *)
Definition json_text (s : string) : list N :=
  List.map (fun c => if (c =? 39)%N then 34%N else c) (lit s).

(** The text of a valid scoring payload with rating 1450, labelled with
    the wrong tier. *)
Definition payload_text : list N :=
  json_text "{'eloRating': 1450, 'tier': 'Impressive', 'verdict': 'NOT HIRED', 'bossSummary': 'We are done here.', 'dimensions': [{'name': 'communication', 'score': 7, 'feedback': 'I expected more.'}, {'name': 'technical', 'score': 6, 'feedback': 'I expected more.'}, {'name': 'behavioural', 'score': 5, 'feedback': 'I expected more.'}, {'name': 'confidence', 'score': 8, 'feedback': 'I expected more.'}, {'name': 'questionsAsked', 'score': 4, 'feedback': 'I expected more.'}], 'moments': [{'type': 'inaccuracy', 'question': 'What did you use on the backend?', 'quote': 'We used React for the backend.', 'explanation': 'React is a frontend library.'}], 'isPartial': false}".

(** The payload inside a markdown fence. *)
Definition fenced_reply : list N :=
  lit "```json" ++ [10%N] ++ payload_text ++ [10%N] ++ lit "```".

(** The payload followed by a remark that has braces of its own. *)
Definition chatty_reply : list N :=
  payload_text ++ lit " Consider the matter {closed}.".

(** A request with a transcript and a CV of the given lengths. *)
Definition sized_request (transcriptLength cvLength : Z) : JValue :=
  JObj [ (lit "transcript", JStr (repeat 120%N (Z.to_nat transcriptLength)));
         (lit "cvText", JStr (repeat 120%N (Z.to_nat cvLength))) ].

(** A collaborator that answers every message with [payload_text]. *)
Definition collaborator (content : list N)
  : option (list ScoreInterviewRoute.ContentBlock) :=
  Some [ ScoreInterviewRoute.TextBlock payload_text ].

Definition scored (key : string) (points : Q) : Dimension :=
  mkDimension (lit key) (Fin points) (lit "I expected more.").

(** The result the validator builds from [scoring]. *)
Definition validated (rating : Z) (t : BossTier) (v : Verdict)
  : ScoringResults :=
  {| eloRating := Fin (inject_Z rating);
     tier := t;
     verdict := v;
     bossSummary := lit "We are done here.";
     dimensions :=
       [ scored "communication" 7; scored "technical" 6;
         scored "behavioural" 5; scored "confidence" 8;
         scored "questionsAsked" 4 ];
     moments :=
       [ mkMoment (lit "inaccuracy") (lit "What did you use on the backend?")
           (lit "We used React for the backend.")
           (lit "React is a frontend library.") ];
     isPartial := false;
     note := None |}.

End Examples.

(** ** [src/components/ResultsStep.tsx]: the colour of a rating *)

Module ResultsStep.

(** [getTierColour], for a finite rating. *)
Definition getTierColour (rating : Q) : jsstring :=
  match List.find (fun t => Qle_bool (min t) rating && Qle_bool rating (max t))
                  ELO_TIERS with
  | Some t => colour t
  | None => lit "var(--color-text-secondary)"
  end.

End ResultsStep.

(** ** [src/app/api/conversations/[id]/route.ts]: the route handler *)

Module ConversationsHandler.

(** A code unit of the class [[a-zA-Z0-9_-]]. *)
Definition id_char (c : N) : bool :=
  (((97 <=? c) && (c <=? 122)) || ((65 <=? c) && (c <=? 90))
   || ((48 <=? c) && (c <=? 57)) || (c =? 95) || (c =? 45))%N.

(** [CONVERSATION_ID_PATTERN.test(id)] for the anchored pattern
    [/^[a-zA-Z0-9_-]{10,50}$/]: the whole string is ten to fifty code
    units of the class. *)
Definition CONVERSATION_ID_PATTERN (id : jsstring) : bool :=
  (10 <=? length id)%nat && (length id <=? 50)%nat && forallb id_char id.

(** What the [fetch] of the ElevenLabs API resolves to: [Unreachable]
    when it rejects, otherwise the status and the result of
    [res.json()] ([None] when that rejects). *)
Inductive Upstream : Type :=
| Unreachable
| Replied (status : Z) (json : option JValue).

(** A response of the route: its status and its JSON body as the client
    reads it back. *)
Record Response : Type := mkResponse {
  status : Z;
  body : JValue
}.

Definition error_response (message : string) (code : Z) : Response :=
  mkResponse code (JObj [ (lit "error", JStr (lit message)) ]).

(** What [JSON.stringify] makes of a value: a number that is not finite
    is written as [null]. *)
Fixpoint serialized (v : JValue) : JValue :=
  match v with
  | JNum (Fin q) => JNum (Fin q)
  | JNum _ => JNull
  | JArr items => JArr (List.map serialized items)
  | JObj fields =>
      JObj (List.map (fun kv => (fst kv, serialized (snd kv))) fields)
  | other => other
  end.

(** A property of an object literal in the body: [undefined] is left
    out by [JSON.stringify]. *)
Definition property (k : string) (v : option JValue)
  : list (jsstring * JValue) :=
  match v with
  | Some v => [ (lit k, serialized v) ]
  | None => []
  end.

(** The callback of [.map] over the transcript; [None] when reading a
    property of a [null] entry throws. *)
Definition map_entry (entry : JValue) : option JValue :=
  match entry with
  | JNull => None
  | _ =>
      let role :=
        match member entry (lit "role") with
        | Some (JStr r) => if str_eqb r (lit "agent") then lit "agent"
                           else lit "user"
        | _ => lit "user"
        end in
      Some (JObj ([ (lit "role", JStr role) ]
                  ++ property "message" (member entry (lit "message"))
                  ++ property "timestamp"
                       (member entry (lit "time_in_call_secs"))))
  end.

Fixpoint map_entries (entries : list JValue) : option (list JValue) :=
  match entries with
  | [] => Some []
  | entry :: rest =>
      match map_entry entry, map_entries rest with
      | Some e, Some es => Some (e :: es)
      | _, _ => None
      end
  end.

(** [(data.transcript || []).map(...)]; [None] when it throws, as on a
    truthy value that is not an array. *)
Definition mapped_transcript (data : JValue) : option (list JValue) :=
  if truthy (member data (lit "transcript")) then
    match member data (lit "transcript") with
    | Some (JArr entries) => map_entries entries
    | _ => None
    end
  else Some [].

(** [data.status === "done" || data.status === "finished"] *)
Definition is_complete (data : JValue) : bool :=
  match member data (lit "status") with
  | Some (JStr s) => str_eqb s (lit "done") || str_eqb s (lit "finished")
  | _ => false
  end.

Definition failed : Response := error_response "Failed to fetch transcript" 500.

Section Handler.

(** The [fetch] of the ElevenLabs API, from the URL and the key sent in
    the [xi-api-key] header. *)
Variable upstream : jsstring -> jsstring -> Upstream.

(** [process.env.ELEVENLABS_API_KEY] *)
Variable ELEVENLABS_API_KEY : option jsstring.

Definition conversation_url (id : jsstring) : jsstring :=
  lit "https://api.elevenlabs.io/v1/convai/conversations/" ++ id.

(** Steps 2 to 5, for a request the limiter admitted: the URLs fetched
    and the response. *)
Definition handle_admitted (id : jsstring) : list jsstring * Response :=
  if negb (CONVERSATION_ID_PATTERN id)
  then ([], error_response "Invalid conversation ID format" 400)
  else
    match ELEVENLABS_API_KEY with
    | None | Some [] => ([], error_response "Service configuration error" 500)
    | Some apiKey =>
        let url := conversation_url id in
        match upstream url apiKey with
        | Unreachable => ([url], failed)
        | Replied code json =>
            if code =? 404
            then ([url], error_response "Conversation not found" 404)
            else if negb ((200 <=? code) && (code <=? 299))
            then ([url], failed)
            else
              match json with
              | None | Some JNull => ([url], failed)
              | Some data =>
                  if is_complete data then
                    match mapped_transcript data with
                    | None => ([url], failed)
                    | Some transcript =>
                        ([url],
                         mkResponse 200
                           (JObj [ (lit "ready", JBool true);
                                   (lit "transcript", JArr transcript) ]))
                    end
                  else
                    ([url],
                     mkResponse 202 (JObj [ (lit "ready", JBool false) ]))
              end
        end
    end.

(** [GET]: the new limiter state, the URLs fetched and the response. *)
Definition GET (now : Z) (st : LimiterState) (forwardedFor : option jsstring)
    (id : jsstring) : LimiterState * list jsstring * Response :=
  let ip := default (lit "unknown") forwardedFor in
  let '(st', limit) :=
    ConversationsRoute.rateLimit now ip 200 60000 (lit "conversations") st in
  if negb (success limit) then
    (st', [],
     error_response
       "Too many requests. Please wait a moment and try again." 429)
  else
    let '(fetched, response) := handle_admitted id in
    (st', fetched, response).

End Handler.

(** The response as [fetch] of the route hands it to the client. *)
Definition as_fetched (r : Response) : ElevenLabs.FetchResult :=
  ElevenLabs.HttpResponse (status r) (Some (body r)).

End ConversationsHandler.

(** ** Notions used by the further statements *)

(** Clock readings that never run backwards. *)
Fixpoint nondecreasing (times : list Z) : Prop :=
  match times with
  | t :: ((t' :: _) as later) => t <= t' /\ nondecreasing later
  | _ => True
  end.

(** The clock readings of the admitted calls of a burst. *)
Fixpoint admitted_times (times : list Z) (outcomes : list bool) : list Z :=
  match times, outcomes with
  | t :: times', o :: outcomes' =>
      if o then t :: admitted_times times' outcomes'
      else admitted_times times' outcomes'
  | _, _ => []
  end.

(** The place of a tier in the order of [BossTier]. *)
Definition tier_rank (t : BossTier) : nat :=
  match t with
  | WastingMyTime => 0
  | ShowsAPulse => 1
  | Adequate => 2
  | Noteworthy => 3
  | Impressive => 4
  | HiredMaterial => 5
  end.

(** The error responses of the scoring route: status and message. *)
Definition SCORING_FAILURES : list (Z * list N) :=
  [ (429, lit "Too many requests. Please wait a moment and try again.");
    (400, lit "Interview transcript is required");
    (400, lit "Transcript exceeds maximum length");
    (400, lit "CV text must be a string");
    (400, lit "CV text exceeds maximum length");
    (500, lit "Service configuration error");
    (500, lit "Failed to score the interview");
    (500, lit "Something went wrong while scoring your interview. Please try again.") ].

(** Successive requests to the scoring route, each with the clock
    reading of its rate-limit check: the final limiter state and, for
    each request, the messages sent to the collaborator and the
    response. *)
Fixpoint post_sequence (JSON_parse : list N -> option JValue)
    (messages_create : list N -> option (list ScoreInterviewRoute.ContentBlock))
    (key : option (list N))
    (requests : list (Z * ScoreInterviewRoute.Request)) (st : LimiterState)
  : LimiterState * list (list (list N) * ScoreInterviewRoute.Response) :=
  match requests with
  | [] => (st, [])
  | (now, req) :: later =>
      let '(st1, calls, response) :=
        ScoreInterviewRoute.POST JSON_parse messages_create key now st req in
      let '(st2, rest) :=
        post_sequence JSON_parse messages_create key later st1 in
      (st2, (calls, response) :: rest)
  end.

(** The time slept in a trace of the retriever, in milliseconds. *)
Fixpoint total_sleep (events : list ElevenLabs.Event) : Q :=
  match events with
  | [] => 0
  | ElevenLabs.Sleep ms :: rest => ms + total_sleep rest
  | ElevenLabs.Fetch _ :: rest => total_sleep rest
  end.

(** The outcome of a poll that ends the retrieval. *)
Definition final_outcome (r : ElevenLabs.FetchResult)
  : result ElevenLabs.FetchError (option JValue) :=
  match r with
  | ElevenLabs.NetworkFailure => Throw ElevenLabs.NetworkError
  | ElevenLabs.HttpResponse code json =>
      if code =? 200 then ElevenLabs.read_transcript json
      else Throw (ElevenLabs.read_error code json)
  end.

(** A poll that asks for a retry. *)
Definition not_ready (r : ElevenLabs.FetchResult) : bool :=
  match r with
  | ElevenLabs.HttpResponse code _ => code =? 202
  | ElevenLabs.NetworkFailure => false
  end.

(** Requests of several clients to one route, each with the clock
    reading of its call: the limiter state they leave. *)
Fixpoint traffic (limiter : Limiter) (maxRequests windowMs : Z)
    (namespace : jsstring) (calls : list (Z * jsstring)) (st : LimiterState)
  : LimiterState :=
  match calls with
  | [] => st
  | (now, identifier) :: later =>
      traffic limiter maxRequests windowMs namespace later
        (fst (limiter now identifier maxRequests windowMs namespace st))
  end.

Module Scenarios.

(** A limiter whose next call is the hundredth: one client has two
    recent timestamps, another only an old one. *)
Definition due : LimiterState :=
  mkLimiter {[ lit "score-interview:10.200.200.1" := [61000; 61500];
               lit "score-interview:10.200.200.2" := [1000] ]} 99.

End Scenarios.

Module Traffic.

(** Thirty-one requests of one client within a second, none with a body
    that parses. *)
Definition hammering : list (Z * ScoreInterviewRoute.Request) :=
  List.map (fun i => (1000 + Z.of_nat i,
                      ScoreInterviewRoute.mkRequest (Some Examples.ip) None))
           (seq 0 31).

End Traffic.

(** The error responses of the retrieval route: status and message. *)
Definition RETRIEVAL_FAILURES : list (Z * list N) :=
  [ (429, lit "Too many requests. Please wait a moment and try again.");
    (400, lit "Invalid conversation ID format");
    (500, lit "Service configuration error");
    (404, lit "Conversation not found");
    (500, lit "Failed to fetch transcript") ].

(** The characters a conversation ID may hold. *)
Definition ID_ALPHABET : list N :=
  lit "abcdefghijklmnopqrstuvwxyzABCDEFGHIJKLMNOPQRSTUVWXYZ0123456789_-".

(** The properties of a transcript entry the retrieval route passes on. *)
Definition ENTRY_KEYS : list (list N) :=
  [ lit "role"; lit "message"; lit "timestamp" ].

(** A source that answers 202 to the first [k] polls and [r] from then
    on. *)
Definition answered_after (k : nat) (r : ElevenLabs.FetchResult)
  : nat -> ElevenLabs.FetchResult :=
  fun i => if (i <? k)%nat then ElevenLabs.HttpResponse 202 None else r.

Module Upstreams.

(** A finished conversation as the ElevenLabs API reports it. *)
Definition finished : JValue :=
  JObj [ (lit "status", JStr (lit "done"));
         (lit "transcript",
          JArr [ JObj [ (lit "role", JStr (lit "agent"));
                        (lit "message", JStr (lit "Sit down."));
                        (lit "time_in_call_secs", JNum (Fin 0)) ];
                 JObj [ (lit "role", JStr (lit "customer"));
                        (lit "message", JStr (lit "Thank you."));
                        (lit "tool_calls", JArr []) ] ]) ].

(** An API that has this conversation under every ID. *)
Definition api (url apiKey : list N) : ConversationsHandler.Upstream :=
  ConversationsHandler.Replied 200 (Some finished).

(** The retrieval route in front of [api], as the client's polls reach
    it: every poll at clock reading 0 on a fresh limiter. *)
Definition route (i : nat) : ElevenLabs.FetchResult :=
  ConversationsHandler.as_fetched
    (snd (ConversationsHandler.GET api (Some (lit "xi-test")) 0 Examples.fresh
            (Some Examples.ip) Examples.conversation)).

End Upstreams.

(** ** [src/app/page.tsx]: the page and its analysis pipeline *)

Module Page.

(** [String(n)] for a whole number, as in [`(${res.status})`]. *)
Definition decimal (n : Z) : jsstring :=
  lit (DecimalString.NilZero.string_of_int (Z.to_int n)).

Definition EM_DASH : list N := [8212%N].

(** The effects of the pipeline, in order. *)
Inductive Effect : Type :=
| Retrieve (conversationId : jsstring)   (* [fetchTranscript(conversationId)] *)
| Score (body : JValue)                  (* the POST to [/api/score-interview] *)
| Wait (ms : Z).

(** What the [fetch] of the scoring route comes to. *)
Inductive ScoreResponse : Type :=
| Rejected (message : jsstring)          (* [fetch] rejects *)
| Accepted (results : ScoringResults)    (* [ok]: the body, at the type the
                                            source reads it at *)
| Unreadable (message : jsstring)        (* [ok], but [json()] rejects *)
| Refused (status : Z) (json : option JValue).
                                         (* not [ok]; [None]: [json()] rejects *)

(** What the page shows inside the card. *)
Inductive View : Type :=
| Landing
| UploadCv
| Interview (cvText : option jsstring)
| Analysis (phase : AnalysisPhase)
| Results (results : ScoringResults) (transcript : option JValue)
| Nothing.

(** The conditions of the render: one step component at most. *)
Definition view (s : Wizard.WizardState) : View :=
  match Wizard.step s with
  | landing => Landing
  | upload_cv => UploadCv
  | interview => Interview (Wizard.cvText s)
  | analysis =>
      match Wizard.analysisPhase s with
      | Some phase => Analysis phase
      | None => Nothing
      end
  | results_step =>
      match Wizard.results s with
      | Some results =>
          if truthy (Wizard.transcript s)
          then Results results (Wizard.transcript s)
          else Nothing
      | None => Nothing
      end
  end.

(** The error banner: shown when [state.error] is truthy. *)
Definition banner (s : Wizard.WizardState) : option jsstring :=
  match Wizard.error s with
  | Some message => if (length message =? 0)%nat then None else Some message
  | None => None
  end.

Definition handleBegin : Wizard.Hook -> Wizard.Hook := Wizard.setStep upload_cv.

Definition handleDecline : Wizard.Hook -> Wizard.Hook :=
  Wizard.setStep upload_cv.

Definition handleSkipUpload : Wizard.Hook -> Wizard.Hook :=
  Wizard.setStep interview.

Definition handleFileUploaded (text fileName : jsstring) (h : Wizard.Hook)
  : Wizard.Hook :=
  Wizard.setStep interview
    (Wizard.setCvFileName (Some fileName) (Wizard.setCvText (Some text) h)).

Definition handleError (message : jsstring) : Wizard.Hook -> Wizard.Hook :=
  Wizard.setError (Some message).

Definition handleTryAgain : Wizard.Hook -> Wizard.Hook := Wizard.resetForRetry.

Definition handleStartOver : Wizard.Hook -> Wizard.Hook := Wizard.resetFull.

(** The [catch] of the pipeline. *)
Definition failed (message : jsstring) (h : Wizard.Hook) : Wizard.Hook :=
  Wizard.setAnalysisPhase None (Wizard.setError (Some message) h).

Section Pipeline.

(** [String(v)] of the runtime, for a value that is not a string. *)
Variable ToString : option JValue -> jsstring.

(** The message of the [TypeError] the runtime raises when a property of
    the value is read or a method it lacks is called. *)
Variable TypeError_message : option JValue -> jsstring.

(** [fetchTranscript]: the value returned or the error thrown. *)
Variable retrieve : jsstring -> result ElevenLabs.FetchError (option JValue).

(** The scoring route as the page reaches it, from the body posted. *)
Variable score : JValue -> ScoreResponse.

(** A value inside a template literal or passed to [new Error]. *)
Definition text_of (v : option JValue) : jsstring :=
  match v with
  | Some (JStr s) => s
  | other => ToString other
  end.

(** [err.message] for the errors [fetchTranscript] throws. *)
Definition retrieval_message (e : ElevenLabs.FetchError) : jsstring :=
  match e with
  | ElevenLabs.NetworkError =>
      lit "Network error " ++ EM_DASH
      ++ lit " please check your connection and try again."
  | ElevenLabs.UnexpectedResponse =>
      lit "Failed to fetch transcript " ++ EM_DASH
      ++ lit " unexpected server response."
  | ElevenLabs.HttpError status None =>
      lit "Failed to fetch transcript (" ++ decimal status ++ lit ")"
  | ElevenLabs.HttpError status (Some error) => text_of (Some error)
  | ElevenLabs.NotYetAvailable =>
      lit "Transcript is not yet available. Please wait a moment and try again."
  end.

(** The callback of [transcript.map]. *)
Definition line (e : JValue) : result jsstring jsstring :=
  match e with
  | JNull => Throw (TypeError_message (Some JNull))
  | _ =>
      let speaker :=
        match member e (lit "role") with
        | Some (JStr r) => if str_eqb r (lit "agent") then lit "Interviewer"
                           else lit "Candidate"
        | _ => lit "Candidate"
        end in
      Ok (speaker ++ lit ": " ++ text_of (member e (lit "message")))
  end.

Fixpoint lines (entries : list JValue) : result jsstring (list jsstring) :=
  match entries with
  | [] => Ok []
  | e :: rest =>
      l ← line e;
      ls ← lines rest;
      Ok (l :: ls)
  end.

(** [transcriptText]; a transcript that is not an array has no [map]. *)
Definition transcriptText (transcript : option JValue)
  : result jsstring jsstring :=
  match transcript with
  | Some (JArr entries) =>
      ls ← lines entries;
      Ok (join [10%N; 10%N] ls)
  | other => Throw (TypeError_message other)
  end.

(** The message thrown for an answer that is not [ok]. *)
Definition refusal_message (status : Z) (json : option JValue)
  : jsstring :=
  let fallback := lit "Scoring failed (" ++ decimal status ++ lit ")" in
  match json with
  | None => fallback
  | Some JNull => TypeError_message (Some JNull)
  | Some body =>
      let error := member body (lit "error") in
      if truthy error then text_of error else fallback
  end.

(** [runAnalysisPipeline]: its effects and the hook when it has
    settled.  Each [await] lets React render the updates queued so far. *)
Definition runAnalysisPipeline (conversationId : jsstring) (h : Wizard.Hook)
  : list Effect * Wizard.Hook :=
  let h := Wizard.setAnalysisPhase (Some Phase1) (Wizard.setStep analysis h) in
  let h := Wizard.render h in
  match retrieve conversationId with
  | Throw e =>
      ([Retrieve conversationId],
       Wizard.render (failed (retrieval_message e) h))
  | Ok transcript =>
      let h :=
        Wizard.setAnalysisPhase (Some Phase2)
          (Wizard.setTranscript transcript h) in
      let snap := Wizard.stateRef h in
      match transcriptText transcript with
      | Throw message =>
          ([Retrieve conversationId], Wizard.render (failed message h))
      | Ok text =>
          let body :=
            JObj [ (lit "cvText", JStr (default [] (Wizard.cvText snap)));
                   (lit "transcript", JStr text) ] in
          let h := Wizard.render h in
          let effects := [Retrieve conversationId; Score body] in
          match score body with
          | Rejected message => (effects, Wizard.render (failed message h))
          | Unreadable message => (effects, Wizard.render (failed message h))
          | Refused status json =>
              (effects,
               Wizard.render (failed (refusal_message status json) h))
          | Accepted results =>
              let h :=
                Wizard.setAnalysisPhase (Some Phase3)
                  (Wizard.setResults (Some results) h) in
              let h := Wizard.render h in
              (effects ++ [Wait 800],
               Wizard.render (Wizard.setStep results_step h))
          end
      end
  end.

(** [handleConversationEnd]: stores the conversation ID and runs the
    pipeline. *)
Definition handleConversationEnd (conversationId : jsstring)
    (h : Wizard.Hook) : list Effect * Wizard.Hook :=
  runAnalysisPipeline conversationId
    (Wizard.setConversationId (Some conversationId) h).

End Pipeline.

End Page.

(** The scoring route as the page reaches it: the answer to the body
    posted, for a request the route receives at [now] in state [st]. *)
Definition scoring_route (JSON_parse : list N -> option JValue)
    (messages_create : list N -> option (list ScoreInterviewRoute.ContentBlock))
    (key : option (list N)) (now : Z) (st : LimiterState)
    (forwardedFor : option (list N)) (body : JValue) : Page.ScoreResponse :=
  let response :=
    snd (ScoreInterviewRoute.POST JSON_parse messages_create key now st
           (ScoreInterviewRoute.mkRequest forwardedFor (Some body))) in
  match ScoreInterviewRoute.payload response with
  | ScoreInterviewRoute.ResultsBody results => Page.Accepted results
  | ScoreInterviewRoute.ErrorBody message =>
      Page.Refused (ScoreInterviewRoute.status response)
        (Some (JObj [ (lit "error", JStr message) ]))
  end.

Module Sessions.

(** A wizard in the interview step, with an uploaded CV and a queued
    update of the file name. *)
Definition interviewing : Wizard.Hook :=
  Wizard.setCvFileName (Some (lit "cv.pdf"))
    (Wizard.mkHook
       {| Wizard.step := interview;
          Wizard.cvText := Some (lit "Ten years of COBOL.");
          Wizard.cvFileName := None;
          Wizard.conversationId := None;
          Wizard.transcript := None;
          Wizard.results := None;
          Wizard.analysisPhase := None;
          Wizard.error := None;
          Wizard.loading := false |}
       []).

(** A runtime whose conversions are never needed in the examples. *)
Definition ToString (v : option JValue) : list N := lit "[object Object]".

Definition TypeError_message (v : option JValue) : list N :=
  lit "Cannot read properties of null".

(** A retrieval that finds the conversation not yet available. *)
Definition unavailable (id : list N)
  : result ElevenLabs.FetchError (option JValue) :=
  Throw ElevenLabs.NotYetAvailable.

(** A retrieval through the route in front of [Upstreams.api]. *)
Definition retrieved (id : list N)
  : result ElevenLabs.FetchError (option JValue) :=
  snd (ElevenLabs.fetchTranscript Upstreams.route id).

(** A retrieval of a conversation in which nothing was said. *)
Definition silent (id : list N)
  : result ElevenLabs.FetchError (option JValue) :=
  Ok (Some (JArr [])).

(** The scoring route in front of [Examples.collaborator], reached on a
    fresh limiter. *)
Definition scorer : JValue -> Page.ScoreResponse :=
  scoring_route Json.parse Examples.collaborator (Some (lit "sk-test")) 0
    Examples.fresh (Some Examples.ip).

End Sessions.

(** What the user and the interview do to the page, each followed by a
    render. *)
Inductive Action : Type :=
| Begin
| Decline
| SkipUpload
| FileUploaded (text fileName : list N)
| ReportError (message : list N)
| Dismiss
| ConversationEnd (conversationId : list N)
| TryAgain
| StartOver.

Section Session.

Variable ToString : option JValue -> list N.
Variable TypeError_message : option JValue -> list N.
Variable retrieve : list N -> result ElevenLabs.FetchError (option JValue).
Variable score : JValue -> Page.ScoreResponse.

Definition react (h : Wizard.Hook) (a : Action) : Wizard.Hook :=
  Wizard.render
    match a with
    | Begin => Page.handleBegin h
    | Decline => Page.handleDecline h
    | SkipUpload => Page.handleSkipUpload h
    | FileUploaded text fileName => Page.handleFileUploaded text fileName h
    | ReportError message => Page.handleError message h
    | Dismiss => Wizard.setError None h
    | ConversationEnd conversationId =>
        snd (Page.handleConversationEnd ToString TypeError_message retrieve
               score conversationId h)
    | TryAgain => Page.handleTryAgain h
    | StartOver => Page.handleStartOver h
    end.

Definition session (actions : list Action) (h : Wizard.Hook) : Wizard.Hook :=
  fold_left react actions h.

End Session.

(** The actions that replace or discard the CV. *)
Definition replaces_cv (a : Action) : bool :=
  match a with
  | FileUploaded _ _ | StartOver => true
  | _ => false
  end.


Module Replies.

(** A collaborator that follows the payload with a remark of its own. *)
Definition chatty (content : list N)
  : option (list ScoreInterviewRoute.ContentBlock) :=
  Some [ ScoreInterviewRoute.TextBlock Examples.chatty_reply ].

End Replies.

(** * Properties *)

(** ** Arithmetic of ratings *)

Lemma Qle_bool_inject_Z (a b : Z) :
  Qle_bool (inject_Z a) (inject_Z b) = (a <=? b).
Proof.
  unfold Qle_bool, inject_Z; cbn [Qnum Qden].
  now rewrite !Z.mul_1_r.
Qed.

Lemma Qlt_bool_inject_Z (a b : Z) :
  Qlt_bool (inject_Z a) (inject_Z b) = (a <? b).
Proof.
  unfold Qlt_bool. rewrite Qle_bool_inject_Z.
  destruct (Z.leb_spec b a), (Z.ltb_spec a b); simpl; auto; lia.
Qed.

Lemma Math_round_integer (r : Z) : Math_round (inject_Z r) = r.
Proof.
  unfold Math_round, Qfloor, Qplus, inject_Z; cbn [Qnum Qden].
  change (Z.pos (1 * 2)) with 2.
  symmetry; apply Z.div_unique with (r := 1); lia.
Qed.

Lemma Math_round_monotone (p q : Q) : (p <= q)%Q -> Math_round p <= Math_round q.
Proof.
  intros H. unfold Math_round. apply Qfloor_resp_le.
  apply Qplus_le_compat; [exact H | apply Qle_refl].
Qed.

Lemma Qlt_bool_false (x y : Q) : Qlt_bool x y = false <-> (y <= x)%Q.
Proof.
  unfold Qlt_bool. rewrite negb_false_iff. apply Qle_bool_iff.
Qed.

Lemma rounded_in_range (q : Q) :
  Qlt_bool q 100 || Qlt_bool 3000 q = false ->
  100 <= Math_round q <= 3000.
Proof.
  intros H. apply orb_false_elim in H as [Hlo Hhi].
  apply Qlt_bool_false in Hlo, Hhi.
  apply Math_round_monotone in Hlo, Hhi.
  change 100%Q with (inject_Z 100) in Hlo.
  change 3000%Q with (inject_Z 3000) in Hhi.
  rewrite Math_round_integer in Hlo, Hhi. lia.
Qed.

(** ** The rate limiter *)

Lemma rateLimit_declared_twice :
  ConversationsRoute.rateLimit = ScoreInterviewRoute.rateLimit.
Proof. reflexivity. Qed.

Lemma prune_all (now w : Z) (l : list Z) :
  Forall (fun t => now - t < w) l -> prune now w l = l.
Proof.
  induction 1 as [|t l Ht _ IH]; simpl; [reflexivity|].
  destruct (Z.ltb_spec (now - t) w); [now rewrite IH | lia].
Qed.

Lemma prune_none (now w : Z) (l : list Z) :
  Forall (fun t => w <= now - t) l -> prune now w l = [].
Proof.
  induction 1 as [|t l Ht _ IH]; simpl; [reflexivity|].
  destruct (Z.ltb_spec (now - t) w); [lia | exact IH].
Qed.

Lemma prune_later (now later w : Z) (l : list Z) :
  now <= later -> prune later w (prune now w l) = prune later w l.
Proof.
  intros Hle. induction l as [|t l IH]; simpl; [reflexivity|].
  destruct (Z.ltb_spec (now - t) w) as [Hn|Hn]; simpl;
    destruct (Z.ltb_spec (later - t) w) as [Hl|Hl]; try lia;
    now rewrite IH.
Qed.

Lemma prune_length (now w : Z) (l : list Z) :
  (length (prune now w l) <= length l)%nat.
Proof. apply List.filter_length_le. Qed.

(** What one call does to its own key, whatever the sweep did. *)
Lemma rateLimit_on_key now identifier maxRequests windowMs namespace st :
  let valid := prune now windowMs (stored namespace identifier st) in
  let '(st', r) :=
    ScoreInterviewRoute.rateLimit now identifier maxRequests windowMs
      namespace st in
  success r = (Z.of_nat (length valid) <? maxRequests)
  /\ stored namespace identifier st'
     = (if success r then valid ++ [now] else valid)
  /\ remaining r
     = (if success r then maxRequests - Z.of_nat (length (valid ++ [now]))
        else 0)
  /\ rateLimitCallCount st' = rateLimitCallCount st + 1.
Proof.
  unfold ScoreInterviewRoute.rateLimit, stored. cbv zeta.
  set (key := namespace ++ lit ":" ++ identifier).
  set (valid := prune now windowMs (default [] (rateLimitStore st !! key))).
  destruct (Z.geb_spec (Z.of_nat (length valid)) maxRequests) as [Hge|Hlt];
    cbn [success remaining rateLimitStore rateLimitCallCount].
  - rewrite lookup_insert_eq.
    destruct (Z.ltb_spec (Z.of_nat (length valid)) maxRequests); [lia|].
    now cbn.
  - rewrite lookup_insert_eq.
    destruct (Z.ltb_spec (Z.of_nat (length valid)) maxRequests); [|lia].
    now cbn.
Qed.

(** A burst on a key whose stored timestamps are all still in the window
    of every call: call number [k] is admitted exactly when the list has
    room for it. *)
Lemma burst_outcomes identifier maxRequests windowMs namespace times :
  forall st,
    within_window windowMs times ->
    Forall (fun t => Forall (fun t' => t' - t < windowMs) times)
           (stored namespace identifier st) ->
    let '(st', outcomes) :=
      burst ScoreInterviewRoute.rateLimit identifier maxRequests windowMs
        namespace times st in
    outcomes
    = List.map (fun k => Z.of_nat (length (stored namespace identifier st)) + Z.of_nat k
                         <? maxRequests)
               (seq 0 (length times))
    /\ exists kept,
        stored namespace identifier st'
        = stored namespace identifier st ++ kept
        /\ incl kept times.
Proof.
  induction times as [|now later IH]; intros st Hwin Hold.
  - cbn. split; [reflexivity|]. exists []. now rewrite app_nil_r.
  - cbn [burst].
    pose proof (rateLimit_on_key now identifier maxRequests windowMs
                  namespace st) as Hcall. cbv zeta in Hcall.
    destruct (ScoreInterviewRoute.rateLimit now identifier maxRequests
                windowMs namespace st) as [st1 r].
    destruct Hcall as (Hs & Hst & _ & _).
    assert (Hvalid : prune now windowMs (stored namespace identifier st)
                     = stored namespace identifier st).
    { apply prune_all. eapply List.Forall_impl; [|exact Hold].
      intros t Ht. now inversion Ht. }
    rewrite Hvalid in Hs, Hst.
    destruct Hwin as [Hnow Hlater].
    specialize (IH st1 Hlater).
    destruct (burst ScoreInterviewRoute.rateLimit identifier maxRequests
                windowMs namespace later st1) as [st2 rs].
    assert (Hold1 : Forall (fun t => Forall (fun t' => t' - t < windowMs) later)
                      (stored namespace identifier st1)).
    { rewrite Hst. destruct (success r).
      - apply Forall_app; split.
        + eapply List.Forall_impl; [|exact Hold]. intros t Ht. now inversion Ht.
        + constructor; [exact Hnow | constructor].
      - eapply List.Forall_impl; [|exact Hold]. intros t Ht. now inversion Ht. }
    destruct (IH Hold1) as (Hrs & kept & Hkept & Hincl).
    split.
    + cbn [length seq List.map]. rewrite Z.add_0_r, <- Hs. f_equal.
      rewrite Hrs, <- seq_shift, List.map_map.
      apply List.map_ext_in. intros k _.
      rewrite Hst. destruct (success r) eqn:Hr.
      * rewrite length_app. cbn [length]. f_equal. lia.
      * symmetry in Hs. apply Z.ltb_ge in Hs.
        destruct (Z.ltb_spec (Z.of_nat (length (stored namespace identifier st))
                              + Z.of_nat k) maxRequests);
        destruct (Z.ltb_spec (Z.of_nat (length (stored namespace identifier st))
                              + Z.of_nat (S k)) maxRequests); auto; lia.
    + rewrite Hkept, Hst. destruct (success r).
      * exists (now :: kept). rewrite <- app_assoc. split; [reflexivity|].
        intros x [->|Hx]; [now left | right; now apply Hincl].
      * exists kept. split; [reflexivity|].
        intros x Hx. right. now apply Hincl.
Qed.

Lemma map_ltb_below (m : Z) (n : nat) :
  Z.of_nat n <= m ->
  List.map (fun k => 0 + Z.of_nat k <? m) (seq 0 n) = repeat true n.
Proof.
  induction n as [|n IH]; intros Hn; [reflexivity|].
  rewrite seq_S, List.map_app.
  change (repeat true (S n)) with (true :: repeat true n).
  rewrite repeat_cons, IH by lia. cbn [List.map]. do 2 f_equal.
  apply Z.ltb_lt. lia.
Qed.

Lemma map_ltb_seq (n : nat) :
  List.map (fun k => 0 + Z.of_nat k <? Z.of_nat n) (seq 0 (S n))
  = repeat true n ++ [false].
Proof.
  rewrite seq_S, List.map_app, map_ltb_below by lia.
  cbn [List.map]. do 2 f_equal. apply Z.ltb_ge. lia.
Qed.

(** The same burst, started on a key whose stored timestamps have all
    expired at the first call. *)
Lemma burst_from_expired identifier maxRequests windowMs namespace now later st :
  within_window windowMs (now :: later) ->
  prune now windowMs (stored namespace identifier st) = [] ->
  let '(st', outcomes) :=
    burst ScoreInterviewRoute.rateLimit identifier maxRequests windowMs
      namespace (now :: later) st in
  outcomes
  = List.map (fun k => 0 + Z.of_nat k <? maxRequests) (seq 0 (S (length later)))
  /\ incl (stored namespace identifier st') (now :: later).
Proof.
  intros [Hnow Hlater] Hexpired. cbn [burst].
  pose proof (rateLimit_on_key now identifier maxRequests windowMs
                namespace st) as Hcall. cbv zeta in Hcall.
  destruct (ScoreInterviewRoute.rateLimit now identifier maxRequests
              windowMs namespace st) as [st1 r].
  destruct Hcall as (Hs & Hst & _ & _).
  rewrite Hexpired in Hs, Hst. cbn [length app] in Hs, Hst.
  pose proof (burst_outcomes identifier maxRequests windowMs namespace
                later st1 Hlater) as Hrest.
  destruct (burst ScoreInterviewRoute.rateLimit identifier maxRequests
              windowMs namespace later st1) as [st2 rs].
  destruct Hrest as (Hrs & kept & Hkept & Hincl).
  { rewrite Hst. destruct (success r); repeat constructor. exact Hnow. }
  split.
  - cbn [seq List.map]. rewrite Hs. f_equal.
    rewrite Hrs, <- seq_shift, List.map_map.
    apply List.map_ext_in. intros k _. rewrite Hst.
    destruct (success r) eqn:Hr; cbn [length].
    + f_equal. lia.
    + symmetry in Hs. apply Z.ltb_ge in Hs.
      destruct (Z.ltb_spec (Z.of_nat 0 + Z.of_nat k) maxRequests);
      destruct (Z.ltb_spec (0 + Z.of_nat (S k)) maxRequests); auto; lia.
  - rewrite Hkept, Hst. intros x Hx. apply in_app_or in Hx as [Hx|Hx].
    + destruct (success r); [|destruct Hx].
      destruct Hx as [->|[]]. now left.
    + right. now apply Hincl.
Qed.

(** C4. With [maxRequests = N], a burst of [N + 1] calls on one key
    within one window, started when the key has no unexpired timestamp,
    admits the first [N] calls and denies exactly the last; once the
    window has elapsed past every timestamp of the burst, the next call
    on the key is admitted again (there is a call to admit again when
    [N] is positive).  In general a call is admitted if and only if
    fewer than [maxRequests] timestamps remain after pruning, and an
    admitted call stores the pruned list extended by its own timestamp. *)
Theorem rate_limiter_admission
    (identifier namespace : list N) (N : nat) (windowMs : Z) :
  (forall (st : LimiterState) (times : list Z),
      length times = S N ->
      within_window windowMs times ->
      prune (hd 0 times) windowMs (stored namespace identifier st) = [] ->
      let after :=
        burst ScoreInterviewRoute.rateLimit identifier (Z.of_nat N) windowMs
          namespace times st in
      snd after = repeat true N ++ [false]
      /\ forall later : Z,
          (0 < N)%nat ->
          Forall (fun t => windowMs <= later - t) times ->
          success (snd (ScoreInterviewRoute.rateLimit later identifier
                          (Z.of_nat N) windowMs namespace (fst after)))
          = true)
  /\ (forall (now maxRequests : Z) (st : LimiterState),
        let valid := prune now windowMs (stored namespace identifier st) in
        let call :=
          ScoreInterviewRoute.rateLimit now identifier maxRequests windowMs
            namespace st in
        (success (snd call) = true <-> Z.of_nat (length valid) < maxRequests)
        /\ (success (snd call) = true ->
            stored namespace identifier (fst call) = valid ++ [now]
            /\ remaining (snd call) = maxRequests - (Z.of_nat (length valid) + 1))
        /\ (success (snd call) = false ->
            stored namespace identifier (fst call) = valid)).
Proof.
  split.
  - intros st [|now later] Hlen Hwin Hexpired; [discriminate|].
    cbn [hd] in Hexpired. cbv zeta.
    pose proof (burst_from_expired identifier (Z.of_nat N) windowMs namespace
                  now later st Hwin Hexpired) as Hburst.
    destruct (burst ScoreInterviewRoute.rateLimit identifier (Z.of_nat N)
                windowMs namespace (now :: later) st) as [st' outcomes].
    destruct Hburst as [Hout Hincl]. cbn [fst snd].
    injection Hlen as Hlen. split.
    + rewrite Hout, Hlen. apply map_ltb_seq.
    + intros t HN Hgone.
      pose proof (rateLimit_on_key t identifier (Z.of_nat N) windowMs
                    namespace st') as Hcall. cbv zeta in Hcall.
      destruct (ScoreInterviewRoute.rateLimit t identifier (Z.of_nat N)
                  windowMs namespace st') as [st'' r].
      destruct Hcall as (Hs & _). cbn [snd]. rewrite Hs.
      rewrite prune_none.
      * apply Z.ltb_lt. cbn [length]. lia.
      * apply List.Forall_forall. intros x Hx.
        apply Hincl in Hx.
        now apply (proj1 (List.Forall_forall _ _) Hgone).
  - intros now maxRequests st. cbv zeta.
    pose proof (rateLimit_on_key now identifier maxRequests windowMs
                  namespace st) as Hcall. cbv zeta in Hcall.
    destruct (ScoreInterviewRoute.rateLimit now identifier maxRequests
                windowMs namespace st) as [st' r].
    destruct Hcall as (Hs & Hst & Hrem & _). cbn [fst snd].
    split; [|split].
    + rewrite Hs. apply Z.ltb_lt.
    + intros Hr. rewrite Hr in Hst, Hrem. split; [exact Hst|].
      rewrite Hrem, length_app. cbn [length]. lia.
    + intros Hr. now rewrite Hr in Hst.
Qed.

(** C9. A denied call records nothing: the list stored for the key is
    the pruned list of the timestamps stored before, no budget is
    reported, and a later call on the key (the clock not running
    backwards) is decided as if the denied call had never been made.
    This holds for the limiter of both routes. *)
Theorem denied_call_records_nothing
    (limiter : Limiter) (identifier namespace : list N)
    (now maxRequests windowMs : Z) (st : LimiterState) :
  limiter = ScoreInterviewRoute.rateLimit
  \/ limiter = ConversationsRoute.rateLimit ->
  success (snd (limiter now identifier maxRequests windowMs namespace st))
  = false ->
  let st' := fst (limiter now identifier maxRequests windowMs namespace st) in
  rateLimitStore st' !! (namespace ++ lit ":" ++ identifier)
  = Some (prune now windowMs (stored namespace identifier st))
  /\ (length (stored namespace identifier st')
      <= length (stored namespace identifier st))%nat
  /\ remaining (snd (limiter now identifier maxRequests windowMs namespace st))
     = 0
  /\ forall later max' : Z,
      now <= later ->
      snd (limiter later identifier max' windowMs namespace st')
      = snd (limiter later identifier max' windowMs namespace st).
Proof.
  intros Hlim Hdenied.
  assert (limiter = ScoreInterviewRoute.rateLimit) as ->
    by (destruct Hlim as [->| ->]; reflexivity).
  cbv zeta.
  pose proof (rateLimit_on_key now identifier maxRequests windowMs
                namespace st) as Hcall. cbv zeta in Hcall.
  destruct (ScoreInterviewRoute.rateLimit now identifier maxRequests
              windowMs namespace st) as [st' r] eqn:Hrun.
  cbn [fst snd] in *.
  destruct Hcall as (Hs & Hst & Hrem & _).
  rewrite Hdenied in Hst, Hrem.
  split; [|split; [|split]].
  - unfold ScoreInterviewRoute.rateLimit in Hrun. cbv zeta in Hrun.
    fold (stored namespace identifier st) in Hrun.
    rewrite Hdenied in Hs. rewrite Z.geb_leb in Hrun.
    symmetry in Hs. apply Z.ltb_ge in Hs. apply Z.leb_le in Hs.
    rewrite Hs in Hrun. injection Hrun as <- _.
    cbn [rateLimitStore]. apply lookup_insert_eq.
  - rewrite Hst. apply prune_length.
  - exact Hrem.
  - intros later max' Hle.
    pose proof (rateLimit_on_key later identifier max' windowMs
                  namespace st') as H1.
    pose proof (rateLimit_on_key later identifier max' windowMs
                  namespace st) as H2.
    cbv zeta in H1, H2.
    destruct (ScoreInterviewRoute.rateLimit later identifier max' windowMs
                namespace st') as [s1 r1].
    destruct (ScoreInterviewRoute.rateLimit later identifier max' windowMs
                namespace st) as [s2 r2].
    destruct H1 as (Hs1 & _ & Hrem1 & _), H2 as (Hs2 & _ & Hrem2 & _).
    cbn [snd]. rewrite Hst, prune_later in Hs1, Hrem1 by exact Hle.
    rewrite <- Hs2 in Hs1. rewrite Hs1 in Hrem1. rewrite <- Hrem2 in Hrem1.
    destruct r1, r2; cbn in *; congruence.
Qed.

Lemma rate_limiter_admission_witness :
  snd (burst ScoreInterviewRoute.rateLimit Examples.ip 2 60000
         (lit "score-interview") [1000; 1500; 2000] Examples.fresh)
  = [true; true; false]
  /\ success
       (snd (ScoreInterviewRoute.rateLimit 62000 Examples.ip 2 60000
               (lit "score-interview")
               (fst (burst ScoreInterviewRoute.rateLimit Examples.ip 2 60000
                       (lit "score-interview") [1000; 1500; 2000]
                       Examples.fresh))))
     = true.
Proof.
  destruct (rate_limiter_admission Examples.ip (lit "score-interview")
              2 60000) as [Hburst _].
  destruct (Hburst Examples.fresh [1000; 1500; 2000]) as [Hout Hagain].
  - reflexivity.
  - cbn. repeat constructor; lia.
  - vm_compute. reflexivity.
  - split; [exact Hout|].
    apply Hagain; [lia | repeat constructor; lia].
Defined.

Lemma denied_call_records_nothing_witness :
  rateLimitStore
    (fst (ConversationsRoute.rateLimit 2000 Examples.ip 2 60000
            (lit "conversations") Examples.busy))
  !! (lit "conversations" ++ lit ":" ++ Examples.ip)
  = Some [1000; 1500].
Proof.
  apply (denied_call_records_nothing ConversationsRoute.rateLimit
           Examples.ip (lit "conversations") 2000 2 60000 Examples.busy).
  - right. reflexivity.
  - vm_compute. reflexivity.
Defined.

(** ** The wizard state *)

Lemma render_setState (update : Wizard.WizardState -> Wizard.WizardState)
    (h : Wizard.Hook) :
  Wizard.stateRef (Wizard.render (Wizard.setState update h))
  = update (Wizard.stateRef (Wizard.render h)).
Proof.
  unfold Wizard.render, Wizard.setState. cbn [Wizard.stateRef Wizard.queue].
  now rewrite fold_left_app.
Qed.

(** C10. Whatever the wizard state, the state rendered after
    [resetForRetry] has the [cvText] and [cvFileName] of the state the
    hook exposed before, [step] is ["interview"], and every other field
    has its value in [INITIAL_STATE]. *)
Theorem resetForRetry_keeps_cv_only (h : Wizard.Hook) :
  let prior := Wizard.stateRef h in
  let next := Wizard.stateRef (Wizard.render (Wizard.resetForRetry h)) in
  Wizard.cvText next = Wizard.cvText prior
  /\ Wizard.cvFileName next = Wizard.cvFileName prior
  /\ Wizard.step next = interview
  /\ Wizard.conversationId next = Wizard.conversationId Wizard.INITIAL_STATE
  /\ Wizard.transcript next = Wizard.transcript Wizard.INITIAL_STATE
  /\ Wizard.results next = Wizard.results Wizard.INITIAL_STATE
  /\ Wizard.analysisPhase next = Wizard.analysisPhase Wizard.INITIAL_STATE
  /\ Wizard.error next = Wizard.error Wizard.INITIAL_STATE
  /\ Wizard.loading next = Wizard.loading Wizard.INITIAL_STATE
  /\ next = {| Wizard.step := interview;
               Wizard.cvText := Wizard.cvText prior;
               Wizard.cvFileName := Wizard.cvFileName prior;
               Wizard.conversationId := None;
               Wizard.transcript := None;
               Wizard.results := None;
               Wizard.analysisPhase := None;
               Wizard.error := None;
               Wizard.loading := false |}.
Proof.
  cbv zeta. unfold Wizard.resetForRetry. rewrite render_setState.
  cbn. repeat split.
Qed.

(** ** Tier and verdict self-healing *)

Import ScoreInterviewRoute.

Lemma find_tier_integer (r : Z) :
  find_tier ELO_TIERS (inject_Z r)
  = if (100 <=? r) && (r <=? 599) then Some WastingMyTime
    else if (600 <=? r) && (r <=? 999) then Some ShowsAPulse
    else if (1000 <=? r) && (r <=? 1399) then Some Adequate
    else if (1400 <=? r) && (r <=? 1799) then Some Noteworthy
    else if (1800 <=? r) && (r <=? 2199) then Some Impressive
    else if (2200 <=? r) && (r <=? 3000) then Some HiredMaterial
    else None.
Proof.
  unfold ELO_TIERS, find_tier. cbn [min max tname].
  change 100%Q with (inject_Z 100). change 599%Q with (inject_Z 599).
  change 600%Q with (inject_Z 600). change 999%Q with (inject_Z 999).
  change 1000%Q with (inject_Z 1000). change 1399%Q with (inject_Z 1399).
  change 1400%Q with (inject_Z 1400). change 1799%Q with (inject_Z 1799).
  change 1800%Q with (inject_Z 1800). change 2199%Q with (inject_Z 2199).
  change 2200%Q with (inject_Z 2200). change 3000%Q with (inject_Z 3000).
  now rewrite !Qle_bool_inject_Z.
Qed.

Lemma bands_of_integer (r : Z) :
  List.filter (in_band (inject_Z r)) ELO_TIERS
  = List.filter (fun t => (Qnum (min t) <=? r) && (r <=? Qnum (max t)))
                ELO_TIERS.
Proof.
  apply List.filter_ext_in. intros t Ht. unfold in_band.
  assert (Hm : min t = inject_Z (Qnum (min t)) /\ max t = inject_Z (Qnum (max t))).
  { cbn in Ht. destruct Ht as [<-|[<-|[<-|[<-|[<-|[<-|[]]]]]]]; now split. }
  destruct Hm as [Hmin Hmax].
  rewrite Hmin at 1. rewrite Hmax at 1. now rewrite !Qle_bool_inject_Z.
Qed.

(** The table on integer ratings: the six bands are consecutive. *)
Lemma tier_bands_partition (r : Z) :
  100 <= r <= 3000 ->
  exists t : EloTierDefinition,
    List.filter (in_band (inject_Z r)) ELO_TIERS = [t]
    /\ deriveTierFromRating (inject_Z r) = tname t.
Proof.
  intros Hr. rewrite bands_of_integer. unfold deriveTierFromRating.
  rewrite find_tier_integer. unfold ELO_TIERS.
  cbn [List.filter min max Qnum].
  repeat match goal with
         | |- context [(?a <=? ?b)] => destruct (Z.leb_spec a b); try lia
         end;
    cbn [andb]; eexists; split; reflexivity.
Qed.

(** Closes a branch in which the validator has thrown. *)
Ltac thrown :=
  lazymatch goal with
  | |- Throw _ = Ok _ -> _ => let H := fresh in intros H; discriminate H
  | _ => idtac
  end.

(** The rating step of the validator, inverted. *)
Lemma rating_accepted (raw : JValue) (r : Z) :
  (eloRating ← prop raw (lit "eloRating"); validate_rating eloRating) = Ok r ->
  raw <> JNull
  /\ exists q : Q,
      member raw (lit "eloRating") = Some (JNum (Fin q))
      /\ Qlt_bool q 100 || Qlt_bool 3000 q = false
      /\ r = Math_round q.
Proof.
  unfold prop, validate_rating, mbind, result_bind. intros H.
  destruct raw; try discriminate H;
    (split; [discriminate|]);
    destruct (member _ _) as [[| |[q| | |]| | |]|]; try discriminate H;
    destruct (Qlt_bool q 100 || Qlt_bool 3000 q) eqn:Hrange;
    try discriminate H;
    injection H as <-; eauto.
Qed.

(** An accepted payload, inverted down to [validate_rest]. *)
Lemma validate_accepted (raw : JValue) (log : list Warning)
    (res : ScoringResults) :
  validateScoringResponse raw = (log, Ok res) ->
  raw <> JNull
  /\ exists q : Q,
      member raw (lit "eloRating") = Some (JNum (Fin q))
      /\ 100 <= Math_round q <= 3000
      /\ validate_rest raw (Math_round q)
           (deriveTierFromRating (inject_Z (Math_round q)))
           (verdict_of (Math_round q)) = Ok res.
Proof.
  unfold validateScoringResponse. intros H.
  destruct (eloRating ← prop raw (lit "eloRating"); validate_rating eloRating)
    as [r|e] eqn:Hrating; [|discriminate].
  apply rating_accepted in Hrating as (Hnull & q & Hq & Hrange & ->).
  split; [exact Hnull|]. exists q. split; [exact Hq|].
  split; [now apply rounded_in_range|].
  now injection H.
Qed.

Lemma validate_rest_fields (raw : JValue) (r : Z) (t : BossTier) (v : Verdict)
    (res : ScoringResults) :
  validate_rest raw r t v = Ok res ->
  eloRating res = Fin (inject_Z r) /\ tier res = t /\ verdict res = v.
Proof.
  unfold validate_rest, mbind, result_bind.
  repeat match goal with
         | |- context [match ?x with _ => _ end] => destruct x; thrown
         end;
    intros [= <-]; repeat split.
Qed.

(** The result of the validator is a function of six properties of the
    payload; [tier] and [verdict] are not among them. *)
Lemma validate_rest_ext (a b : JValue) (r : Z) (t : BossTier) (v : Verdict) :
  (forall k, In k result_keys -> member a k = member b k) ->
  validate_rest a r t v = validate_rest b r t v.
Proof.
  intros H. unfold validate_rest.
  rewrite (H (lit "bossSummary")), (H (lit "dimensions")),
    (H (lit "moments")), (H (lit "isPartial")), (H (lit "note"))
    by (cbn; auto 10).
  reflexivity.
Qed.

Lemma validate_result_ext (a b : JValue) :
  (a = JNull <-> b = JNull) ->
  (forall k, In k result_keys -> member a k = member b k) ->
  snd (validateScoringResponse a) = snd (validateScoringResponse b).
Proof.
  intros Hnull H. unfold validateScoringResponse.
  assert (Hprop : prop a (lit "eloRating") = prop b (lit "eloRating")).
  { unfold prop. rewrite (H (lit "eloRating")) by (cbn; auto 10).
    destruct a, b; try reflexivity;
      (destruct Hnull as [H1 H2]; (now discriminate H1) || (now discriminate H2)). }
  rewrite Hprop.
  destruct (eloRating ← prop b (lit "eloRating"); validate_rating eloRating);
    cbn [snd]; [|reflexivity].
  apply validate_rest_ext, H.
Qed.

Lemma differ_only_at_result (k : list N) (a b : JValue) :
  ~ In k result_keys ->
  differ_only_at k a b ->
  snd (validateScoringResponse a) = snd (validateScoringResponse b).
Proof.
  intros Hk [Hnull Hsame]. apply validate_result_ext; [exact Hnull|].
  intros k' Hk'. apply Hsame. intros ->. contradiction.
Qed.

(** Replacing the value of one property gives a payload that differs
    only there. *)
Lemma differ_only_at_update (k : list N) (v v' : JValue)
    (before after : list (list N * JValue)) :
  differ_only_at k (JObj (before ++ (k, v) :: after))
                   (JObj (before ++ (k, v') :: after)).
Proof.
  split; [split; discriminate|].
  intros k' Hk'. cbn [member].
  induction before as [|[k0 v0] before IH]; cbn [app assoc].
  - unfold str_eqb. now rewrite bool_decide_eq_false_2.
  - now rewrite IH.
Qed.

(** C2. Every integer rating from 100 to 3000 lies in exactly one band
    of [ELO_TIERS], the six bands carry six different names, and
    [deriveTierFromRating] returns the name of that band; the tier of an
    accepted payload is the one derived from its rounded rating, and no
    value of the raw [tier] property changes the result. *)
Theorem tier_recomputed_from_rating :
  (forall r : Z,
      100 <= r <= 3000 ->
      exists t : EloTierDefinition,
        List.filter (in_band (inject_Z r)) ELO_TIERS = [t]
        /\ deriveTierFromRating (inject_Z r) = tname t)
  /\ length ELO_TIERS = 6%nat
  /\ List.NoDup (List.map tname ELO_TIERS)
  /\ (forall (raw : JValue) (log : list Warning) (res : ScoringResults),
        validateScoringResponse raw = (log, Ok res) ->
        exists q : Q,
          member raw (lit "eloRating") = Some (JNum (Fin q))
          /\ 100 <= Math_round q <= 3000
          /\ eloRating res = Fin (inject_Z (Math_round q))
          /\ tier res = deriveTierFromRating (inject_Z (Math_round q))
          /\ forall raw' : JValue,
              differ_only_at (lit "tier") raw raw' ->
              snd (validateScoringResponse raw') = Ok res).
Proof.
  split; [exact tier_bands_partition|].
  split; [reflexivity|].
  split.
  { cbn. repeat constructor; cbn; intuition discriminate. }
  intros raw log res Hacc.
  pose proof Hacc as Hinv.
  apply validate_accepted in Hinv as (_ & q & Hq & Hrange & Hrest).
  apply validate_rest_fields in Hrest as (Helo & Htier & _).
  exists q. repeat split; try (exact Hq || exact Helo || lia).
  - now rewrite Htier.
  - intros raw' Hdiff.
    rewrite <- (differ_only_at_result (lit "tier") raw raw'); [|cbn|exact Hdiff].
    + now rewrite Hacc.
    + intros [H|[H|[H|[H|[H|[H|[]]]]]]]; vm_compute in H; discriminate H.
Qed.

(** C1. The verdict of an accepted payload is [HIRED] exactly when its
    rounded rating is at least 2200, and no value of the raw [verdict]
    property, in or out of the two categories, changes the result. *)
Theorem verdict_recomputed_from_rating
    (raw : JValue) (log : list Warning) (res : ScoringResults) :
  validateScoringResponse raw = (log, Ok res) ->
  exists q : Q,
    member raw (lit "eloRating") = Some (JNum (Fin q))
    /\ eloRating res = Fin (inject_Z (Math_round q))
    /\ (verdict res = HIRED <-> 2200 <= Math_round q)
    /\ (verdict res = NOT_HIRED <-> Math_round q < 2200)
    /\ forall raw' : JValue,
        differ_only_at (lit "verdict") raw raw' ->
        snd (validateScoringResponse raw') = Ok res.
Proof.
  intros Hacc. pose proof Hacc as Hinv.
  apply validate_accepted in Hinv as (_ & q & Hq & Hrange & Hrest).
  apply validate_rest_fields in Hrest as (Helo & _ & Hverdict).
  exists q. split; [exact Hq|]. split; [exact Helo|].
  assert (Hv : verdict res = if 2200 <=? Math_round q then HIRED else NOT_HIRED).
  { rewrite Hverdict. unfold verdict_of, HIRED_THRESHOLD.
    change 2200%Q with (inject_Z 2200). now rewrite Qle_bool_inject_Z. }
  rewrite Hv. split; [|split].
  - destruct (Z.leb_spec 2200 (Math_round q)); split; intros; (lia || discriminate || reflexivity).
  - destruct (Z.leb_spec 2200 (Math_round q)); split; intros; (lia || discriminate || reflexivity).
  - intros raw' Hdiff.
    rewrite <- (differ_only_at_result (lit "verdict") raw raw'); [|cbn|exact Hdiff].
    + now rewrite Hacc.
    + intros [H|[H|[H|[H|[H|[H|[]]]]]]]; vm_compute in H; discriminate H.
Qed.

(** ** The transcript retriever *)

Import ElevenLabs.

(** The loop, entered at [attempt], on a source that becomes ready at
    poll [k]. *)
Lemma poll_until_ready (source : nat -> FetchResult) (id : list N)
    (k : nat) (json : option JValue) :
  (k < MAX_ATTEMPTS)%nat ->
  source k = HttpResponse 200 json ->
  forall fuel attempt : nat,
    (fuel + attempt = MAX_ATTEMPTS)%nat ->
    (attempt <= k)%nat ->
    (forall i, (attempt <= i < k)%nat -> exists body, source i = HttpResponse 202 body) ->
    poll source id fuel attempt
    = (flat_map (backoff_step (url id)) (seq attempt (k - attempt))
       ++ [Fetch (url id)],
       read_transcript json).
Proof.
  intros Hk Hready. induction fuel as [|fuel IH];
    intros attempt Hsum Hle Hwait.
  - cbn in Hsum. lia.
  - cbn [poll]. destruct (Nat.eq_dec attempt k) as [->|Hne].
    + rewrite Hready, Nat.sub_diag. reflexivity.
    + destruct (Hwait attempt) as [body Hbody]; [lia|].
      rewrite Hbody. cbn [Z.eqb Pos.eqb].
      destruct (attempt <? MAX_ATTEMPTS - 1)%nat eqn:Hlast;
        [|apply Nat.ltb_ge in Hlast; lia].
      rewrite IH by (try lia; intros i Hi; apply Hwait; lia).
      replace (k - attempt)%nat with (S (k - S attempt)) by lia.
      reflexivity.
Qed.

(** The loop on a source that is never ready. *)
Lemma poll_never_ready (source : nat -> FetchResult) (id : list N) :
  (forall i, (i < MAX_ATTEMPTS)%nat -> exists body, source i = HttpResponse 202 body) ->
  fetchTranscript source id
  = (schedule (url id) (MAX_ATTEMPTS - 1), Throw NotYetAvailable).
Proof.
  intros Hwait. unfold fetchTranscript, MAX_ATTEMPTS in *.
  destruct (Hwait 0%nat) as [b0 H0]; [lia|].
  destruct (Hwait 1%nat) as [b1 H1]; [lia|].
  destruct (Hwait 2%nat) as [b2 H2]; [lia|].
  destruct (Hwait 3%nat) as [b3 H3]; [lia|].
  destruct (Hwait 4%nat) as [b4 H4]; [lia|].
  cbn [poll]. rewrite H0, H1, H2, H3, H4. reflexivity.
Qed.

Lemma delay_scan_schedule (id : list N) :
  forall (n a i : nat) (last : option Q),
    (i < n)%nat ->
    delay_scan (flat_map (backoff_step (url id)) (seq a n) ++ [Fetch (url id)])
      (S i) last
    = Some (BASE_DELAY_MS * BACKOFF_MULTIPLIER ^ Z.of_nat (a + i))%Q.
Proof.
  induction n as [|n IH]; intros a i last Hi; [lia|].
  cbn [seq flat_map backoff_step app delay_scan].
  destruct i as [|i].
  - rewrite Nat.add_0_r. destruct n; reflexivity.
  - rewrite IH by lia. now replace (S a + i)%nat with (a + S i)%nat by lia.
Qed.

Lemma polls_steps (u : list N) (k a : nat) :
  polls (flat_map (backoff_step u) (seq a k)) = k.
Proof.
  revert a. induction k as [|k IH]; intros a; [reflexivity|].
  cbn [seq flat_map backoff_step app]. unfold polls in *.
  cbn [List.filter length]. now rewrite IH.
Qed.

Lemma polls_schedule (id : list N) (k : nat) :
  polls (schedule (url id) k) = S k.
Proof.
  unfold schedule. pose proof (polls_steps (url id) k 0) as H.
  unfold polls in *. rewrite List.filter_app, length_app, H.
  cbn [List.filter length]. lia.
Qed.

(** A response that is neither 200 nor 202 ends the retrieval at once,
    with the error of that response. *)
Lemma hard_error_not_retried (source : nat -> FetchResult) (id : list N)
    (code : Z) (json : option JValue) :
  source 0%nat = HttpResponse code json ->
  code <> 200 -> code <> 202 ->
  fetchTranscript source id
  = ([Fetch (url id)], Throw (read_error code json)).
Proof.
  intros Hsource H200 H202. unfold fetchTranscript, MAX_ATTEMPTS.
  cbn [poll]. rewrite Hsource.
  destruct (Z.eqb_spec code 200); [contradiction|].
  destruct (Z.eqb_spec code 202); [contradiction|]. reflexivity.
Qed.

(** The delays of the schedule, in milliseconds. *)
Lemma backoff_delays :
  (BASE_DELAY_MS * BACKOFF_MULTIPLIER ^ 0 == 3000)%Q
  /\ (BASE_DELAY_MS * BACKOFF_MULTIPLIER ^ 1 == 4500)%Q
  /\ (BASE_DELAY_MS * BACKOFF_MULTIPLIER ^ 2 == 6750)%Q
  /\ (BASE_DELAY_MS * BACKOFF_MULTIPLIER ^ 3 == 10125)%Q.
Proof. repeat split; reflexivity. Qed.

(** C3, as the code has it.  When the source is not ready for the first
    [k] polls and ready at the next one, with [k] below the cap of five
    attempts, the retriever polls [k + 1] times and returns what the
    ready response holds; no sleep precedes the first poll, and the
    sleep after poll [i], that is before poll [i + 1], lasts
    [3000 * 1.5 ^ i] ms.  When the source is not ready at any of the
    five polls the retriever throws the "not yet available" error,
    which is not the error of a failed response, after five polls and
    the four sleeps between them. *)
Theorem transcript_retriever_backoff
    (source : nat -> FetchResult) (id : list N) :
  (forall (k : nat) (json : option JValue),
      (k < MAX_ATTEMPTS)%nat ->
      (forall i, (i < k)%nat -> exists body, source i = HttpResponse 202 body) ->
      source k = HttpResponse 200 json ->
      let run := fetchTranscript source id in
      fst run = schedule (url id) k
      /\ polls (fst run) = S k
      /\ snd run = read_transcript json
      /\ delay_before (fst run) 0 = None
      /\ forall i, (i < k)%nat ->
          delay_before (fst run) (S i)
          = Some (BASE_DELAY_MS * BACKOFF_MULTIPLIER ^ Z.of_nat i)%Q)
  /\ ((forall i, (i < MAX_ATTEMPTS)%nat ->
         exists body, source i = HttpResponse 202 body) ->
      let run := fetchTranscript source id in
      snd run = Throw NotYetAvailable
      /\ (forall status message, snd run <> Throw (HttpError status message))
      /\ snd run <> Throw NetworkError
      /\ polls (fst run) = MAX_ATTEMPTS
      /\ fst run = schedule (url id) (MAX_ATTEMPTS - 1)).
Proof.
  split.
  - intros k json Hk Hwait Hready. cbv zeta.
    unfold fetchTranscript.
    rewrite (poll_until_ready source id k json Hk Hready) by
      (try reflexivity; try lia; intros i Hi; apply Hwait; lia).
    rewrite Nat.sub_0_r. cbn [fst snd]. fold (schedule (url id) k).
    split; [reflexivity|]. split; [apply polls_schedule|].
    split; [reflexivity|]. split.
    + unfold schedule, delay_before.
      destruct k; reflexivity.
    + intros i Hi. unfold schedule, delay_before.
      now rewrite delay_scan_schedule.
  - intros Hwait. cbv zeta. rewrite (poll_never_ready source id Hwait).
    cbn [fst snd].
    split; [reflexivity|]. split; [discriminate|]. split; [discriminate|].
    split; [apply polls_schedule | reflexivity].
Qed.

Lemma transcript_retriever_backoff_witness :
  snd (fetchTranscript (ready_after 2 (Some Examples.transcript_body))
         Examples.conversation)
  = Ok (member Examples.transcript_body (lit "transcript"))
  /\ polls (fst (fetchTranscript
                   (ready_after 2 (Some Examples.transcript_body))
                   Examples.conversation)) = 3%nat
  /\ delay_before (fst (fetchTranscript
                          (ready_after 2 (Some Examples.transcript_body))
                          Examples.conversation)) 2
     = Some (BASE_DELAY_MS * BACKOFF_MULTIPLIER ^ 1)%Q.
Proof.
  destruct (transcript_retriever_backoff
              (ready_after 2 (Some Examples.transcript_body))
              Examples.conversation) as [Hready _].
  destruct (Hready 2%nat (Some Examples.transcript_body))
    as (_ & Hpolls & Hout & _ & Hdelay).
  - unfold MAX_ATTEMPTS. lia.
  - intros [|[|i]] Hi; [eexists; reflexivity | eexists; reflexivity | lia].
  - reflexivity.
  - split; [exact Hout|]. split; [exact Hpolls|].
    apply (Hdelay 1%nat). lia.
Defined.

(** C3 as worded fails on the code: when the source is ready at the
    second poll, the sleep before poll 1 lasts 3000 ms, where the wording
    asks for [3000 * 1.5 ^ 1] = 4500 ms; and when the source is not ready
    for the first five polls the retriever has given up before the
    sixth. *)
Lemma transcript_retriever_counterexample :
  (exists d claimed : Q,
      delay_before
        (fst (fetchTranscript (ready_after 1 (Some Examples.transcript_body))
                Examples.conversation)) 1 = Some d
      /\ claimed_delay_before 1 = Some claimed
      /\ (d == 3000)%Q /\ (claimed == 4500)%Q /\ ~ (d == claimed)%Q)
  /\ snd (fetchTranscript (ready_after 5 (Some Examples.transcript_body))
            Examples.conversation)
     = Throw NotYetAvailable
  /\ polls (fst (fetchTranscript
                   (ready_after 5 (Some Examples.transcript_body))
                   Examples.conversation)) = 5%nat
  /\ ~ retriever_as_worded.
Proof.
  split; [|split; [reflexivity|split; [reflexivity|]]].
  - eexists. eexists.
    split; [reflexivity|]. split; [reflexivity|].
    split; [reflexivity|]. split; [reflexivity|].
    intros H. vm_compute in H. discriminate H.
  - intros Hworded.
    destruct (Hworded (ready_after 1 (Some Examples.transcript_body))
                Examples.conversation 1%nat (Some Examples.transcript_body))
      as (_ & _ & Hdelay).
    + intros [|i] Hi; [eexists; reflexivity | lia].
    + reflexivity.
    + specialize (Hdelay 1%nat (le_n 1)). vm_compute in Hdelay.
      discriminate Hdelay.
Qed.

(** ** Self-healing on concrete payloads *)

Lemma verdict_recomputed_from_rating_witness :
  validateScoringResponse (Examples.scoring 2300 "Hired Material" "NOT HIRED")
  = ([VerdictHealed (lit "NOT HIRED") 2300 HIRED],
     Ok (Examples.validated 2300 HiredMaterial HIRED))
  /\ verdict (Examples.validated 2300 HiredMaterial HIRED) = HIRED
  /\ snd (validateScoringResponse
            (Examples.scoring 2300 "Hired Material" "MAYBE"))
     = Ok (Examples.validated 2300 HiredMaterial HIRED).
Proof.
  assert (H : validateScoringResponse
                (Examples.scoring 2300 "Hired Material" "NOT HIRED")
              = ([VerdictHealed (lit "NOT HIRED") 2300 HIRED],
                 Ok (Examples.validated 2300 HiredMaterial HIRED)))
    by (vm_compute; reflexivity).
  split; [exact H|].
  destruct (verdict_recomputed_from_rating _ _ _ H)
    as (q & _ & _ & _ & _ & Hraw).
  split; [reflexivity|].
  apply Hraw.
  exact (differ_only_at_update (lit "verdict") (JStr (lit "NOT HIRED"))
           (JStr (lit "MAYBE"))
           [ (lit "eloRating", JNum (Fin 2300));
             (lit "tier", JStr (lit "Hired Material")) ]
           [ (lit "bossSummary", JStr (lit "We are done here."));
             (lit "dimensions", Examples.five_dimensions);
             (lit "moments", JArr [ Examples.one_moment ]);
             (lit "isPartial", JBool false) ]).
Defined.

(** The boundary of the verdict: 2199 is not hired whatever the payload
    says, 2200 is hired even when the payload holds no valid verdict,
    and a decimal rating counts by its rounded value. *)
Example verdict_boundary :
  validateScoringResponse (Examples.scoring 2199 "Impressive" "HIRED")
  = ([VerdictHealed (lit "HIRED") 2199 NOT_HIRED],
     Ok (Examples.validated 2199 Impressive NOT_HIRED))
  /\ validateScoringResponse (Examples.scoring 2200 "Hired Material" "MAYBE")
     = ([VerdictHealed (lit "MAYBE") 2200 HIRED],
        Ok (Examples.validated 2200 HiredMaterial HIRED))
  /\ validateScoringResponse
       (Examples.scoring (4399 # 2) "Hired Material" "HIRED")
     = ([], Ok (Examples.validated 2200 HiredMaterial HIRED)).
Proof. repeat split; vm_compute; reflexivity. Qed.

Lemma tier_recomputed_from_rating_witness :
  (exists t : EloTierDefinition,
      List.filter (in_band (inject_Z 1450)) ELO_TIERS = [t]
      /\ deriveTierFromRating (inject_Z 1450) = tname t)
  /\ tier (Examples.validated 1450 Noteworthy NOT_HIRED)
     = deriveTierFromRating (inject_Z 1450)
  /\ snd (validateScoringResponse
            (Examples.scoring 1450 "Hired Material" "NOT HIRED"))
     = Ok (Examples.validated 1450 Noteworthy NOT_HIRED).
Proof.
  destruct tier_recomputed_from_rating as (Hband & _ & _ & Hhealed).
  split; [apply Hband; lia|].
  destruct (Hhealed (Examples.scoring 1450 "Impressive" "NOT HIRED")
              [TierHealed (lit "Impressive") 1450 Noteworthy]
              (Examples.validated 1450 Noteworthy NOT_HIRED))
    as (q & _ & _ & _ & _ & Hraw); [vm_compute; reflexivity|].
  split; [reflexivity|].
  apply Hraw.
  exact (differ_only_at_update (lit "tier") (JStr (lit "Impressive"))
           (JStr (lit "Hired Material"))
           [ (lit "eloRating", JNum (Fin 1450)) ]
           [ (lit "verdict", JStr (lit "NOT HIRED"));
             (lit "bossSummary", JStr (lit "We are done here."));
             (lit "dimensions", Examples.five_dimensions);
             (lit "moments", JArr [ Examples.one_moment ]);
             (lit "isPartial", JBool false) ]).
Defined.

(** ** The loops of the validator *)

Lemma has_true (set : gset (list N)) (x : list N) :
  has set x = true <-> (x ∈ set).
Proof. unfold has. apply bool_decide_eq_true. Qed.

Lemma has_false (set : gset (list N)) (x : list N) :
  has set x = false <-> (x ∉ set).
Proof. unfold has. apply bool_decide_eq_false. Qed.

Lemma validate_dimension_ok (dim : JValue) (seen seen' : gset (list N))
    (d : Dimension) :
  validate_dimension dim seen = Ok (seen', d)
  <-> dimension_ok dim d /\ (name d ∉ seen) /\ seen' = {[ name d ]} ∪ seen.
Proof.
  unfold validate_dimension, dimension_ok. split.
  - destruct (is_object dim) eqn:Hobj; cbn [negb]; [|thrown].
    destruct (member dim (lit "name")) as [[| | |key| |]|]; thrown.
    destruct (has VALID_DIMENSIONS key) eqn:Hvalid; cbn [negb]; [|thrown].
    destruct (has seen key) eqn:Hseen; [thrown|].
    destruct (member dim (lit "score")) as [[| |[q| | |]| | |]|];
      thrown.
    destruct (member dim (lit "feedback")) as [[| | |text| |]|];
      thrown.
    destruct (blank text) eqn:Hblank; [thrown|].
    intros [= <- <-]. cbn [name score feedback].
    apply has_true in Hvalid. apply has_false in Hseen.
    repeat split; eauto.
  - intros ((Hobj & Hname & Hvalid & (q & Hscore & Hq) & Hfeedback & Hblank)
            & Hseen & ->).
    rewrite Hobj, Hname. cbn [negb].
    apply has_true in Hvalid. apply has_false in Hseen.
    rewrite Hvalid, Hseen, Hscore, Hfeedback, Hblank. cbn [negb].
    destruct d as [key points text]. cbn in *. now subst.
Qed.

Lemma validate_dimensions_ok (dims : list JValue) :
  forall (seen : gset (list N)) (acc : list Dimension)
         (seen' : gset (list N)) (out : list Dimension),
    validate_dimensions dims seen acc = Ok (seen', out)
    <-> exists new : list Dimension,
        out = acc ++ new
        /\ Forall2 dimension_ok dims new
        /\ List.NoDup (List.map name new)
        /\ (forall d, In d new -> name d ∉ seen)
        /\ seen' = list_to_set (List.map name new) ∪ seen.
Proof.
  induction dims as [|dim dims IH]; intros seen acc seen' out.
  - cbn [validate_dimensions]. split.
    + intros [= <- <-]. exists []. rewrite app_nil_r.
      split; [reflexivity|]. split; [constructor|]. split; [constructor|].
      split; [intros d []|]. cbn. set_solver.
    + intros (new & -> & Hall & _ & _ & ->). inversion Hall; subst.
      rewrite app_nil_r. cbn. do 2 f_equal. set_solver.
  - cbn [validate_dimensions]. unfold mbind, result_bind. split.
    + destruct (validate_dimension dim seen) as [[seen1 d]|e] eqn:Hdim;
        [|thrown].
      apply validate_dimension_ok in Hdim as (Hok & Hfresh & ->).
      intros Hrest. apply IH in Hrest as (new & -> & Hall & Hnodup & Hnew & ->).
      exists (d :: new). rewrite <- app_assoc. cbn [app List.map].
      split; [reflexivity|]. split; [now constructor|].
      split; [|split].
      * constructor; [|exact Hnodup].
        intros Hin. apply in_map_iff in Hin as (d' & Heq & Hd').
        apply (Hnew d' Hd'). rewrite Heq. set_solver.
      * intros d' [<-|Hd']; [exact Hfresh|].
        specialize (Hnew d' Hd'). set_solver.
      * cbn [list_to_set]. set_solver.
    + intros (new & -> & Hall & Hnodup & Hnew & ->).
      inversion Hall as [|dim' d dims' new' Hok Hall']; subst.
      cbn [List.map] in Hnodup. apply List.NoDup_cons_iff in Hnodup as [Hd Hnodup].
      assert (Hdim : validate_dimension dim seen = Ok ({[ name d ]} ∪ seen, d)).
      { apply validate_dimension_ok. split; [exact Hok|]. split; [|reflexivity].
        apply Hnew. now left. }
      rewrite Hdim.
      assert (Hrest : validate_dimensions dims ({[ name d ]} ∪ seen) (acc ++ [d])
                      = Ok (list_to_set (List.map name new')
                            ∪ ({[ name d ]} ∪ seen),
                            (acc ++ [d]) ++ new')).
      { apply IH. exists new'. split; [reflexivity|]. split; [exact Hall'|].
        split; [exact Hnodup|]. split; [|reflexivity].
        intros d' Hd'. apply not_elem_of_union. split.
        - intros Heq. apply elem_of_singleton in Heq. apply Hd.
          rewrite <- Heq. now apply in_map.
        - apply Hnew. now right. }
      rewrite Hrest. rewrite <- app_assoc. cbn [app List.map list_to_set].
      do 2 f_equal. set_solver.
Qed.

Lemma validate_moment_ok (moment : JValue) (m : MomentAnnotation) :
  validate_moment moment = Ok m <-> moment_ok moment m.
Proof.
  unfold validate_moment, moment_ok. split.
  - destruct (is_object moment) eqn:Hobj; cbn [negb]; [|thrown].
    destruct (member moment (lit "type")) as [[| | |ty| |]|]; thrown.
    destruct (has VALID_ANNOTATION_TYPES ty) eqn:Hvalid; cbn [negb];
      [|thrown].
    destruct (member moment (lit "question")) as [[| | |q| |]|];
      thrown.
    destruct (blank q) eqn:Hq; [thrown|].
    destruct (member moment (lit "quote")) as [[| | |quo| |]|];
      thrown.
    destruct (blank quo) eqn:Hquo; [thrown|].
    destruct (member moment (lit "explanation")) as [[| | |ex| |]|];
      thrown.
    destruct (blank ex) eqn:Hex; [thrown|].
    intros [= <-]. cbn [type question quote explanation].
    apply has_true in Hvalid. repeat split; assumption.
  - intros (Hobj & Hty & Hvalid & Hq & Hqb & Hquo & Hquob & Hex & Hexb).
    apply has_true in Hvalid.
    rewrite Hobj, Hty, Hvalid, Hq, Hqb, Hquo, Hquob, Hex, Hexb. cbn [negb].
    now destruct m.
Qed.

Lemma validate_moments_ok (moments : list JValue) :
  forall (acc out : list MomentAnnotation),
    validate_moments moments acc = Ok out
    <-> exists new : list MomentAnnotation,
        out = acc ++ new /\ Forall2 moment_ok moments new.
Proof.
  induction moments as [|moment moments IH]; intros acc out.
  - cbn [validate_moments]. split.
    + intros [= <-]. exists []. rewrite app_nil_r. split; constructor.
    + intros (new & -> & Hall). inversion Hall. now rewrite app_nil_r.
  - cbn [validate_moments]. unfold mbind, result_bind. split.
    + destruct (validate_moment moment) as [m|e] eqn:Hm; [|discriminate].
      apply validate_moment_ok in Hm.
      intros Hrest. apply IH in Hrest as (new & -> & Hall).
      exists (m :: new). rewrite <- app_assoc. split; [reflexivity|].
      now constructor.
    + intros (new & -> & Hall).
      inversion Hall as [|moment' m moments' new' Hok Hall']; subst.
      apply validate_moment_ok in Hok. rewrite Hok.
      apply IH. exists new'. rewrite <- app_assoc. now split.
Qed.


(** [validate_rest], inverted. *)
Lemma validate_rest_ok (raw : JValue) (r : Z) (t : BossTier) (v : Verdict)
    (res : ScoringResults) :
  validate_rest raw r t v = Ok res
  <-> exists (dims moms : list JValue),
      member raw (lit "bossSummary") = Some (JStr (bossSummary res))
      /\ blank (bossSummary res) = false
      /\ member raw (lit "dimensions") = Some (JArr dims)
      /\ Forall2 dimension_ok dims (dimensions res)
      /\ List.NoDup (List.map name (dimensions res))
      /\ length (dimensions res) = 5%nat
      /\ member raw (lit "moments") = Some (JArr moms)
      /\ Forall2 moment_ok moms (moments res)
      /\ eloRating res = Fin (inject_Z r) /\ tier res = t /\ verdict res = v
      /\ isPartial res = match member raw (lit "isPartial") with
                         | Some (JBool b) => b
                         | _ => false
                         end
      /\ note res = match member raw (lit "note") with
                    | Some (JStr s) => if negb (blank s) then Some s else None
                    | _ => None
                    end.
Proof.
  assert (Hsize : size VALID_DIMENSIONS = 5%nat) by (vm_compute; reflexivity).
  unfold validate_rest, mbind, result_bind. rewrite Hsize. split.
  - destruct (member raw (lit "bossSummary")) as [[| | |summary| |]|];
      thrown.
    destruct (blank summary) eqn:Hsummary; [thrown|].
    destruct (member raw (lit "dimensions")) as [[| | | |dims|]|];
      thrown.
    destruct (validate_dimensions dims ∅ []) as [[names vdims]|e] eqn:Hdims;
      [|thrown].
    apply validate_dimensions_ok in Hdims as (new & Hout & Hall & Hnodup & _ & ->).
    cbn [app] in Hout. subst vdims.
    destruct (size (list_to_set (List.map name new) ∪ ∅ : gset (list N)) =? 5)%nat
      eqn:Hcount; cbn [negb]; [|thrown].
    destruct (member raw (lit "moments")) as [[| | | |moms|]|];
      thrown.
    destruct (validate_moments moms []) as [vmoms|e] eqn:Hmoms; [|thrown].
    apply validate_moments_ok in Hmoms as (newm & -> & Hallm). cbn [app].
    intros [= <-]. cbn [bossSummary dimensions moments eloRating tier verdict isPartial note].
    exists dims, moms. repeat split; try assumption; try reflexivity.
    apply Nat.eqb_eq in Hcount.
    rewrite union_empty_r_L, size_list_to_set, length_map in Hcount;
      [exact Hcount|].
    now apply NoDup_ListNoDup.
  - intros (dims & moms & Hsummary & Hblank & Hdims & Hall & Hnodup & Hlen
            & Hmoms & Hallm & Helo & Htier & Hverdict & Hpartial & Hnote).
    rewrite Hsummary, Hblank, Hdims.
    assert (Hloop : validate_dimensions dims ∅ []
                    = Ok (list_to_set (List.map name (dimensions res)) ∪ ∅,
                          [] ++ dimensions res)).
    { apply validate_dimensions_ok. exists (dimensions res).
      split; [reflexivity|]. split; [exact Hall|]. split; [exact Hnodup|].
      split; [|reflexivity]. intros d _. apply not_elem_of_empty. }
    rewrite Hloop.
    rewrite union_empty_r_L, size_list_to_set, length_map, Hlen
      by now apply NoDup_ListNoDup.
    cbn [Nat.eqb negb]. rewrite Hmoms.
    assert (Hloopm : validate_moments moms [] = Ok ([] ++ moments res)).
    { apply validate_moments_ok. eauto. }
    rewrite Hloopm. cbn [app]. rewrite <- Hpartial, <- Hnote.
    destruct res; cbn in *; now subst.
Qed.

(** ** The dimensions of an accepted payload *)

Lemma dimension_keys_distinct : List.NoDup DIMENSION_KEYS.
Proof.
  apply NoDup_ListNoDup. apply (bool_decide_unpack _). vm_compute. exact I.
Qed.

Lemma valid_dimension_key (key : list N) :
  key ∈ VALID_DIMENSIONS <-> In key DIMENSION_KEYS.
Proof.
  unfold VALID_DIMENSIONS. rewrite elem_of_list_to_set. apply list_elem_of_In.
Qed.

(** What acceptance says about the [dimensions] of the payload. *)
Lemma accepted_dimensions (raw : JValue) (res : ScoringResults) :
  snd (validateScoringResponse raw) = Ok res ->
  exists dims : list JValue,
    member raw (lit "dimensions") = Some (JArr dims)
    /\ Forall2 dimension_ok dims (dimensions res)
    /\ List.NoDup (List.map name (dimensions res))
    /\ length (dimensions res) = 5%nat.
Proof.
  intros Hres.
  destruct (validateScoringResponse raw) as [log out] eqn:Hrun.
  cbn [snd] in Hres. subst out.
  apply validate_accepted in Hrun as (_ & q & _ & _ & Hrest).
  apply validate_rest_ok in Hrest
    as (dims & moms & _ & _ & Hdims & Hall & Hnodup & Hlen & _).
  eauto.
Qed.

Lemma accepted_names (dims : list JValue) (vdims : list Dimension) :
  Forall2 dimension_ok dims vdims ->
  List.NoDup (List.map name vdims) ->
  length vdims = 5%nat ->
  List.map name vdims ≡ₚ DIMENSION_KEYS.
Proof.
  intros Hall Hnodup Hlen.
  apply NoDup_Permutation_bis; [exact Hnodup| |].
  - rewrite length_map, Hlen. reflexivity.
  - intros key Hkey. apply in_map_iff in Hkey as (d & <- & Hd).
    apply valid_dimension_key.
    clear Hnodup Hlen. induction Hall as [|dim d' dims vdims Hok _ IH];
      [destruct Hd|].
    destruct Hd as [->|Hd]; [apply Hok | now apply IH].
Qed.

Lemma Forall2_In_l {A B} (P : A -> B -> Prop) (l : list A) (k : list B) (x : A) :
  Forall2 P l k -> In x l -> exists y, In y k /\ P x y.
Proof.
  induction 1 as [|a b l k Hab _ IH]; intros Hx; [destruct Hx|].
  destruct Hx as [->|Hx].
  - exists b. split; [now left | exact Hab].
  - destruct (IH Hx) as (y & Hy & Hxy). exists y. split; [now right | exact Hxy].
Qed.

Lemma Forall2_In_r {A B} (P : A -> B -> Prop) (l : list A) (k : list B) (y : B) :
  Forall2 P l k -> In y k -> exists x, In x l /\ P x y.
Proof.
  induction 1 as [|a b l k Hab _ IH]; intros Hy; [destruct Hy|].
  destruct Hy as [->|Hy].
  - exists a. split; [now left | exact Hab].
  - destruct (IH Hy) as (x & Hx & Hxy). exists x. split; [now right | exact Hxy].
Qed.

(** C6. A payload whose [dimensions] is not a sequence, is empty, has
    an entry named outside the five keys, repeats a key, misses one of
    the five keys, or has an entry without a finite score or without
    non-blank feedback is rejected with an error; hence the result of an
    accepted payload has exactly five dimensions, one per key, each with
    a finite score and non-blank feedback. *)
Theorem dimensions_validated (raw : JValue) :
  (DimensionsDefect raw ->
   exists e : ValidationError, snd (validateScoringResponse raw) = Throw e)
  /\ (forall (log : list Warning) (res : ScoringResults),
        validateScoringResponse raw = (log, Ok res) ->
        length (dimensions res) = 5%nat
        /\ List.map name (dimensions res) ≡ₚ DIMENSION_KEYS
        /\ Forall (fun d => isFinite (score d) = true
                            /\ blank (feedback d) = false)
                  (dimensions res)).
Proof.
  split.
  - intros Hdefect.
    destruct (snd (validateScoringResponse raw)) as [res|e] eqn:Hres;
      [exfalso | now exists e].
    apply accepted_dimensions in Hres as (dims & Hdims & Hall & Hnodup & Hlen).
    pose proof (accepted_names dims (dimensions res) Hall Hnodup Hlen) as Hperm.
    destruct Hdefect
      as [Hnone | Hempty | dims' dim Hd Hin Hforeign
          | dims' i j di dj key Hd Hij Hi Hj Hni Hnj
          | dims' key Hd Hkey Hmissing
          | dims' dim Hd Hin Hscore
          | dims' dim Hd Hin Hfeedback];
      try (rewrite Hdims in Hd; injection Hd as <-).
    + now apply (Hnone dims).
    + rewrite Hdims in Hempty. injection Hempty as ->.
      apply Forall2_nil_inv_l in Hall. rewrite Hall in Hlen. discriminate Hlen.
    + destruct (Forall2_In_l _ _ _ _ Hall Hin)
        as (d & Hd & _ & Hname & Hvalid & _).
      apply valid_dimension_key in Hvalid. now apply (Hforeign (name d)).
    + destruct (Forall2_lookup_l _ _ _ _ _ Hall Hi)
        as (d1 & Hd1 & _ & Hname1 & _).
      destruct (Forall2_lookup_l _ _ _ _ _ Hall Hj)
        as (d2 & Hd2 & _ & Hname2 & _).
      rewrite Hni in Hname1. rewrite Hnj in Hname2.
      injection Hname1 as Hkey1. injection Hname2 as Hkey2.
      apply Hij.
      apply (NoDup_lookup (name <$> dimensions res) i j key).
      * now apply NoDup_ListNoDup.
      * rewrite list_lookup_fmap, Hd1. cbn. now rewrite Hkey1.
      * rewrite list_lookup_fmap, Hd2. cbn. now rewrite Hkey2.
    + assert (Hpresent : In key (List.map name (dimensions res))).
      { eapply Permutation_in; [symmetry; exact Hperm | exact Hkey]. }
      apply in_map_iff in Hpresent as (d & <- & Hd).
      destruct (Forall2_In_r _ _ _ _ Hall Hd) as (dim & Hdim & _ & Hname & _).
      now apply (Hmissing dim).
    + destruct (Forall2_In_l _ _ _ _ Hall Hin)
        as (d & _ & _ & _ & _ & (q & Hq & _) & _).
      now apply (Hscore q).
    + destruct (Forall2_In_l _ _ _ _ Hall Hin)
        as (d & _ & _ & _ & _ & _ & Htext & Hblank).
      apply Hfeedback in Htext. congruence.
  - intros log res Hrun.
    assert (Hres : snd (validateScoringResponse raw) = Ok res)
      by now rewrite Hrun.
    apply accepted_dimensions in Hres as (dims & Hdims & Hall & Hnodup & Hlen).
    split; [exact Hlen|]. split; [now apply (accepted_names dims)|].
    apply List.Forall_forall. intros d Hd.
    destruct (Forall2_In_r _ _ _ _ Hall Hd)
      as (dim & _ & _ & _ & _ & (q & _ & Hq) & _ & Hblank).
    rewrite Hq. now split.
Qed.

Lemma dimensions_validated_witness :
  (exists e : ValidationError,
      snd (validateScoringResponse
             (Examples.scoring_of 1250 "Adequate" "NOT HIRED"
                (JArr Examples.repeated_key)))
      = Throw e)
  /\ length (dimensions (Examples.validated 1250 Adequate NOT_HIRED)) = 5%nat.
Proof.
  split.
  - apply (proj1 (dimensions_validated _)).
    apply (DuplicateKey _ Examples.repeated_key 0 1
             (Examples.entry "communication" 7)
             (Examples.entry "communication" 6)
             (lit "communication"));
      solve [reflexivity | lia].
  - apply (proj2 (dimensions_validated
                    (Examples.scoring 1250 "Adequate" "NOT HIRED")) []).
    vm_compute. reflexivity.
Defined.

(** The rejections listed by the tests of the route. *)
Example dimension_rejections :
  snd (validateScoringResponse
         (Examples.scoring_of 1250 "Adequate" "NOT HIRED"
            (JArr Examples.repeated_key)))
  = Throw (DuplicateDimension (lit "communication"))
  /\ snd (validateScoringResponse
            (Examples.scoring_of 1250 "Adequate" "NOT HIRED" (JArr [])))
     = Throw (MissingDimensions DIMENSION_KEYS)
  /\ snd (validateScoringResponse
            (Examples.scoring_of 1250 "Adequate" "NOT HIRED"
               (JArr [ Examples.entry "communication" 7;
                       Examples.entry "technical" 6;
                       Examples.entry "behavioural" 5 ])))
     = Throw (MissingDimensions [ lit "confidence"; lit "questionsAsked" ])
  /\ snd (validateScoringResponse
            (Examples.scoring_of 1250 "Adequate" "NOT HIRED"
               (JArr [ Examples.entry "charisma" 7 ])))
     = Throw (InvalidDimensionName (Some (JStr (lit "charisma"))))
  /\ snd (validateScoringResponse
            (Examples.scoring_of 1250 "Adequate" "NOT HIRED" JNull))
     = Throw DimensionsNotArray.
Proof. repeat split; vm_compute; reflexivity. Qed.

(** ** Re-validating a result *)

Import Canonical.

Lemma results_json_members (res : ScoringResults) :
  member (results_json res) (lit "eloRating") = Some (JNum (eloRating res))
  /\ member (results_json res) (lit "tier")
     = Some (JStr (tier_name (tier res)))
  /\ member (results_json res) (lit "verdict")
     = Some (JStr (verdict_name (verdict res)))
  /\ member (results_json res) (lit "bossSummary")
     = Some (JStr (bossSummary res))
  /\ member (results_json res) (lit "dimensions")
     = Some (JArr (List.map dimension_json (dimensions res)))
  /\ member (results_json res) (lit "moments")
     = Some (JArr (List.map moment_json (moments res)))
  /\ member (results_json res) (lit "isPartial") = Some (JBool (isPartial res))
  /\ member (results_json res) (lit "note") = option_map JStr (note res).
Proof.
  destruct res as [e t v s ds ms p [n|]]; repeat split.
Qed.

Lemma dimension_json_ok (dim : JValue) (d : Dimension) :
  dimension_ok dim d -> dimension_ok (dimension_json d) d.
Proof.
  intros (_ & _ & Hvalid & (q & _ & Hq) & _ & Hblank).
  unfold dimension_ok. split; [reflexivity|]. split; [reflexivity|].
  split; [exact Hvalid|]. split; [|split; [reflexivity | exact Hblank]].
  exists q. split; [|exact Hq]. cbn. now rewrite Hq.
Qed.

Lemma moment_json_ok (moment : JValue) (m : MomentAnnotation) :
  moment_ok moment m -> moment_ok (moment_json m) m.
Proof.
  intros (_ & _ & Hvalid & _ & Hq & _ & Hquo & _ & Hex).
  unfold moment_ok. repeat split; assumption.
Qed.

Lemma Forall2_map_json {A} (json : A -> JValue) (ok : JValue -> A -> Prop)
    (raws : list JValue) (items : list A) :
  (forall raw item, ok raw item -> ok (json item) item) ->
  Forall2 ok raws items ->
  Forall2 ok (List.map json items) items.
Proof.
  intros Hjson. induction 1 as [|raw item raws items Hok _ IH]; cbn.
  - constructor.
  - constructor; [now apply (Hjson raw) | exact IH].
Qed.

(** C5. The payload of a result the validator returned is accepted by
    the validator, without any correction, and gives the same result. *)
Theorem validator_idempotent
    (raw : JValue) (log : list Warning) (res : ScoringResults) :
  validateScoringResponse raw = (log, Ok res) ->
  validateScoringResponse (results_json res) = ([], Ok res).
Proof.
  intros Hrun.
  apply validate_accepted in Hrun as (_ & q & _ & Hrange & Hrest).
  set (r := Math_round q) in *.
  apply validate_rest_ok in Hrest
    as (dims & moms & _ & Hblank & _ & Hall & Hnodup & Hlen & _ & Hallm
        & Helo & Htier & Hverdict & _ & Hnote).
  destruct (results_json_members res)
    as (Mrating & Mtier & Mverdict & Msummary & Mdims & Mmoms & Mpartial & Mnote).
  unfold validateScoringResponse.
  assert (Hrating : (eloRating ← prop (results_json res) (lit "eloRating");
                     validate_rating eloRating) = Ok r).
  { unfold prop, results_json at 1. rewrite Mrating, Helo.
    cbn [mbind result_bind validate_rating].
    change 100%Q with (inject_Z 100). change 3000%Q with (inject_Z 3000).
    rewrite !Qlt_bool_inject_Z, Math_round_integer.
    destruct (Z.ltb_spec r 100); [lia|].
    destruct (Z.ltb_spec 3000 r); [lia|]. reflexivity. }
  rewrite Hrating, Mtier, Mverdict.
  fold (verdict_of r). rewrite Htier, Hverdict.
  unfold str_eqb. rewrite !bool_decide_eq_true_2 by reflexivity.
  cbn [negb app]. f_equal.
  apply validate_rest_ok.
  exists (List.map dimension_json (dimensions res)),
         (List.map moment_json (moments res)).
  split; [exact Msummary|]. split; [exact Hblank|]. split; [exact Mdims|].
  split; [exact (Forall2_map_json _ _ _ _ dimension_json_ok Hall)|].
  split; [exact Hnodup|]. split; [exact Hlen|]. split; [exact Mmoms|].
  split; [exact (Forall2_map_json _ _ _ _ moment_json_ok Hallm)|].
  split; [exact Helo|]. split; [exact Htier|]. split; [exact Hverdict|].
  rewrite Mpartial, Mnote. split; [reflexivity|].
  rewrite Hnote.
  destruct (member raw (lit "note")) as [[| | |s| |]|]; try reflexivity.
  destruct (blank s) eqn:Hs; cbn; [reflexivity | now rewrite Hs].
Qed.

Lemma validator_idempotent_witness :
  validateScoringResponse
    (results_json (Examples.validated 2300 HiredMaterial HIRED))
  = ([], Ok (Examples.validated 2300 HiredMaterial HIRED)).
Proof.
  apply (validator_idempotent
           (Examples.scoring 2300 "Impressive" "NOT HIRED")
           [ TierHealed (lit "Impressive") 2300 HiredMaterial;
             VerdictHealed (lit "NOT HIRED") 2300 HIRED ]).
  vm_compute. reflexivity.
Defined.

(** ** Parsing the reply of the collaborator *)

Lemma upto_last_close_some (s p : list N) :
  upto_last_close s = Some p ->
  exists mid post : list N,
    s = mid ++ close_brace :: post
    /\ p = mid ++ [close_brace]
    /\ ~ In close_brace post.
Proof.
  revert p. induction s as [|c s IH]; intros p; cbn [upto_last_close];
    [discriminate|].
  destruct (upto_last_close s) as [p'|] eqn:Hrest.
  - intros [= <-]. destruct (IH p' eq_refl) as (mid & post & -> & -> & Hpost).
    exists (c :: mid), post. now repeat split.
  - destruct (N.eqb_spec c close_brace) as [->|_]; [|discriminate].
    intros [= <-]. exists [], s. repeat split.
    clear IH. induction s as [|c s IH]; [now intros []|].
    cbn [upto_last_close] in Hrest.
    destruct (upto_last_close s); [discriminate|].
    destruct (N.eqb_spec c close_brace) as [->|Hc]; [discriminate|].
    intros [Heq|Hin]; [now apply Hc | now apply IH].
Qed.

Lemma upto_last_close_none (s : list N) :
  upto_last_close s = None -> ~ In close_brace s.
Proof.
  induction s as [|c s IH]; cbn [upto_last_close]; [now intros _ []|].
  destruct (upto_last_close s); [discriminate|].
  destruct (N.eqb_spec c close_brace) as [->|Hc]; [discriminate|].
  intros _ [Heq|Hin]; [now apply Hc | now apply IH].
Qed.

(** The match of the regular expression runs from the first opening
    brace of the text to its last closing brace. *)
Lemma match_braces_some (s block : list N) :
  match_braces s = Some block ->
  exists pre mid post : list N,
    s = pre ++ block ++ post
    /\ block = open_brace :: mid ++ [close_brace]
    /\ ~ In open_brace pre
    /\ ~ In close_brace post.
Proof.
  induction s as [|c s IH]; cbn [match_braces]; [discriminate|].
  destruct (N.eqb_spec c open_brace) as [->|Hc].
  - destruct (upto_last_close s) as [p|] eqn:Hclose.
    + intros [= <-].
      apply upto_last_close_some in Hclose as (mid & post & -> & -> & Hpost).
      exists [], mid, post. cbn [app]. rewrite <- app_assoc.
      repeat split; [now intros [] | exact Hpost].
    + intros Hlater. apply upto_last_close_none in Hclose.
      destruct (IH Hlater) as (pre & mid & post & -> & -> & _ & _).
      exfalso. apply Hclose. rewrite !in_app_iff. cbn [In].
      rewrite in_app_iff. cbn [In]. tauto.
  - intros Hlater.
    destruct (IH Hlater) as (pre & mid & post & -> & -> & Hpre & Hpost).
    exists (c :: pre), mid, post. repeat split; [|exact Hpost].
    intros [Heq|Hin]; [now apply Hc | now apply Hpre].
Qed.

Lemma match_braces_none (s : list N) :
  match_braces s = None ->
  forall pre mid post : list N,
    s <> pre ++ open_brace :: mid ++ close_brace :: post.
Proof.
  induction s as [|c s IH]; cbn [match_braces]; intros Hnone pre mid post Heq.
  - now destruct pre.
  - destruct pre as [|c' pre]; cbn [app] in Heq; injection Heq as -> ->.
    + rewrite N.eqb_refl in Hnone.
      destruct (upto_last_close (mid ++ close_brace :: post)) eqn:Hclose;
        [discriminate|].
      apply upto_last_close_none in Hclose. apply Hclose.
      apply in_or_app. right. now left.
    + apply (IH (ltac:(destruct (c' =? open_brace)%N;
                       [destruct (upto_last_close _); [discriminate|]|];
                       exact Hnone)) pre mid post eq_refl).
Qed.

(** Step 7 as it runs.  The raw parse of the trimmed text comes first
    and its value is used when it succeeds.  When it fails, the regular
    expression yields the part of the text from its first opening brace
    to its last closing brace, and there is no value when the text has
    no such part or that part does not parse.  The reply ends in the
    "failed to score" response when there is no value, and otherwise
    goes through the validator. *)
Lemma parse_raw_then_outer_braces
    (JSON_parse : list N -> option JValue) (text : list N) :
  (forall v : JValue,
      JSON_parse (trim text) = Some v ->
      parse_response JSON_parse text = Some v)
  /\ (JSON_parse (trim text) = None ->
      (forall block : list N,
          match_braces text = Some block ->
          parse_response JSON_parse text = JSON_parse block
          /\ exists pre mid post : list N,
              text = pre ++ block ++ post
              /\ block = open_brace :: mid ++ [close_brace]
              /\ ~ In open_brace pre
              /\ ~ In close_brace post)
      /\ (match_braces text = None ->
          parse_response JSON_parse text = None
          /\ forall pre mid post : list N,
              text <> pre ++ open_brace :: mid ++ close_brace :: post))
  /\ (forall blocks : list ContentBlock,
        block_text blocks = text ->
        blank text = false ->
        (parse_response JSON_parse text = None ->
         score_reply JSON_parse blocks = failed_to_score)
        /\ (forall v : JValue,
              parse_response JSON_parse text = Some v ->
              score_reply JSON_parse blocks
              = match snd (validateScoringResponse v) with
                | Throw _ => failed_to_score
                | Ok results => mkResponse 200 (ResultsBody results)
                end)).
Proof.
  split; [|split].
  - intros v Hraw. unfold parse_response. now rewrite Hraw.
  - intros Hraw. unfold parse_response. rewrite Hraw. split.
    + intros block Hmatch. rewrite Hmatch. split; [reflexivity|].
      now apply match_braces_some.
    + intros Hmatch. rewrite Hmatch. split; [reflexivity|].
      now apply match_braces_none.
  - intros blocks Htext Hblank. unfold score_reply. cbv zeta.
    rewrite Htext, Hblank. split.
    + now intros ->.
    + now intros v ->.
Qed.

Lemma parse_raw_then_outer_braces_witness :
  parse_response Json.parse Examples.fenced_reply
  = Json.parse Examples.payload_text
  /\ status (score_reply Json.parse [TextBlock Examples.fenced_reply]) = 200.
Proof.
  destruct (parse_raw_then_outer_braces Json.parse Examples.fenced_reply)
    as (_ & Hfallback & Hreply).
  destruct Hfallback as [Hblock _]; [vm_compute; reflexivity|].
  destruct (Hblock Examples.payload_text) as [Hparse _];
    [vm_compute; reflexivity|].
  split; [exact Hparse|].
  destruct (Hreply [TextBlock Examples.fenced_reply]) as [_ Hvalue];
    [reflexivity | vm_compute; reflexivity|].
  destruct (Json.parse Examples.payload_text) as [v|] eqn:Hv;
    [|vm_compute in Hv; discriminate Hv].
  rewrite (Hvalue v) by (rewrite Hparse; reflexivity).
  vm_compute in Hv. injection Hv as <-. vm_compute. reflexivity.
Defined.

(** C7. The fallback of step 7 misses what the claim and the comments
    of the source ask of it ("then extract the first {...} block",
    "extract JSON from markdown fences or surrounding text").  On a reply
    whose payload is followed by a remark with braces of its own, the
    raw parse fails and the first balanced object of the text is the
    payload, which parses and validates; the code instead takes the text
    from the first opening brace up to the last closing brace, which
    does not parse, and the route answers 500 "Failed to score the
    interview". *)
Theorem fallback_misses_first_object :
  Json.parse (trim Examples.chatty_reply) = None
  /\ SpecWording.first_balanced_object Examples.chatty_reply
     = Some Examples.payload_text
  /\ option_map (fun v => snd (validateScoringResponse v))
       (SpecWording.parse_response Json.parse Examples.chatty_reply)
     = Some (Ok (Examples.validated 1450 Noteworthy NOT_HIRED))
  /\ match_braces Examples.chatty_reply
     = Some (Examples.payload_text ++ lit " Consider the matter {closed}")
  /\ parse_response Json.parse Examples.chatty_reply = None
  /\ score_reply Json.parse [TextBlock Examples.chatty_reply] = failed_to_score
  /\ snd (POST Json.parse Replies.chatty (Some (lit "sk-test")) 0
            Examples.fresh
            (mkRequest (Some Examples.ip) (Some (Examples.sized_request 40 0))))
     = mkResponse 500 (ErrorBody (lit "Failed to score the interview"))
  /\ ~ fallback_as_worded Json.parse.
Proof.
  split; [vm_compute; reflexivity|].
  split; [vm_compute; reflexivity|].
  split; [vm_compute; reflexivity|].
  split; [vm_compute; reflexivity|].
  split; [vm_compute; reflexivity|].
  split; [vm_compute; reflexivity|].
  split; [vm_compute; reflexivity|].
  intros Hworded. specialize (Hworded Examples.chatty_reply).
  vm_compute in Hworded. discriminate Hworded.
Qed.

(** ** Size bounds of the scoring request *)

Lemma handle_admitted_oversized
    (JSON_parse : list N -> option JValue)
    (messages_create : list N -> option (list ContentBlock))
    (ANTHROPIC_API_KEY : option (list N)) (req : Request) (payload : JValue) :
  body req = Some payload ->
  (exists t : list N,
      member payload (lit "transcript") = Some (JStr t)
      /\ MAX_TRANSCRIPT_LENGTH < Z.of_nat (length t))
  \/ (exists cv : list N,
         member payload (lit "cvText") = Some (JStr cv)
         /\ MAX_CV_TEXT_LENGTH < Z.of_nat (length cv)) ->
  fst (handle_admitted JSON_parse messages_create ANTHROPIC_API_KEY req) = []
  /\ status (snd (handle_admitted JSON_parse messages_create
                    ANTHROPIC_API_KEY req)) = 400.
Proof.
  intros Hbody Hover. unfold handle_admitted. rewrite Hbody.
  destruct payload as [| | | | |fields];
    try (destruct Hover as [(t & Ht & _)|(cv & Hcv & _)]; discriminate).
  destruct (member (JObj fields) (lit "transcript")) as [[| | |t| |]|] eqn:Ht;
    try (split; reflexivity).
  destruct (blank t); [split; reflexivity|].
  destruct (Z.gtb_spec (Z.of_nat (length t)) MAX_TRANSCRIPT_LENGTH) as [_|Hfits];
    [split; reflexivity|].
  destruct Hover as [(t' & Ht' & Hlong)|(cv & Hcv & Hlong)].
  - injection Ht' as <-. lia.
  - rewrite Hcv.
    destruct (Z.gtb_spec (Z.of_nat (length cv)) MAX_CV_TEXT_LENGTH) as [_|Hcvfits];
      [split; reflexivity | lia].
Qed.

Lemma handle_admitted_within
    (JSON_parse : list N -> option JValue)
    (messages_create : list N -> option (list ContentBlock))
    (key : list N) (req : Request) (payload : JValue) (t : list N) :
  body req = Some payload ->
  member payload (lit "transcript") = Some (JStr t) ->
  blank t = false ->
  Z.of_nat (length t) <= MAX_TRANSCRIPT_LENGTH ->
  match member payload (lit "cvText") with
  | Some (JStr cv) => Z.of_nat (length cv) <= MAX_CV_TEXT_LENGTH
  | Some JNull | None => True
  | Some _ => False
  end ->
  key <> [] ->
  handle_admitted JSON_parse messages_create (Some key) req
  = ([user_message (member payload (lit "cvText")) t],
     match messages_create (user_message (member payload (lit "cvText")) t) with
     | None => unexpected_error
     | Some blocks => score_reply JSON_parse blocks
     end).
Proof.
  intros Hbody Ht Hblank Hfits Hcv Hkey. unfold handle_admitted.
  rewrite Hbody.
  destruct payload as [| | | | |fields]; try discriminate Ht.
  rewrite Ht, Hblank.
  destruct (Z.gtb_spec (Z.of_nat (length t)) MAX_TRANSCRIPT_LENGTH); [lia|].
  assert (Hcheck :
    match member (JObj fields) (lit "cvText") with
    | None | Some JNull => None
    | Some (JStr cv) =>
        if Z.of_nat (length cv) >? MAX_CV_TEXT_LENGTH
        then Some (error_response "CV text exceeds maximum length" 400)
        else None
    | Some _ => Some (error_response "CV text must be a string" 400)
    end = None).
  { destruct (member (JObj fields) (lit "cvText")) as [[| | |cv| |]|];
      try reflexivity; try contradiction.
    destruct (Z.gtb_spec (Z.of_nat (length cv)) MAX_CV_TEXT_LENGTH);
      [lia | reflexivity]. }
  rewrite Hcheck.
  destruct key as [|c key]; [contradiction|].
  now destruct (messages_create _).
Qed.

(** C8. A request whose transcript has more than 200,000 code units,
    or whose CV text is a string of more than 100,000, is answered by
    the orchestrator (the handler past its rate limiter) with status
    400 and without any call to the collaborator; the whole handler
    makes no call either, and answers 400 unless its rate limiter, which
    runs first, denies the request with 429.  A request with a non-blank
    transcript and a CV text within the limits, the limits included, is
    sent to the collaborator. *)
Theorem size_bounds_checked_before_call
    (JSON_parse : list N -> option JValue)
    (messages_create : list N -> option (list ContentBlock))
    (ANTHROPIC_API_KEY : option (list N))
    (now : Z) (st : LimiterState) (req : Request) (payload : JValue) :
  body req = Some payload ->
  let admitted :=
    success (snd (rateLimit now (default (lit "unknown") (forwardedFor req))
                    30 60000 (lit "score-interview") st)) in
  let orchestrated :=
    handle_admitted JSON_parse messages_create ANTHROPIC_API_KEY req in
  let run := POST JSON_parse messages_create ANTHROPIC_API_KEY now st req in
  ((exists t : list N,
       member payload (lit "transcript") = Some (JStr t)
       /\ MAX_TRANSCRIPT_LENGTH < Z.of_nat (length t))
   \/ (exists cv : list N,
          member payload (lit "cvText") = Some (JStr cv)
          /\ MAX_CV_TEXT_LENGTH < Z.of_nat (length cv)) ->
   fst orchestrated = []
   /\ status (snd orchestrated) = 400
   /\ snd (fst run) = []
   /\ status (snd run) = (if admitted then 400 else 429))
  /\ (forall t key : list N,
        member payload (lit "transcript") = Some (JStr t) ->
        blank t = false ->
        Z.of_nat (length t) <= MAX_TRANSCRIPT_LENGTH ->
        match member payload (lit "cvText") with
        | Some (JStr cv) => Z.of_nat (length cv) <= MAX_CV_TEXT_LENGTH
        | Some JNull | None => True
        | Some _ => False
        end ->
        ANTHROPIC_API_KEY = Some key ->
        key <> [] ->
        fst orchestrated = [user_message (member payload (lit "cvText")) t]
        /\ (admitted = true ->
            snd (fst run) = [user_message (member payload (lit "cvText")) t]
            /\ snd run
               = match messages_create
                         (user_message (member payload (lit "cvText")) t) with
                 | None => unexpected_error
                 | Some blocks => score_reply JSON_parse blocks
                 end)).
Proof.
  intros Hbody. cbv zeta. unfold POST.
  destruct (rateLimit now (default (lit "unknown") (forwardedFor req))
              30 60000 (lit "score-interview") st) as [st' limit].
  cbn [snd]. split.
  - intros Hover.
    destruct (handle_admitted_oversized JSON_parse messages_create
                ANTHROPIC_API_KEY req payload Hbody Hover) as [Hcalls Hstatus].
    split; [exact Hcalls|]. split; [exact Hstatus|].
    destruct (success limit); cbn [negb]; [|split; reflexivity].
    destruct (handle_admitted JSON_parse messages_create ANTHROPIC_API_KEY req)
      as [calls response].
    cbn [fst snd] in *. now split.
  - intros t key Ht Hblank Hfits Hcv -> Hkey.
    rewrite (handle_admitted_within JSON_parse messages_create key req payload t)
      by assumption.
    split; [reflexivity|]. intros ->. cbn [negb]. split; reflexivity.
Qed.

Lemma size_bounds_checked_before_call_witness :
  (snd (fst (POST Json.parse Examples.collaborator (Some (lit "sk-test")) 0
               Examples.fresh
               (mkRequest (Some Examples.ip)
                  (Some (Examples.sized_request 200001 100000))))) = []
   /\ status (snd (POST Json.parse Examples.collaborator (Some (lit "sk-test")) 0
                     Examples.fresh
                     (mkRequest (Some Examples.ip)
                        (Some (Examples.sized_request 200001 100000))))) = 400)
  /\ length (snd (fst (POST Json.parse Examples.collaborator
                         (Some (lit "sk-test")) 0 Examples.fresh
                         (mkRequest (Some Examples.ip)
                            (Some (Examples.sized_request 200000 100000))))))
     = 1%nat.
Proof.
  split.
  - destruct (size_bounds_checked_before_call Json.parse Examples.collaborator
                (Some (lit "sk-test")) 0 Examples.fresh
                (mkRequest (Some Examples.ip)
                   (Some (Examples.sized_request 200001 100000)))
                (Examples.sized_request 200001 100000) eq_refl) as [Hover _].
    destruct Hover as (_ & _ & Hcalls & Hstatus).
    + left. exists (repeat 120%N (Z.to_nat 200001)).
      split; [reflexivity|]. vm_compute. reflexivity.
    + split; [exact Hcalls | exact Hstatus].
  - destruct (size_bounds_checked_before_call Json.parse Examples.collaborator
                (Some (lit "sk-test")) 0 Examples.fresh
                (mkRequest (Some Examples.ip)
                   (Some (Examples.sized_request 200000 100000)))
                (Examples.sized_request 200000 100000) eq_refl) as [_ Hsent].
    destruct (Hsent (repeat 120%N (Z.to_nat 200000)) (lit "sk-test"))
      as [_ Hrun].
    + reflexivity.
    + vm_compute. reflexivity.
    + vm_compute. discriminate.
    + vm_compute. discriminate.
    + reflexivity.
    + discriminate.
    + destruct Hrun as [Hcalls _]; [vm_compute; reflexivity|].
      rewrite Hcalls. reflexivity.
Defined.

(** The tests of the route at the limits: one code unit more is
    answered with 400, the limit itself is scored. *)
Example size_limits :
  status (snd (POST Json.parse Examples.collaborator (Some (lit "sk-test")) 0
                 Examples.fresh
                 (mkRequest (Some Examples.ip)
                    (Some (Examples.sized_request 200000 100000))))) = 200
  /\ status (snd (POST Json.parse Examples.collaborator (Some (lit "sk-test")) 0
                    Examples.fresh
                    (mkRequest (Some Examples.ip)
                       (Some (Examples.sized_request 200000 100001))))) = 400.
Proof. split; vm_compute; reflexivity. Qed.

(** ** The rate limiter over time *)

Lemma prune_app (now w : Z) (l k : list Z) :
  prune now w (l ++ k) = prune now w l ++ prune now w k.
Proof. apply List.filter_app. Qed.

Lemma prune_unexpired (now w : Z) (l : list Z) :
  Forall (fun t => now - t < w) (prune now w l).
Proof.
  apply List.Forall_forall. intros t Ht.
  apply List.filter_In in Ht as [_ Ht]. now apply Z.ltb_lt in Ht.
Qed.

(** The outcome of a call is read off the pruned list of its key. *)
Lemma rateLimit_result now identifier maxRequests windowMs namespace st :
  snd (ScoreInterviewRoute.rateLimit now identifier maxRequests windowMs
         namespace st)
  = let valid := prune now windowMs (stored namespace identifier st) in
    if Z.of_nat (length valid) >=? maxRequests
    then mkRateLimitResult false 0
    else mkRateLimitResult true (maxRequests - Z.of_nat (length (valid ++ [now]))).
Proof.
  unfold ScoreInterviewRoute.rateLimit, stored. cbv zeta.
  now destruct (_ >=? _).
Qed.

(** What one call does to the other keys. *)
Lemma rateLimit_other_key now identifier maxRequests windowMs namespace st
    (k : list N) :
  k <> namespace ++ lit ":" ++ identifier ->
  rateLimitStore
    (fst (ScoreInterviewRoute.rateLimit now identifier maxRequests windowMs
            namespace st)) !! k
  = if (rateLimitCallCount st + 1) mod 100 =? 0
    then sweep now windowMs (rateLimitStore st) !! k
    else rateLimitStore st !! k.
Proof.
  intros Hk. unfold ScoreInterviewRoute.rateLimit. cbv zeta.
  destruct (_ >=? _); cbn [fst rateLimitStore];
    rewrite lookup_insert_ne by congruence;
    now destruct (_ =? 0).
Qed.

Lemma sweep_lookup (now windowMs : Z) (store : gmap (list N) (list Z)) (k : list N) :
  sweep now windowMs store !! k
  = match store !! k with
    | Some v => if (length (prune now windowMs v) =? 0)%nat then None
                else Some (prune now windowMs v)
    | None => None
    end.
Proof. unfold sweep. rewrite lookup_omap. now destruct (store !! k). Qed.

(** A call at [now] leaves, for every other key, a list that a later
    call prunes to what it would have pruned the old one to. *)
Lemma rateLimit_other_pruned now later identifier other maxRequests windowMs
    namespace st :
  other <> identifier ->
  now <= later ->
  prune later windowMs
    (stored namespace other
       (fst (ScoreInterviewRoute.rateLimit now identifier maxRequests windowMs
               namespace st)))
  = prune later windowMs (stored namespace other st).
Proof.
  intros Hother Hle. unfold stored.
  rewrite rateLimit_other_key.
  2:{ intros Heq. apply app_inv_head in Heq. apply app_inv_head in Heq.
      contradiction. }
  destruct (_ =? 0); [|reflexivity].
  rewrite sweep_lookup.
  destruct (rateLimitStore st !! (namespace ++ lit ":" ++ other)) as [v|];
    [|reflexivity].
  cbn [from_option id].
  destruct (Nat.eqb_spec (length (prune now windowMs v)) 0) as [Hz|Hz]; cbn [from_option id].
  - apply length_zero_iff_nil in Hz.
    rewrite <- (prune_later now later windowMs v Hle), Hz. reflexivity.
  - now apply prune_later.
Qed.

Lemma last_cons_default {A} (l : list A) :
  forall a d : A, List.last (a :: l) d = List.last l a.
Proof.
  induction l as [|b l IH]; intros a d; [reflexivity|].
  change (List.last (a :: b :: l) d) with (List.last (b :: l) d).
  now rewrite !IH.
Qed.

Lemma burst_window_invariant identifier maxRequests windowMs namespace :
  0 < windowMs ->
  forall (times : list Z) (st : LimiterState) (hist : list Z) (t0 : Z),
    nondecreasing (t0 :: times) ->
    stored namespace identifier st = prune t0 windowMs hist ->
    Z.of_nat (length (stored namespace identifier st)) <= maxRequests ->
    let run :=
      burst ScoreInterviewRoute.rateLimit identifier maxRequests windowMs
        namespace times st in
    stored namespace identifier (fst run)
    = prune (List.last times t0) windowMs
        (hist ++ admitted_times times (snd run))
    /\ forall (i : nat) (now : Z),
        times !! i = Some now ->
        Z.of_nat (length (prune now windowMs
                            (hist ++ admitted_times (take (S i) times)
                                       (take (S i) (snd run)))))
        <= maxRequests.
Proof.
  intros Hw. induction times as [|now later IH]; intros st hist t0 Hmono Hst Hlen.
  - cbn. rewrite app_nil_r. split; [exact Hst|]. intros i now Hi. discriminate Hi.
  - cbn [burst].
    pose proof (rateLimit_on_key now identifier maxRequests windowMs
                  namespace st) as Hcall. cbv zeta in Hcall.
    destruct (ScoreInterviewRoute.rateLimit now identifier maxRequests
                windowMs namespace st) as [st1 r].
    destruct Hcall as (Hs & Hst1 & _ & _).
    destruct Hmono as [Hle Hmono].
    rewrite Hst, prune_later in Hs, Hst1 by exact Hle.
    set (hist1 := if success r then hist ++ [now] else hist).
    assert (Hprune1 : stored namespace identifier st1 = prune now windowMs hist1).
    { rewrite Hst1. subst hist1. destruct (success r); [|reflexivity].
      rewrite prune_app. f_equal. cbn.
      destruct (Z.ltb_spec (now - now) windowMs); [reflexivity | lia]. }
    assert (Hlen1 : Z.of_nat (length (stored namespace identifier st1))
                    <= maxRequests).
    { rewrite Hst1. destruct (success r) eqn:Hr.
      - symmetry in Hs. apply Z.ltb_lt in Hs.
        rewrite length_app. cbn [length]. lia.
      - rewrite Hst in Hlen.
        pose proof (prune_length now windowMs (prune t0 windowMs hist)) as Hp.
        rewrite prune_later in Hp by exact Hle. lia. }
    specialize (IH st1 hist1 now Hmono Hprune1 Hlen1). cbv zeta in IH.
    destruct (burst ScoreInterviewRoute.rateLimit identifier maxRequests
                windowMs namespace later st1) as [st2 rs].
    cbn [fst snd] in IH |- *. destruct IH as [Hfinal Hall].
    assert (Hhist : forall ts os,
               hist ++ admitted_times (now :: ts) (success r :: os)
               = hist1 ++ admitted_times ts os).
    { intros ts os. subst hist1. cbn [admitted_times].
      destruct (success r); [|reflexivity].
      now rewrite <- app_assoc. }
    split.
    + now rewrite Hhist, Hfinal, last_cons_default.
    + intros [|i] t Hi.
      * cbn in Hi. injection Hi as <-.
        cbn [take]. rewrite Hhist. cbn [admitted_times take].
        rewrite app_nil_r, <- Hprune1. exact Hlen1.
      * cbn in Hi.
        change (take (S (S i)) (now :: later)) with (now :: take (S i) later).
        change (take (S (S i)) (success r :: rs))
          with (success r :: take (S i) rs).
        rewrite Hhist. now apply Hall.
Qed.

(** X1. On a key with no stored timestamp, whatever the clock readings
    of a series of calls (as long as the clock does not run backwards),
    at every call the admitted calls of the window that ends there,
    this one included, number at most [maxRequests]. *)
Theorem window_never_exceeds_limit
    (identifier namespace : list N) (maxRequests windowMs : Z)
    (times : list Z) (st : LimiterState) :
  0 < windowMs ->
  0 <= maxRequests ->
  nondecreasing times ->
  stored namespace identifier st = [] ->
  let outcomes :=
    snd (burst ScoreInterviewRoute.rateLimit identifier maxRequests windowMs
           namespace times st) in
  forall (i : nat) (now : Z),
    times !! i = Some now ->
    Z.of_nat (length (prune now windowMs
                        (admitted_times (take (S i) times)
                                        (take (S i) outcomes))))
    <= maxRequests.
Proof.
  intros Hw Hmax Hmono Hfresh outcomes i now Hi.
  destruct times as [|t0 later]; [discriminate Hi|].
  apply (burst_window_invariant identifier maxRequests windowMs namespace Hw
           (t0 :: later) st [] t0); try assumption.
  - split; [lia | exact Hmono].
  - rewrite Hfresh. cbn. lia.
Qed.

Lemma window_never_exceeds_limit_witness :
  Z.of_nat (length (prune 61200 60000
                      (admitted_times
                         (take 5 [1000; 1500; 2000; 61000; 61200])
                         (take 5 (snd (burst ScoreInterviewRoute.rateLimit
                                         Examples.ip 2 60000
                                         (lit "score-interview")
                                         [1000; 1500; 2000; 61000; 61200]
                                         Examples.fresh))))))
  <= 2.
Proof.
  apply (window_never_exceeds_limit Examples.ip (lit "score-interview") 2 60000
           [1000; 1500; 2000; 61000; 61200] Examples.fresh);
    [lia | lia | cbn; lia | reflexivity | reflexivity].
Defined.

Lemma traffic_other_pruned identifier maxRequests windowMs namespace later :
  forall (calls : list (Z * list N)) (st : LimiterState),
    Forall (fun c => fst c <= later /\ snd c <> identifier) calls ->
    prune later windowMs
      (stored namespace identifier
         (traffic ScoreInterviewRoute.rateLimit maxRequests windowMs namespace
            calls st))
    = prune later windowMs (stored namespace identifier st).
Proof.
  induction calls as [|[now other] calls IH]; intros st Hcalls; [reflexivity|].
  inversion Hcalls as [|c cs [Hle Hother] Hrest]; subst. cbn [traffic].
  rewrite IH by exact Hrest.
  cbn [fst snd] in Hle, Hother.
  apply rateLimit_other_pruned; [congruence | exact Hle].
Qed.

(** X2. The requests of other clients of a route, whatever their number
    and outcome and whether or not they trigger the periodic cleanup,
    never change the answer a client gets afterwards. *)
Theorem other_clients_do_not_interfere
    (identifier namespace : list N) (maxRequests windowMs now : Z)
    (calls : list (Z * list N)) (st : LimiterState) :
  Forall (fun c => fst c <= now /\ snd c <> identifier) calls ->
  snd (ScoreInterviewRoute.rateLimit now identifier maxRequests windowMs
         namespace
         (traffic ScoreInterviewRoute.rateLimit maxRequests windowMs namespace
            calls st))
  = snd (ScoreInterviewRoute.rateLimit now identifier maxRequests windowMs
           namespace st).
Proof.
  intros Hcalls. rewrite !rateLimit_result. cbv zeta.
  now rewrite traffic_other_pruned.
Qed.

Lemma other_clients_do_not_interfere_witness :
  snd (ScoreInterviewRoute.rateLimit 62500 Examples.ip 2 60000
         (lit "score-interview")
         (traffic ScoreInterviewRoute.rateLimit 2 60000 (lit "score-interview")
            [ (62000, lit "10.200.200.3"); (62200, lit "10.200.200.2") ]
            Scenarios.due))
  = snd (ScoreInterviewRoute.rateLimit 62500 Examples.ip 2 60000
           (lit "score-interview") Scenarios.due).
Proof.
  apply (other_clients_do_not_interfere Examples.ip (lit "score-interview")
           2 60000 62500
           [ (62000, lit "10.200.200.3"); (62200, lit "10.200.200.2") ]
           Scenarios.due).
  repeat constructor; cbn; try lia; discriminate.
Defined.

(** X3. Every hundredth call of a route sweeps the whole store: when it
    returns, no key is left with an empty list and no stored timestamp
    has expired at the time of the call; the unexpired timestamps of the
    other keys are all kept, in order. *)
Theorem hundredth_call_sweeps_store
    (identifier namespace : list N) (maxRequests windowMs now : Z)
    (st : LimiterState) :
  0 < windowMs ->
  0 < maxRequests ->
  (rateLimitCallCount st + 1) mod 100 = 0 ->
  let st' :=
    fst (ScoreInterviewRoute.rateLimit now identifier maxRequests windowMs
           namespace st) in
  (forall (k : list N) (timestamps : list Z),
      rateLimitStore st' !! k = Some timestamps ->
      timestamps <> [] /\ Forall (fun t => now - t < windowMs) timestamps)
  /\ (forall (k : list N) (timestamps : list Z),
         k <> namespace ++ lit ":" ++ identifier ->
         rateLimitStore st !! k = Some timestamps ->
         prune now windowMs timestamps <> [] ->
         rateLimitStore st' !! k = Some (prune now windowMs timestamps)).
Proof.
  intros Hw Hmax Hdue st'. subst st'. split.
  - intros k timestamps Hk.
    destruct (decide (k = namespace ++ lit ":" ++ identifier)) as [->|Hne].
    + pose proof (rateLimit_on_key now identifier maxRequests windowMs
                    namespace st) as Hcall. cbv zeta in Hcall.
      destruct (ScoreInterviewRoute.rateLimit now identifier maxRequests
                  windowMs namespace st) as [st1 r].
      destruct Hcall as (Hs & Hst1 & _ & _). cbn [fst] in Hk.
      unfold stored in Hst1 at 1. rewrite Hk in Hst1.
      cbn [from_option id] in Hst1. subst timestamps.
      pose proof (prune_unexpired now windowMs (stored namespace identifier st))
        as Hvalid.
      destruct (success r).
      * split.
        -- intros Hnil. apply app_eq_nil in Hnil as [_ Hnil]. discriminate Hnil.
        -- apply Forall_app; split; [exact Hvalid|].
           repeat constructor. lia.
      * split; [|exact Hvalid].
        intros Hnil. rewrite Hnil in Hs. cbn [length] in Hs.
        symmetry in Hs. apply Z.ltb_ge in Hs. lia.
    + rewrite rateLimit_other_key in Hk by exact Hne.
      apply Z.eqb_eq in Hdue. rewrite Hdue, sweep_lookup in Hk.
      destruct (rateLimitStore st !! k) as [v|]; [|discriminate Hk].
      destruct (Nat.eqb_spec (length (prune now windowMs v)) 0) as [Hz|Hz];
        [discriminate Hk|].
      injection Hk as <-. split; [|apply prune_unexpired].
      intros Hnil. now rewrite Hnil in Hz.
  - intros k timestamps Hne Hk Hlive.
    rewrite rateLimit_other_key by exact Hne.
    apply Z.eqb_eq in Hdue. rewrite Hdue, sweep_lookup, Hk.
    destruct (Nat.eqb_spec (length (prune now windowMs timestamps)) 0) as [Hz|Hz];
      [|reflexivity].
    now apply length_zero_iff_nil in Hz.
Qed.

Lemma hundredth_call_sweeps_store_witness :
  rateLimitStore
    (fst (ScoreInterviewRoute.rateLimit 62000 (lit "10.200.200.3") 30 60000
            (lit "score-interview") Scenarios.due))
  !! lit "score-interview:10.200.200.1"
  = Some (prune 62000 60000 [61000; 61500]).
Proof.
  refine (proj2 (hundredth_call_sweeps_store (lit "10.200.200.3")
                   (lit "score-interview") 30 60000 62000 Scenarios.due _ _ _)
            (lit "score-interview:10.200.200.1") [61000; 61500] _ _ _).
  - lia.
  - lia.
  - reflexivity.
  - discriminate.
  - vm_compute. reflexivity.
  - discriminate.
Defined.

(** X4. The [remaining] of an admitted call is the number of further
    calls on the key that are admitted while no stored timestamp
    expires: of the calls that follow, exactly the first [remaining]
    succeed. *)
Theorem remaining_counts_admissions
    (identifier namespace : list N) (maxRequests windowMs now : Z)
    (later : list Z) (st : LimiterState) :
  let call :=
    ScoreInterviewRoute.rateLimit now identifier maxRequests windowMs
      namespace st in
  success (snd call) = true ->
  within_window windowMs later ->
  Forall (fun t => Forall (fun t' => t' - t < windowMs) later)
         (stored namespace identifier (fst call)) ->
  0 <= remaining (snd call)
  /\ snd (burst ScoreInterviewRoute.rateLimit identifier maxRequests windowMs
            namespace later (fst call))
     = List.map (fun k => Z.of_nat k <? remaining (snd call))
                (seq 0 (length later)).
Proof.
  cbv zeta.
  pose proof (rateLimit_on_key now identifier maxRequests windowMs
                namespace st) as Hcall. cbv zeta in Hcall.
  destruct (ScoreInterviewRoute.rateLimit now identifier maxRequests
              windowMs namespace st) as [st1 r].
  destruct Hcall as (Hs & Hst1 & Hrem & _). cbn [fst snd].
  intros Hok Hwin Hkeep. rewrite Hok in Hs, Hst1, Hrem.
  symmetry in Hs. apply Z.ltb_lt in Hs.
  rewrite length_app in Hrem. cbn [length] in Hrem.
  split; [lia|].
  pose proof (burst_outcomes identifier maxRequests windowMs namespace later
                st1 Hwin Hkeep) as Hburst.
  destruct (burst ScoreInterviewRoute.rateLimit identifier maxRequests
              windowMs namespace later st1) as [st2 rs].
  destruct Hburst as [-> _]. cbn [snd].
  apply List.map_ext. intros k.
  rewrite Hst1, length_app, Hrem. cbn [length].
  destruct (Z.ltb_spec (Z.of_nat (length (prune now windowMs
                                            (stored namespace identifier st))
                                  + 1) + Z.of_nat k) maxRequests);
    destruct (Z.ltb_spec (Z.of_nat k)
                (maxRequests
                 - Z.of_nat (length (prune now windowMs
                                       (stored namespace identifier st)) + 1)));
    auto; lia.
Qed.

Lemma remaining_counts_admissions_witness :
  0 <= remaining (snd (ScoreInterviewRoute.rateLimit 1000 Examples.ip 3 60000
                         (lit "score-interview") Examples.fresh))
  /\ snd (burst ScoreInterviewRoute.rateLimit Examples.ip 3 60000
            (lit "score-interview") [1500; 2000; 2500]
            (fst (ScoreInterviewRoute.rateLimit 1000 Examples.ip 3 60000
                    (lit "score-interview") Examples.fresh)))
     = List.map (fun k => Z.of_nat k
                          <? remaining
                               (snd (ScoreInterviewRoute.rateLimit 1000
                                       Examples.ip 3 60000
                                       (lit "score-interview")
                                       Examples.fresh)))
                (seq 0 (length [1500; 2000; 2500])).
Proof.
  apply (remaining_counts_admissions Examples.ip (lit "score-interview")
           3 60000 1000 [1500; 2000; 2500] Examples.fresh).
  - reflexivity.
  - cbn. repeat constructor; lia.
  - replace (stored (lit "score-interview") Examples.ip
               (fst (rateLimit 1000 Examples.ip 3 60000
                       (lit "score-interview") Examples.fresh)))
      with [1000] by (vm_compute; reflexivity).
    repeat constructor; lia.
Defined.

(** ** The validator as a whole *)

Lemma rating_range (q : Q) :
  Qlt_bool q 100 || Qlt_bool 3000 q = false <-> (100 <= q)%Q /\ (q <= 3000)%Q.
Proof.
  rewrite orb_false_iff, !Qlt_bool_false. reflexivity.
Qed.

(** X5. The validator accepts a payload with the result [res] exactly
    when the payload is not [null], its rating is a finite number from
    100 to 3000 (checked before rounding), its summary is a non-blank
    string, its dimensions are the five keys once each in any order, each
    with a finite score and non-blank feedback, and its moments (possibly
    none) are well formed; [res] then holds the rounded rating, the tier
    and verdict derived from it, and the other fields as received, with
    [isPartial] false unless it is a boolean and [note] absent unless it
    is a non-blank string. *)
Theorem validator_accepts_exactly (raw : JValue) (res : ScoringResults) :
  snd (validateScoringResponse raw) = Ok res
  <-> raw <> JNull
      /\ exists (q : Q) (dims moms : list JValue),
          member raw (lit "eloRating") = Some (JNum (Fin q))
          /\ (100 <= q)%Q /\ (q <= 3000)%Q
          /\ eloRating res = Fin (inject_Z (Math_round q))
          /\ tier res = deriveTierFromRating (inject_Z (Math_round q))
          /\ verdict res = verdict_of (Math_round q)
          /\ member raw (lit "bossSummary") = Some (JStr (bossSummary res))
          /\ blank (bossSummary res) = false
          /\ member raw (lit "dimensions") = Some (JArr dims)
          /\ Forall2 dimension_ok dims (dimensions res)
          /\ List.NoDup (List.map name (dimensions res))
          /\ length (dimensions res) = 5%nat
          /\ member raw (lit "moments") = Some (JArr moms)
          /\ Forall2 moment_ok moms (moments res)
          /\ isPartial res = match member raw (lit "isPartial") with
                             | Some (JBool b) => b
                             | _ => false
                             end
          /\ note res = match member raw (lit "note") with
                        | Some (JStr s) => if negb (blank s) then Some s else None
                        | _ => None
                        end.
Proof.
  split.
  - intros Hok. unfold validateScoringResponse in Hok.
    destruct (eloRating ← prop raw (lit "eloRating"); validate_rating eloRating)
      as [r|e] eqn:Hrating; [|discriminate Hok].
    apply rating_accepted in Hrating as (Hnull & q & Hq & Hrange & ->).
    cbn [snd] in Hok.
    apply validate_rest_ok in Hok
      as (dims & moms & H1 & H2 & H3 & H4 & H5 & H6 & H7 & H8 & H9 & H10
          & H11 & H12 & H13).
    apply rating_range in Hrange as [Hlo Hhi].
    split; [exact Hnull|]. exists q, dims, moms.
    repeat (split; [assumption|]). assumption.
  - intros (Hnull & q & dims & moms & Hq & Hlo & Hhi & H9 & H10 & H11 & H1 & H2
            & H3 & H4 & H5 & H6 & H7 & H8 & H12 & H13).
    unfold validateScoringResponse.
    assert (Hrating : (eloRating ← prop raw (lit "eloRating");
                       validate_rating eloRating) = Ok (Math_round q)).
    { destruct raw; try contradiction; cbn [prop mbind result_bind];
        rewrite Hq; cbn [validate_rating];
        (rewrite (proj2 (rating_range q)) by (split; assumption));
        reflexivity. }
    rewrite Hrating. cbn [snd].
    apply validate_rest_ok. exists dims, moms.
    repeat (split; [assumption|]). assumption.
Qed.

Ltac decide_comparisons :=
  repeat match goal with
         | |- context [?a <=? ?b] =>
             first [ rewrite (proj2 (Z.leb_le a b)) by lia
                   | rewrite (proj2 (Z.leb_gt a b)) by lia ]
         | |- context [?a <? ?b] =>
             first [ rewrite (proj2 (Z.ltb_lt a b)) by lia
                   | rewrite (proj2 (Z.ltb_ge a b)) by lia ]
         end.

(** The bands of the tier table and what lies outside them. *)
Lemma rating_intervals (r : Z) :
  r < 100 \/ 100 <= r <= 599 \/ 600 <= r <= 999 \/ 1000 <= r <= 1399
  \/ 1400 <= r <= 1799 \/ 1800 <= r <= 2199 \/ 2200 <= r <= 3000 \/ 3000 < r.
Proof. lia. Qed.

Lemma deriveTier_integer (r : Z) :
  deriveTierFromRating (inject_Z r)
  = if r <=? 599 then WastingMyTime
    else if r <=? 999 then ShowsAPulse
    else if r <=? 1399 then Adequate
    else if r <=? 1799 then Noteworthy
    else if r <=? 2199 then Impressive
    else HiredMaterial.
Proof.
  unfold deriveTierFromRating. rewrite find_tier_integer.
  change 100%Q with (inject_Z 100). rewrite Qlt_bool_inject_Z.
  destruct (rating_intervals r) as [H|[H|[H|[H|[H|[H|[H|H]]]]]]];
    decide_comparisons; reflexivity.
Qed.

Lemma verdict_of_integer (r : Z) :
  verdict_of r = if 2200 <=? r then HIRED else NOT_HIRED.
Proof.
  unfold verdict_of, HIRED_THRESHOLD.
  change 2200%Q with (inject_Z 2200). now rewrite Qle_bool_inject_Z.
Qed.

(** X6. In every result the validator returns, the verdict is HIRED
    exactly when the tier is Hired Material. *)
Theorem hired_iff_top_tier (raw : JValue) (res : ScoringResults) :
  snd (validateScoringResponse raw) = Ok res ->
  (verdict res = HIRED <-> tier res = HiredMaterial).
Proof.
  intros Hok.
  destruct (validateScoringResponse raw) as [log out] eqn:Hrun.
  cbn [snd] in Hok. subst out.
  apply validate_accepted in Hrun as (_ & q & _ & _ & Hrest).
  apply validate_rest_fields in Hrest as (_ & -> & ->).
  rewrite deriveTier_integer, verdict_of_integer.
  repeat match goal with
         | |- context [?a <=? ?b] => destruct (Z.leb_spec a b)
         end; split; intros Hv; try discriminate Hv; try reflexivity; lia.
Qed.

Lemma hired_iff_top_tier_witness :
  verdict (Examples.validated 2300 HiredMaterial HIRED) = HIRED
  <-> tier (Examples.validated 2300 HiredMaterial HIRED) = HiredMaterial.
Proof.
  apply (hired_iff_top_tier
           (Examples.scoring 2300 "Impressive" "NOT HIRED")).
  vm_compute. reflexivity.
Defined.

(** X7. On whole ratings the derived tier never falls as the rating
    rises, and the fallback clamps: every rating below 100 is Wasting My
    Time and every rating above 3000 is Hired Material. *)
Theorem derived_tier_monotone (r1 r2 : Z) :
  (r1 <= r2 ->
   (tier_rank (deriveTierFromRating (inject_Z r1))
    <= tier_rank (deriveTierFromRating (inject_Z r2)))%nat)
  /\ (r1 < 100 -> deriveTierFromRating (inject_Z r1) = WastingMyTime)
  /\ (3000 < r1 -> deriveTierFromRating (inject_Z r1) = HiredMaterial).
Proof.
  rewrite !deriveTier_integer.
  repeat match goal with
         | |- context [?a <=? ?b] => destruct (Z.leb_spec a b)
         end; cbn [tier_rank]; repeat split; intros; try reflexivity; lia.
Qed.

Lemma derived_tier_monotone_witness :
  (tier_rank (deriveTierFromRating (inject_Z 599))
   <= tier_rank (deriveTierFromRating (inject_Z 600)))%nat.
Proof.
  apply (derived_tier_monotone 599 600). lia.
Defined.

(** X8. A rating that lies strictly between two bands, which only a
    rating that is not whole can, is classified by the fallback: from
    100 up it becomes Hired Material, whatever bands surround it. *)
Theorem rating_between_bands (q : Q) (b : Z) :
  In b [599; 999; 1399; 1799; 2199] ->
  (inject_Z b < q)%Q ->
  (q < inject_Z (b + 1))%Q ->
  find_tier ELO_TIERS q = None
  /\ deriveTierFromRating q = HiredMaterial.
Proof.
  intros Hb Hlo Hhi.
  assert (Hle : forall x y : Q, (x < y)%Q -> Qle_bool y x = false).
  { intros x y Hxy. destruct (Qle_bool y x) eqn:E; [|reflexivity].
    apply Qle_bool_iff in E. exfalso. exact (Qlt_not_le _ _ Hxy E). }
  assert (Hge : forall x y : Q, (x <= y)%Q -> Qle_bool x y = true).
  { intros x y Hxy. now apply Qle_bool_iff. }
  assert (Hfind : find_tier ELO_TIERS q = None).
  { cbn [find_tier ELO_TIERS min max tname].
    cbn in Hb.
    destruct Hb as [<-|[<-|[<-|[<-|[<-|[]]]]]]; cbn [Z.add Pos.add Pos.succ] in Hhi;
      repeat match goal with
             | |- context [Qle_bool ?x q && Qle_bool q ?y] =>
                 first
                   [ rewrite (Hle q x)
                       by (eapply Qlt_le_trans; [exact Hhi | now vm_compute])
                   | rewrite (andb_comm (Qle_bool x q)), (Hle y q)
                       by (eapply Qle_lt_trans; [|exact Hlo]; now vm_compute) ];
                 cbn [andb]
             end; reflexivity. }
  split; [exact Hfind|].
  unfold deriveTierFromRating. rewrite Hfind.
  unfold Qlt_bool. rewrite Hge; [reflexivity|].
  apply Qlt_le_weak. eapply Qle_lt_trans; [|exact Hlo].
  cbn in Hb. destruct Hb as [<-|[<-|[<-|[<-|[<-|[]]]]]]; now vm_compute.
Qed.

Lemma rating_between_bands_witness :
  find_tier ELO_TIERS (1199 # 2) = None
  /\ deriveTierFromRating (1199 # 2) = HiredMaterial.
Proof.
  apply (rating_between_bands (1199 # 2) 599).
  - left. reflexivity.
  - reflexivity.
  - reflexivity.
Defined.

(** X9. The colour the results page gives a whole rating from 100 to
    3000 is the colour of the tier the validator derives for it; outside
    these bounds the page falls back to the secondary text colour, where
    the validator's derivation clamps to the first or last tier. *)
Theorem tier_colour_matches_tier (r : Z) :
  (100 <= r <= 3000 ->
   exists t : EloTierDefinition,
     In t ELO_TIERS
     /\ tname t = deriveTierFromRating (inject_Z r)
     /\ ResultsStep.getTierColour (inject_Z r) = colour t)
  /\ (r < 100 \/ 3000 < r ->
      ResultsStep.getTierColour (inject_Z r)
      = lit "var(--color-text-secondary)").
Proof.
  unfold ResultsStep.getTierColour.
  cbn [List.find ELO_TIERS min max colour tname].
  change 100%Q with (inject_Z 100). change 599%Q with (inject_Z 599).
  change 600%Q with (inject_Z 600). change 999%Q with (inject_Z 999).
  change 1000%Q with (inject_Z 1000). change 1399%Q with (inject_Z 1399).
  change 1400%Q with (inject_Z 1400). change 1799%Q with (inject_Z 1799).
  change 1800%Q with (inject_Z 1800). change 2199%Q with (inject_Z 2199).
  change 2200%Q with (inject_Z 2200). change 3000%Q with (inject_Z 3000).
  rewrite !Qle_bool_inject_Z, deriveTier_integer.
  split; intros Hr.
  - destruct (rating_intervals r) as [H|[H|[H|[H|[H|[H|[H|H]]]]]]];
      try lia; decide_comparisons; cbn [andb];
      let pick i :=
        exists (List.nth i ELO_TIERS (mkEloTier WastingMyTime 0 0 []));
        (split; [cbn; tauto | split; reflexivity]) in
      first [ pick 0%nat | pick 1%nat | pick 2%nat | pick 3%nat | pick 4%nat
            | pick 5%nat ].
  - destruct Hr; decide_comparisons; cbn [andb]; reflexivity.
Qed.

Lemma tier_colour_matches_tier_witness :
  exists t : EloTierDefinition,
    In t ELO_TIERS
    /\ tname t = deriveTierFromRating (inject_Z 1450)
    /\ ResultsStep.getTierColour (inject_Z 1450) = colour t.
Proof.
  apply (tier_colour_matches_tier 1450). lia.
Defined.

(** ** The scoring route as a whole *)

Section ScoringRoute.

Variable JSON_parse : list N -> option JValue.
Variable messages_create : list N -> option (list ContentBlock).
Variable ANTHROPIC_API_KEY : option (list N).

Lemma score_reply_cases (blocks : list ContentBlock) :
  score_reply JSON_parse blocks = failed_to_score
  \/ exists (parsed : JValue) (results : ScoringResults),
      blank (block_text blocks) = false
      /\ parse_response JSON_parse (block_text blocks) = Some parsed
      /\ snd (validateScoringResponse parsed) = Ok results
      /\ score_reply JSON_parse blocks = mkResponse 200 (ResultsBody results).
Proof.
  unfold score_reply.
  destruct (blank (block_text blocks)); [now left|].
  destruct (parse_response JSON_parse (block_text blocks)) as [parsed|];
    [|now left].
  destruct (snd (validateScoringResponse parsed)) as [results|e] eqn:Hv;
    [|now left].
  right. exists parsed, results. auto.
Qed.

Ltac in_table :=
  unfold SCORING_FAILURES; repeat first [left; reflexivity | right].

Ltac refused :=
  left; split; [reflexivity|];
  eexists _, _; split; [reflexivity|];
  split; [in_table | split; discriminate].

(** The ways a request that passed the limiter ends. *)
Lemma handle_admitted_cases (req : Request) :
  let run := handle_admitted JSON_parse messages_create ANTHROPIC_API_KEY req in
  (fst run = []
   /\ exists (code : Z) (message : list N),
       snd run = mkResponse code (ErrorBody message)
       /\ In (code, message) SCORING_FAILURES
       /\ code <> 429 /\ code <> 200)
  \/ (exists (payload : JValue) (t : list N),
         body req = Some payload
         /\ member payload (lit "transcript") = Some (JStr t)
         /\ fst run = [user_message (member payload (lit "cvText")) t]
         /\ (snd run = unexpected_error
             \/ snd run = failed_to_score
             \/ exists (blocks : list ContentBlock) (parsed : JValue)
                       (results : ScoringResults),
                 messages_create
                   (user_message (member payload (lit "cvText")) t)
                 = Some blocks
                 /\ parse_response JSON_parse (block_text blocks) = Some parsed
                 /\ snd (validateScoringResponse parsed) = Ok results
                 /\ snd run = mkResponse 200 (ResultsBody results))).
Proof.
  cbv zeta. unfold handle_admitted.
  destruct (body req) as [payload|] eqn:Hbody; [|refused].
  destruct payload as [|b|n|s|items|fields] eqn:Hpayload; [refused|..];
    rewrite <- Hpayload in *; clear Hpayload.
  all: destruct (member payload (lit "transcript")) as [[|?|?|t|?|?]|] eqn:Ht;
    try refused.
  all: destruct (blank t); [refused|].
  all: destruct (Z.of_nat (length t) >? MAX_TRANSCRIPT_LENGTH); [refused|].
  all: destruct (member payload (lit "cvText")) as [[|?|?|cv|?|?]|] eqn:Hcv;
    try refused.
  all: try (destruct (Z.of_nat (length cv) >? MAX_CV_TEXT_LENGTH); [refused|]).
  all: destruct ANTHROPIC_API_KEY as [[|c key]|]; try refused.
  all: right; exists payload, t;
    split; [reflexivity|]; split; [exact Ht|]; rewrite Hcv.
  all: match goal with
       | |- context [messages_create ?content] =>
           destruct (messages_create content) as [blocks|] eqn:Hcall
       end;
    cbn [fst snd]; (split; [reflexivity|]); [|now left].
  all: destruct (score_reply_cases blocks)
      as [->|(parsed & results & _ & Hparse & Hvalid & ->)];
    [right; now left|].
  all: right; right; exists blocks, parsed, results; auto.
Qed.

Lemma POST_steps (now : Z) (st : LimiterState) (req : Request) :
  POST JSON_parse messages_create ANTHROPIC_API_KEY now st req
  = let limit :=
      rateLimit now (default (lit "unknown") (forwardedFor req)) 30 60000
        (lit "score-interview") st in
    let run := handle_admitted JSON_parse messages_create ANTHROPIC_API_KEY req in
    if success (snd limit) then (fst limit, fst run, snd run)
    else (fst limit, [],
          error_response
            "Too many requests. Please wait a moment and try again." 429).
Proof.
  unfold POST. cbv zeta.
  destruct (rateLimit now _ 30 60000 _ st) as [st' limit]. cbn [fst snd].
  destruct (success limit); cbn [negb]; [|reflexivity].
  now destruct (handle_admitted _ _ _ req).
Qed.

End ScoringRoute.

(** One request: the limiter state it leaves, and how a denial shows. *)
Lemma scoring_route_steps
    (JSON_parse : list N -> option JValue)
    (messages_create : list N -> option (list ContentBlock))
    (ANTHROPIC_API_KEY : option (list N))
    (now : Z) (st : LimiterState) (req : Request) :
  let limit :=
    rateLimit now (default (lit "unknown") (forwardedFor req)) 30 60000
      (lit "score-interview") st in
  let run := POST JSON_parse messages_create ANTHROPIC_API_KEY now st req in
  fst (fst run) = fst limit
  /\ (status (snd run) = 429 <-> success (snd limit) = false)
  /\ (success (snd limit) = false -> snd (fst run) = []).
Proof.
  cbv zeta. rewrite POST_steps. cbv zeta.
  destruct (success (snd (rateLimit now _ 30 60000 _ st))) eqn:Hlimit;
    cbn [fst snd].
  - pose proof (handle_admitted_cases JSON_parse messages_create
                  ANTHROPIC_API_KEY req) as Hcases. cbv zeta in Hcases.
    destruct (handle_admitted JSON_parse messages_create ANTHROPIC_API_KEY req)
      as [calls response]. cbn [fst snd] in *.
    split; [reflexivity|]. split; [|discriminate].
    destruct Hcases
      as [(-> & code & message & -> & _ & H429 & _)
         |(pl & t & _ & _ & _ & Hend)].
    + cbn [status]. split; [contradiction | discriminate].
    + destruct Hend as [->|[->|(blocks & parsed & results & _ & _ & _ & ->)]];
        split; discriminate.
  - split; [reflexivity|]. split; [|reflexivity]. now split.
Qed.

(** X10. Whatever the request, the scoring route answers 200, 400, 429
    or 500 and calls the collaborator at most once: 429 exactly when the
    limiter denies; a 200 carries results and follows exactly one call;
    every other answer carries one of the route's fixed messages with its
    status; a request that reached the collaborator ends in 200 or 500.
    The limiter records the request before anything is checked, so an
    invalid request uses up budget like a valid one. *)
Theorem scoring_route_outcomes
    (JSON_parse : list N -> option JValue)
    (messages_create : list N -> option (list ContentBlock))
    (ANTHROPIC_API_KEY : option (list N))
    (now : Z) (st : LimiterState) (req : Request) :
  let limit :=
    rateLimit now (default (lit "unknown") (forwardedFor req)) 30 60000
      (lit "score-interview") st in
  let run := POST JSON_parse messages_create ANTHROPIC_API_KEY now st req in
  fst (fst run) = fst limit
  /\ (length (snd (fst run)) <= 1)%nat
  /\ In (status (snd run)) [200; 400; 429; 500]
  /\ (status (snd run) = 429 <-> success (snd limit) = false)
  /\ (snd (fst run) <> [] -> status (snd run) = 200 \/ status (snd run) = 500)
  /\ match payload (snd run) with
     | ResultsBody _ =>
         status (snd run) = 200 /\ length (snd (fst run)) = 1%nat
     | ErrorBody message =>
         In (status (snd run), message) SCORING_FAILURES
     end.
Proof.
  cbv zeta. rewrite POST_steps. cbv zeta.
  destruct (success (snd (rateLimit now _ 30 60000 _ st))) eqn:Hlimit;
    cbn [fst snd].
  - pose proof (handle_admitted_cases JSON_parse messages_create
                  ANTHROPIC_API_KEY req) as Hcases. cbv zeta in Hcases.
    destruct (handle_admitted JSON_parse messages_create ANTHROPIC_API_KEY req)
      as [calls response]. cbn [fst snd] in *.
    destruct Hcases
      as [(-> & code & message & -> & Htable & H429 & H200)
         |(pl & t & _ & _ & -> & Hend)].
    + cbn [status payload length].
      repeat split; try lia; try congruence; try exact Htable.
      unfold SCORING_FAILURES in Htable. cbn [In] in Htable |- *.
      intuition congruence.
    + destruct Hend as [->|[->|(blocks & parsed & results & _ & _ & _ & ->)]];
        cbn [status payload length unexpected_error failed_to_score
             error_response];
        repeat split; try lia; try discriminate; auto;
        try (cbn [In]; tauto);
        unfold SCORING_FAILURES; repeat first [left; reflexivity | right].
  - cbn [status payload length error_response].
    repeat split; try lia; try discriminate; auto;
      try (cbn [In]; tauto); try contradiction;
      unfold SCORING_FAILURES; repeat first [left; reflexivity | right].
Qed.

Lemma valid_annotation_type (ty : list N) :
  ty ∈ VALID_ANNOTATION_TYPES <-> In ty ANNOTATION_TYPES.
Proof.
  unfold VALID_ANNOTATION_TYPES. rewrite elem_of_list_to_set.
  apply list_elem_of_In.
Qed.

(** What holds of every result the validator returns. *)
Lemma accepted_result_well_formed (parsed : JValue) (res : ScoringResults) :
  snd (validateScoringResponse parsed) = Ok res ->
  exists r : Z,
    100 <= r <= 3000
    /\ eloRating res = Fin (inject_Z r)
    /\ tier res = deriveTierFromRating (inject_Z r)
    /\ verdict res = verdict_of r
    /\ blank (bossSummary res) = false
    /\ List.map name (dimensions res) ≡ₚ DIMENSION_KEYS
    /\ Forall (fun d => isFinite (score d) = true /\ blank (feedback d) = false)
              (dimensions res)
    /\ Forall (fun m => In (type m) ANNOTATION_TYPES
                        /\ blank (question m) = false
                        /\ blank (quote m) = false
                        /\ blank (explanation m) = false)
              (moments res)
    /\ (forall n : list N, note res = Some n -> blank n = false).
Proof.
  intros Hok.
  destruct (validateScoringResponse parsed) as [log out] eqn:Hrun.
  cbn [snd] in Hok. subst out.
  apply validate_accepted in Hrun as (_ & q & _ & Hrange & Hrest).
  apply validate_rest_ok in Hrest
    as (dims & moms & _ & Hsummary & _ & Hdims & Hnodup & Hfive & _ & Hmoms
        & Hrating & Htier & Hverdict & _ & Hnote).
  exists (Math_round q).
  repeat (split; [assumption|]).
  split; [now apply (accepted_names dims)|].
  split; [|split].
  - apply List.Forall_forall. intros d Hd.
    destruct (Forall2_In_r _ _ _ _ Hdims Hd)
      as (dim & _ & _ & _ & _ & (s & _ & Hscore) & _ & Hfeedback).
    rewrite Hscore. now split.
  - apply List.Forall_forall. intros m Hm.
    destruct (Forall2_In_r _ _ _ _ Hmoms Hm)
      as (moment & _ & _ & _ & Hty & _ & Hq & _ & Hquote & _ & Hexp).
    apply valid_annotation_type in Hty. auto.
  - intros n Hn. rewrite Hnote in Hn.
    destruct (member parsed (lit "note")) as [[|?|?|s|?|?]|];
      try discriminate Hn.
    destruct (blank s) eqn:Hblank; [discriminate Hn|].
    cbn [negb] in Hn. now injection Hn as <-.
Qed.

(** X11. A 200 answer of the scoring route always carries a well-formed
    result: a whole rating from 100 to 3000 with the tier and verdict
    derived from it, a non-blank summary, the five dimensions once each
    with finite scores and non-blank feedback, moments of the six known
    types with non-blank texts, and a note that is absent or non-blank;
    and the route has called the collaborator exactly once, with a
    non-blank transcript of at most 200000 code units. *)
Theorem scored_response_well_formed
    (JSON_parse : list N -> option JValue)
    (messages_create : list N -> option (list ContentBlock))
    (ANTHROPIC_API_KEY : option (list N))
    (now : Z) (st : LimiterState) (req : Request) :
  let run := POST JSON_parse messages_create ANTHROPIC_API_KEY now st req in
  status (snd run) = 200 ->
  exists (res : ScoringResults) (r : Z) (request : JValue) (t : list N),
    payload (snd run) = ResultsBody res
    /\ 100 <= r <= 3000
    /\ eloRating res = Fin (inject_Z r)
    /\ tier res = deriveTierFromRating (inject_Z r)
    /\ verdict res = verdict_of r
    /\ blank (bossSummary res) = false
    /\ List.map name (dimensions res) ≡ₚ DIMENSION_KEYS
    /\ Forall (fun d => isFinite (score d) = true /\ blank (feedback d) = false)
              (dimensions res)
    /\ Forall (fun m => In (type m) ANNOTATION_TYPES
                        /\ blank (question m) = false
                        /\ blank (quote m) = false
                        /\ blank (explanation m) = false)
              (moments res)
    /\ (forall n : list N, note res = Some n -> blank n = false)
    /\ body req = Some request
    /\ member request (lit "transcript") = Some (JStr t)
    /\ snd (fst run) = [user_message (member request (lit "cvText")) t].
Proof.
  cbv zeta. rewrite POST_steps. cbv zeta.
  destruct (success (snd (rateLimit now _ 30 60000 _ st))); cbn [fst snd];
    [|discriminate].
  pose proof (handle_admitted_cases JSON_parse messages_create
                ANTHROPIC_API_KEY req) as Hcases. cbv zeta in Hcases.
  destruct (handle_admitted JSON_parse messages_create ANTHROPIC_API_KEY req)
    as [calls response]. cbn [fst snd] in *.
  destruct Hcases
    as [(-> & code & message & -> & _ & _ & H200)
       |(request & t & Hbody & Ht & -> & Hend)].
  - cbn [status]. contradiction.
  - destruct Hend as [->|[->|(blocks & parsed & res & _ & _ & Hvalid & ->)]];
      [discriminate | discriminate |].
    intros _.
    destruct (accepted_result_well_formed parsed res Hvalid)
      as (r & H1 & H2 & H3 & H4 & H5 & H6 & H7 & H8 & H9).
    exists res, r, request, t. cbn [payload].
    repeat (split; [first [assumption | reflexivity]|]). reflexivity.
Qed.

Lemma scored_response_well_formed_witness :
  exists (res : ScoringResults) (r : Z) (request : JValue) (t : list N),
    payload (snd (POST Json.parse Examples.collaborator (Some (lit "sk-test"))
                    0 Examples.fresh
                    (mkRequest (Some Examples.ip)
                       (Some (Examples.sized_request 40 0)))))
    = ResultsBody res
    /\ 100 <= r <= 3000
    /\ eloRating res = Fin (inject_Z r)
    /\ tier res = deriveTierFromRating (inject_Z r)
    /\ verdict res = verdict_of r
    /\ blank (bossSummary res) = false
    /\ List.map name (dimensions res) ≡ₚ DIMENSION_KEYS
    /\ Forall (fun d => isFinite (score d) = true /\ blank (feedback d) = false)
              (dimensions res)
    /\ Forall (fun m => In (type m) ANNOTATION_TYPES
                        /\ blank (question m) = false
                        /\ blank (quote m) = false
                        /\ blank (explanation m) = false)
              (moments res)
    /\ (forall n : list N, note res = Some n -> blank n = false)
    /\ body (mkRequest (Some Examples.ip) (Some (Examples.sized_request 40 0)))
       = Some request
    /\ member request (lit "transcript") = Some (JStr t)
    /\ snd (fst (POST Json.parse Examples.collaborator (Some (lit "sk-test"))
                   0 Examples.fresh
                   (mkRequest (Some Examples.ip)
                      (Some (Examples.sized_request 40 0)))))
       = [user_message (member request (lit "cvText")) t].
Proof.
  apply (scored_response_well_formed Json.parse Examples.collaborator
           (Some (lit "sk-test")) 0 Examples.fresh
           (mkRequest (Some Examples.ip) (Some (Examples.sized_request 40 0)))).
  vm_compute. reflexivity.
Defined.

Lemma post_sequence_burst
    (JSON_parse : list N -> option JValue)
    (messages_create : list N -> option (list ContentBlock))
    (key : option (list N)) (ip : list N) :
  forall (requests : list (Z * Request)) (st : LimiterState),
    Forall (fun r => default (lit "unknown") (forwardedFor (snd r)) = ip)
           requests ->
    let served := post_sequence JSON_parse messages_create key requests st in
    let limited :=
      burst rateLimit ip 30 60000 (lit "score-interview")
        (List.map fst requests) st in
    fst served = fst limited
    /\ Forall2 (fun ok out =>
                  (status (snd out) = 429 <-> ok = false)
                  /\ (ok = false -> fst out = []))
               (snd limited) (snd served).
Proof.
  induction requests as [|[now req] requests IH]; intros st Hip; cbv zeta.
  - cbn. split; [reflexivity | constructor].
  - apply Forall_cons in Hip as [Hreq Hrest]. cbn [fst snd] in Hreq.
    cbn [post_sequence burst List.map fst].
    pose proof (scoring_route_steps JSON_parse messages_create key now st req)
      as Hstep.
    rewrite Hreq in Hstep.
    destruct (POST JSON_parse messages_create key now st req)
      as [[st1 calls] response].
    destruct (rateLimit now ip 30 60000 (lit "score-interview") st)
      as [st1' limit].
    cbn [fst snd] in Hstep. destruct Hstep as (-> & Hdenied & Hcalls).
    specialize (IH st1' Hrest). cbv zeta in IH.
    destruct (post_sequence JSON_parse messages_create key requests st1')
      as [st2 outs].
    destruct (burst rateLimit ip 30 60000 (lit "score-interview")
                (List.map fst requests) st1') as [st2' oks].
    cbn [fst snd] in IH |- *. destruct IH as [-> Hall].
    split; [reflexivity|]. constructor; [|exact Hall].
    cbn [fst snd]. split; [exact Hdenied | exact Hcalls].
Qed.

(** Clock readings that all lie in one interval shorter than the window. *)
Lemma within_window_bounded (windowMs lo : Z) (times : list Z) :
  Forall (fun t => lo <= t < lo + windowMs) times ->
  within_window windowMs times.
Proof.
  induction 1 as [|t times Ht Hrest IH]; cbn [within_window]; [exact I|].
  split; [|exact IH].
  eapply List.Forall_impl; [|exact Hrest]. cbv beta. intros t' Ht'. lia.
Qed.

(** X12. Of the requests one client sends to the scoring route within
    a minute, starting when none of its earlier timestamps is left in
    the window, the first thirty pass the limiter and every later one is
    answered 429 without reaching the collaborator, whatever the bodies
    of the requests. *)
Theorem scoring_route_limits_each_client
    (JSON_parse : list N -> option JValue)
    (messages_create : list N -> option (list ContentBlock))
    (ANTHROPIC_API_KEY : option (list N))
    (ip : list N) (requests : list (Z * Request)) (st : LimiterState) :
  Forall (fun r => default (lit "unknown") (forwardedFor (snd r)) = ip)
         requests ->
  within_window 60000 (List.map fst requests) ->
  prune (hd 0 (List.map fst requests)) 60000
    (stored (lit "score-interview") ip st) = [] ->
  forall (k : nat) (out : list (list N) * Response),
    snd (post_sequence JSON_parse messages_create ANTHROPIC_API_KEY
           requests st) !! k = Some out ->
    (status (snd out) = 429 <-> (30 <= k)%nat)
    /\ ((30 <= k)%nat -> fst out = []).
Proof.
  intros Hip Hwin Hfresh k out Hk.
  pose proof (post_sequence_burst JSON_parse messages_create ANTHROPIC_API_KEY
                ip requests st Hip) as Hserved. cbv zeta in Hserved.
  destruct Hserved as [_ Hall].
  destruct requests as [|[now req] later]; [discriminate Hk|].
  cbn [List.map fst hd] in Hwin, Hfresh, Hall.
  pose proof (burst_from_expired ip 30 60000 (lit "score-interview") now
                (List.map fst later) st Hwin Hfresh) as Hburst.
  destruct (burst rateLimit ip 30 60000 (lit "score-interview")
              (now :: List.map fst later) st) as [st' oks].
  destruct Hburst as [-> _]. cbn [snd] in Hall.
  destruct (Forall2_lookup_r _ _ _ _ _ Hall Hk) as (ok & Hok & Hstatus & Hcalls).
  rewrite list_lookup_fmap in Hok.
  destruct (seq 0 (S (length (List.map fst later))) !! k) as [i|] eqn:Hi;
    [|discriminate Hok].
  apply lookup_seq in Hi as [-> _]. cbn [fmap option_fmap option_map] in Hok.
  injection Hok as Hok.
  destruct ok.
  - apply Z.ltb_lt in Hok. split.
    + rewrite Hstatus. split; [intros Hf; discriminate Hf | lia].
    + lia.
  - apply Z.ltb_ge in Hok. split.
    + rewrite Hstatus. split; [lia | reflexivity].
    + intros _. now apply Hcalls.
Qed.

Lemma scoring_route_limits_each_client_witness :
  (status (error_response
             "Too many requests. Please wait a moment and try again." 429)
   = 429 <-> (30 <= 30)%nat)
  /\ ((30 <= 30)%nat
      -> fst (([] : list (list N)),
              error_response
                "Too many requests. Please wait a moment and try again." 429)
         = []).
Proof.
  refine (scoring_route_limits_each_client Json.parse Examples.collaborator
            (Some (lit "sk-test")) Examples.ip Traffic.hammering
            Examples.fresh _ _ _ 30%nat
            ([], error_response
                   "Too many requests. Please wait a moment and try again."
                   429) _).
  - repeat constructor.
  - apply (within_window_bounded 60000 1000). cbn. repeat constructor; lia.
  - reflexivity.
  - vm_compute. reflexivity.
Defined.

(** ** The brace matcher, completely *)

Lemma upto_last_close_absent (s : list N) :
  ~ In close_brace s -> upto_last_close s = None.
Proof.
  induction s as [|c s IH]; intros Hs; [reflexivity|].
  cbn [upto_last_close]. rewrite IH by (intros H; apply Hs; now right).
  destruct (N.eqb_spec c close_brace) as [->|_]; [|reflexivity].
  exfalso. apply Hs. now left.
Qed.

Lemma upto_last_close_found (mid post : list N) :
  ~ In close_brace post ->
  upto_last_close (mid ++ close_brace :: post) = Some (mid ++ [close_brace]).
Proof.
  intros Hpost. induction mid as [|c mid IH]; cbn [app upto_last_close].
  - rewrite upto_last_close_absent by exact Hpost.
    now rewrite N.eqb_refl.
  - now rewrite IH.
Qed.

(** X13. The fallback of step 7 takes the text from its first opening
    brace to its last closing brace: whenever a closing brace follows
    the first opening brace, that span is the match, whatever lies
    between them (nested, unbalanced or repeated braces included) and
    whatever surrounds them. *)
Theorem match_braces_outermost (pre mid post : list N) :
  ~ In open_brace pre ->
  ~ In close_brace post ->
  match_braces (pre ++ open_brace :: mid ++ close_brace :: post)
  = Some (open_brace :: mid ++ [close_brace]).
Proof.
  intros Hpre Hpost. induction pre as [|c pre IH]; cbn [app match_braces].
  - rewrite N.eqb_refl. now rewrite upto_last_close_found.
  - destruct (N.eqb_spec c open_brace) as [->|_].
    + exfalso. apply Hpre. now left.
    + apply IH. intros H. apply Hpre. now right.
Qed.

Lemma match_braces_outermost_witness :
  match_braces (lit "Here you go: " ++ open_brace
                  :: lit " a {b} } c " ++ close_brace :: lit " done.")
  = Some (open_brace :: lit " a {b} } c " ++ [close_brace]).
Proof.
  apply (match_braces_outermost (lit "Here you go: ") (lit " a {b} } c ")
           (lit " done.")).
  - vm_compute. intuition discriminate.
  - vm_compute. intuition discriminate.
Defined.

(** ** The retriever against any server *)

(** The loop from any attempt on: it ends at the first poll that does
    not ask for a retry. *)
Lemma poll_until_decisive (source : nat -> FetchResult) (id : list N) (k : nat) :
  (k < MAX_ATTEMPTS)%nat ->
  not_ready (source k) = false ->
  forall fuel attempt : nat,
    (fuel + attempt = MAX_ATTEMPTS)%nat ->
    (attempt <= k)%nat ->
    (forall i, (attempt <= i < k)%nat -> not_ready (source i) = true) ->
    poll source id fuel attempt
    = (flat_map (backoff_step (url id)) (seq attempt (k - attempt))
       ++ [Fetch (url id)],
       final_outcome (source k)).
Proof.
  intros Hk Hend. induction fuel as [|fuel IH];
    intros attempt Hsum Hle Hwait.
  - cbn in Hsum. lia.
  - cbn [poll]. destruct (Nat.eq_dec attempt k) as [->|Hne].
    + rewrite Nat.sub_diag. cbn [seq flat_map app].
      unfold final_outcome, not_ready in *.
      destruct (source k) as [|code json]; [reflexivity|].
      destruct (code =? 200); [reflexivity|].
      now rewrite Hend.
    + pose proof (Hwait attempt ltac:(lia)) as Hretry.
      unfold not_ready in Hretry.
      destruct (source attempt) as [|code json]; [discriminate Hretry|].
      apply Z.eqb_eq in Hretry as ->. cbn [Z.eqb Pos.eqb].
      destruct (attempt <? MAX_ATTEMPTS - 1)%nat eqn:Hlast;
        [|apply Nat.ltb_ge in Hlast; lia].
      rewrite IH by (try lia; intros i Hi; apply Hwait; lia).
      replace (k - attempt)%nat with (S (k - S attempt)) by lia.
      reflexivity.
Qed.

Lemma poll_all_retry (source : nat -> FetchResult) (id : list N) :
  (forall i, (i < MAX_ATTEMPTS)%nat -> not_ready (source i) = true) ->
  fetchTranscript source id
  = (schedule (url id) (MAX_ATTEMPTS - 1), Throw NotYetAvailable).
Proof.
  intros Hwait. apply poll_never_ready. intros i Hi.
  specialize (Hwait i Hi). unfold not_ready in Hwait.
  destruct (source i) as [|code json]; [discriminate Hwait|].
  apply Z.eqb_eq in Hwait as ->. now exists json.
Qed.

(** The first poll, if any, that does not ask for a retry. *)
Lemma first_decisive (source : nat -> FetchResult) (n : nat) :
  (forall i, (i < n)%nat -> not_ready (source i) = true)
  \/ exists k, (k < n)%nat
               /\ not_ready (source k) = false
               /\ forall i, (i < k)%nat -> not_ready (source i) = true.
Proof.
  induction n as [|n [Hall|(k & Hk & Hend & Hbefore)]].
  - left. intros i Hi. lia.
  - destruct (not_ready (source n)) eqn:Hn.
    + left. intros i Hi. destruct (Nat.eq_dec i n) as [->|]; [exact Hn|].
      apply Hall. lia.
    + right. exists n. split; [lia|]. split; [exact Hn|].
      intros i Hi. now apply Hall.
  - right. exists k. split; [lia|]. now split.
Qed.

Lemma total_sleep_app (a b : list Event) :
  (total_sleep (a ++ b) == total_sleep a + total_sleep b)%Q.
Proof.
  induction a as [|[u|ms] a IH]; cbn [app total_sleep].
  - now rewrite Qplus_0_l.
  - exact IH.
  - rewrite IH. now rewrite Qplus_assoc.
Qed.

Lemma schedule_bounds (u : list N) (k : nat) :
  (k < MAX_ATTEMPTS)%nat ->
  (polls (schedule u k) <= MAX_ATTEMPTS)%nat
  /\ (total_sleep (schedule u k) <= 24375)%Q.
Proof.
  intros Hk. unfold MAX_ATTEMPTS in *.
  destruct k as [|[|[|[|[|k]]]]]; try lia; split;
    solve [ cbn; lia | vm_compute; discriminate ].
Qed.

(** X14. Against any server whatever, a retrieval polls at most five
    times and sleeps at most 24375 ms in all; its trace is that of a
    retrieval decided at some poll [k < 5]: each earlier poll followed by
    its backoff sleep, and no sleep after the last poll. *)
Theorem retrieval_is_bounded (source : nat -> FetchResult) (id : list N) :
  let run := fetchTranscript source id in
  (exists k : nat, (k < MAX_ATTEMPTS)%nat /\ fst run = schedule (url id) k)
  /\ (1 <= polls (fst run) <= MAX_ATTEMPTS)%nat
  /\ (total_sleep (fst run) <= 24375)%Q.
Proof.
  cbv zeta.
  assert (Hshape : exists k : nat,
             (k < MAX_ATTEMPTS)%nat
             /\ fst (fetchTranscript source id) = schedule (url id) k).
  { destruct (first_decisive source MAX_ATTEMPTS)
      as [Hall|(k & Hk & Hend & Hbefore)].
    - exists (MAX_ATTEMPTS - 1)%nat. rewrite poll_all_retry by exact Hall.
      split; [unfold MAX_ATTEMPTS; lia | reflexivity].
    - exists k. split; [exact Hk|]. unfold fetchTranscript.
      rewrite (poll_until_decisive source id k Hk Hend MAX_ATTEMPTS 0)
        by (try lia; intros i Hi; apply Hbefore; lia).
      cbn [fst]. now rewrite Nat.sub_0_r. }
  split; [exact Hshape|].
  destruct Hshape as (k & Hk & ->).
  destruct (schedule_bounds (url id) k Hk) as [Hpolls Hsleep].
  split; [|exact Hsleep].
  rewrite polls_schedule in *. lia.
Qed.

(** X15. A retrieval is decided by the first poll that is not answered
    202: after [k < 5] polls answered 202, a network failure, a 200 or
    any other status at poll [k] ends the retrieval there, with the
    outcome of that poll alone and without a further poll or sleep; an
    error is never retried. *)
Theorem retrieval_decided_by_first_answer
    (source : nat -> FetchResult) (id : list N) (k : nat) :
  (k < MAX_ATTEMPTS)%nat ->
  (forall i, (i < k)%nat -> not_ready (source i) = true) ->
  not_ready (source k) = false ->
  fetchTranscript source id = (schedule (url id) k, final_outcome (source k)).
Proof.
  intros Hk Hbefore Hend. unfold fetchTranscript.
  rewrite (poll_until_decisive source id k Hk Hend MAX_ATTEMPTS 0)
    by (try lia; intros i Hi; apply Hbefore; lia).
  now rewrite Nat.sub_0_r.
Qed.

Lemma retrieval_decided_by_first_answer_witness :
  fetchTranscript
    (answered_after 2
       (HttpResponse 500
          (Some (JObj [ (lit "error", JStr (lit "Failed to fetch transcript")) ]))))
    Examples.conversation
  = (schedule (url Examples.conversation) 2,
     final_outcome
       (answered_after 2
          (HttpResponse 500
             (Some (JObj [ (lit "error",
                            JStr (lit "Failed to fetch transcript")) ])))
          2%nat)).
Proof.
  apply (retrieval_decided_by_first_answer
           (answered_after 2
              (HttpResponse 500
                 (Some (JObj [ (lit "error",
                                JStr (lit "Failed to fetch transcript")) ]))))
           Examples.conversation 2).
  - unfold MAX_ATTEMPTS. lia.
  - intros [|[|i]] Hi; [reflexivity | reflexivity | lia].
  - reflexivity.
Defined.

(** ** The retrieval route *)

Lemma id_char_alphabet (c : N) :
  ConversationsHandler.id_char c = true <-> In c ID_ALPHABET.
Proof.
  assert (Htable : forallb (fun n =>
                      Bool.eqb (ConversationsHandler.id_char (N.of_nat n))
                               (existsb (N.eqb (N.of_nat n)) ID_ALPHABET))
                     (seq 0 128) = true) by (vm_compute; reflexivity).
  rewrite forallb_forall in Htable.
  assert (Hin : In c ID_ALPHABET <-> existsb (N.eqb c) ID_ALPHABET = true).
  { rewrite existsb_exists. split.
    - intros Hc. exists c. split; [exact Hc | apply N.eqb_refl].
    - intros (x & Hx & Heq). apply N.eqb_eq in Heq. now subst x. }
  rewrite Hin.
  destruct (N.ltb_spec c 128) as [Hsmall|Hbig].
  - specialize (Htable (N.to_nat c)).
    rewrite N2Nat.id in Htable.
    rewrite (Bool.eqb_prop _ _ (Htable ltac:(apply in_seq; lia))).
    reflexivity.
  - assert (Hid : ConversationsHandler.id_char c = false).
    { unfold ConversationsHandler.id_char.
      repeat match goal with
             | |- context [(?a <=? ?b)%N] => destruct (N.leb_spec a b)
             | |- context [(?a =? ?b)%N] => destruct (N.eqb_spec a b)
             end; cbn; try reflexivity; lia. }
    assert (Hex : existsb (N.eqb c) ID_ALPHABET = false).
    { apply Bool.not_true_is_false. intros Hex.
      apply existsb_exists in Hex as (x & Hx & Heq).
      apply N.eqb_eq in Heq. subst x.
      assert (Hall : forallb (fun x => (x <? 128)%N) ID_ALPHABET = true)
        by (vm_compute; reflexivity).
      rewrite forallb_forall in Hall. specialize (Hall c Hx).
      apply N.ltb_lt in Hall. lia. }
    rewrite Hid, Hex. reflexivity.
Qed.

Section RetrievalRoute.

Variable upstream : list N -> list N -> ConversationsHandler.Upstream.
Variable ELEVENLABS_API_KEY : option (list N).

Lemma GET_steps (now : Z) (st : LimiterState) (forwardedFor : option (list N))
    (id : list N) :
  ConversationsHandler.GET upstream ELEVENLABS_API_KEY now st forwardedFor id
  = let limit :=
      ConversationsRoute.rateLimit now (default (lit "unknown") forwardedFor)
        200 60000 (lit "conversations") st in
    let run :=
      ConversationsHandler.handle_admitted upstream ELEVENLABS_API_KEY id in
    if success (snd limit) then (fst limit, fst run, snd run)
    else (fst limit, [],
          ConversationsHandler.error_response
            "Too many requests. Please wait a moment and try again." 429).
Proof.
  unfold ConversationsHandler.GET. cbv zeta.
  destruct (ConversationsRoute.rateLimit now _ 200 60000 _ st) as [st' limit].
  cbn [fst snd].
  destruct (success limit); cbn [negb]; [|reflexivity].
  now destruct (ConversationsHandler.handle_admitted _ _ id).
Qed.

(** The ways a request that passed the limiter ends. *)
Lemma retrieval_cases (id : list N) :
  let run :=
    ConversationsHandler.handle_admitted upstream ELEVENLABS_API_KEY id in
  (ConversationsHandler.CONVERSATION_ID_PATTERN id = false
   /\ run = ([], ConversationsHandler.error_response
                   "Invalid conversation ID format" 400))
  \/ (ConversationsHandler.CONVERSATION_ID_PATTERN id = true
      /\ (ELEVENLABS_API_KEY = None \/ ELEVENLABS_API_KEY = Some [])
      /\ run = ([], ConversationsHandler.error_response
                      "Service configuration error" 500))
  \/ (exists apiKey : list N,
         ConversationsHandler.CONVERSATION_ID_PATTERN id = true
         /\ ELEVENLABS_API_KEY = Some apiKey
         /\ apiKey <> []
         /\ fst run = [ConversationsHandler.conversation_url id]
         /\ (snd run = ConversationsHandler.failed
             \/ (upstream (ConversationsHandler.conversation_url id) apiKey
                 = ConversationsHandler.Unreachable -> False)
                /\ (snd run
                    = ConversationsHandler.error_response
                        "Conversation not found" 404
                    \/ exists (code : Z) (data : JValue),
                        upstream (ConversationsHandler.conversation_url id)
                                 apiKey
                        = ConversationsHandler.Replied code (Some data)
                        /\ 200 <= code <= 299
                        /\ data <> JNull
                        /\ ((ConversationsHandler.is_complete data = false
                             /\ snd run
                                = ConversationsHandler.mkResponse 202
                                    (JObj [ (lit "ready", JBool false) ]))
                            \/ (ConversationsHandler.is_complete data = true
                                /\ exists entries : list JValue,
                                    ConversationsHandler.mapped_transcript data
                                    = Some entries
                                    /\ snd run
                                       = ConversationsHandler.mkResponse 200
                                           (JObj [ (lit "ready", JBool true);
                                                   (lit "transcript",
                                                    JArr entries) ])))))).
Proof.
  cbv zeta. unfold ConversationsHandler.handle_admitted.
  destruct (ConversationsHandler.CONVERSATION_ID_PATTERN id) eqn:Hid;
    cbn [negb]; [|now left].
  right.
  destruct ELEVENLABS_API_KEY as [[|c key]|]; [left; auto | | left; auto].
  right. exists (c :: key).
  split; [reflexivity|]. split; [reflexivity|]. split; [discriminate|].
  set (u := ConversationsHandler.conversation_url id).
  destruct (upstream u (c :: key)) as [|code json] eqn:Hup;
    [split; [reflexivity | now left]|].
  destruct (Z.eqb_spec code 404) as [->|Hcode];
    [split; [reflexivity|]; right; split; [discriminate | now left]|].
  destruct (Z.leb_spec 200 code) as [Hlo|Hlo]; cbn [andb negb];
    [|split; [reflexivity | now left]].
  destruct (Z.leb_spec code 299) as [Hhi|Hhi]; cbn [andb negb];
    [|split; [reflexivity | now left]].
  destruct json as [data|]; [|split; [reflexivity | now left]].
  assert (Hnull : data = JNull \/ data <> JNull)
    by (destruct data; [now left | right; discriminate ..]).
  destruct Hnull as [->|Hdata]; [split; [reflexivity | now left]|].
  assert (Hrun :
    match data with
    | JNull => ([u], ConversationsHandler.failed)
    | _ =>
        if ConversationsHandler.is_complete data
        then
          match ConversationsHandler.mapped_transcript data with
          | Some transcript =>
              ([u], ConversationsHandler.mkResponse 200
                      (JObj [ (lit "ready", JBool true);
                              (lit "transcript", JArr transcript) ]))
          | None => ([u], ConversationsHandler.failed)
          end
        else ([u], ConversationsHandler.mkResponse 202
                     (JObj [ (lit "ready", JBool false) ]))
    end
    = if ConversationsHandler.is_complete data
      then
        match ConversationsHandler.mapped_transcript data with
        | Some transcript =>
            ([u], ConversationsHandler.mkResponse 200
                    (JObj [ (lit "ready", JBool true);
                            (lit "transcript", JArr transcript) ]))
        | None => ([u], ConversationsHandler.failed)
        end
      else ([u], ConversationsHandler.mkResponse 202
                   (JObj [ (lit "ready", JBool false) ]))).
  { destruct data; [contradiction|reflexivity..]. }
  rewrite Hrun. clear Hrun.
  destruct (ConversationsHandler.is_complete data) eqn:Hcomplete.
  - destruct (ConversationsHandler.mapped_transcript data) as [entries|] eqn:Hmap;
      [|split; [reflexivity | now left]].
    split; [reflexivity|]. right. split; [discriminate|]. right.
    exists code, data. split; [reflexivity|]. split; [lia|].
    split; [exact Hdata|]. right. split; [exact Hcomplete|].
    now exists entries.
  - split; [reflexivity|]. right. split; [discriminate|]. right.
    exists code, data. split; [reflexivity|]. split; [lia|].
    split; [exact Hdata|]. left. now split.
Qed.

End RetrievalRoute.

Lemma conversation_id_pattern (id : list N) :
  ConversationsHandler.CONVERSATION_ID_PATTERN id = true
  <-> (10 <= length id <= 50)%nat /\ Forall (fun c => In c ID_ALPHABET) id.
Proof.
  unfold ConversationsHandler.CONVERSATION_ID_PATTERN.
  rewrite !andb_true_iff, !Nat.leb_le, forallb_forall, List.Forall_forall.
  split.
  - intros [[Hlo Hhi] Hall]. split; [lia|].
    intros c Hc. apply id_char_alphabet. now apply Hall.
  - intros [[Hlo Hhi] Hall]. split; [lia|].
    intros c Hc. apply id_char_alphabet. now apply Hall.
Qed.

(** X16. The retrieval route contacts the ElevenLabs API only for a
    conversation ID of ten to fifty letters, digits, underscores and
    hyphens, and only at the conversations URL followed by that ID; for
    any other ID it answers 400 (or 429 when the limiter denies) without
    contacting the API, whether or not the key is configured. *)
Theorem only_well_formed_ids_are_fetched
    (upstream : list N -> list N -> ConversationsHandler.Upstream)
    (ELEVENLABS_API_KEY : option (list N))
    (now : Z) (st : LimiterState) (forwardedFor : option (list N))
    (id : list N) :
  let run :=
    ConversationsHandler.GET upstream ELEVENLABS_API_KEY now st forwardedFor
      id in
  (forall u : list N,
      In u (snd (fst run)) ->
      u = lit "https://api.elevenlabs.io/v1/convai/conversations/" ++ id
      /\ (10 <= length id <= 50)%nat
      /\ Forall (fun c => In c ID_ALPHABET) id)
  /\ ((length id < 10)%nat \/ (50 < length id)%nat
      \/ (exists c : N, In c id /\ ~ In c ID_ALPHABET) ->
      snd (fst run) = []
      /\ (ConversationsHandler.status (snd run) = 400
          \/ ConversationsHandler.status (snd run) = 429)).
Proof.
  cbv zeta. rewrite GET_steps. cbv zeta.
  pose proof (retrieval_cases upstream ELEVENLABS_API_KEY id) as Hcases.
  cbv zeta in Hcases.
  destruct (ConversationsHandler.handle_admitted upstream ELEVENLABS_API_KEY id)
    as [fetched response]. cbn [fst snd] in Hcases.
  split.
  - intros u Hu.
    destruct (success _); cbn [fst snd] in Hu; [|destruct Hu].
    destruct Hcases as [[_ Hrun]|[(_ & _ & Hrun)|(key & Hid & _ & _ & -> & _)]];
      try (injection Hrun as -> _; destruct Hu).
    destruct Hu as [<-|[]].
    split; [reflexivity|]. now apply conversation_id_pattern.
  - intros Hbad.
    assert (Hid : ConversationsHandler.CONVERSATION_ID_PATTERN id = false).
    { apply Bool.not_true_is_false. intros Hid.
      apply conversation_id_pattern in Hid as [Hlen Hall].
      destruct Hbad as [Hshort|[Hlong|(c & Hc & Hout)]]; try lia.
      apply Hout. rewrite List.Forall_forall in Hall. now apply Hall. }
    destruct (success _); cbn [fst snd].
    + destruct Hcases as [[_ Hrun]|[(Hok & _)|(key & Hok & _)]];
        try congruence.
      injection Hrun as -> ->. split; [reflexivity | now left].
    + split; [reflexivity | now right].
Qed.

Lemma only_well_formed_ids_are_fetched_witness :
  snd (fst (ConversationsHandler.GET
              (fun _ _ => ConversationsHandler.Replied 200 None)
              (Some (lit "xi-test")) 0 Examples.fresh (Some Examples.ip)
              (lit "../../v1/user")))
  = []
  /\ (ConversationsHandler.status
        (snd (ConversationsHandler.GET
                (fun _ _ => ConversationsHandler.Replied 200 None)
                (Some (lit "xi-test")) 0 Examples.fresh (Some Examples.ip)
                (lit "../../v1/user")))
      = 400
      \/ ConversationsHandler.status
           (snd (ConversationsHandler.GET
                   (fun _ _ => ConversationsHandler.Replied 200 None)
                   (Some (lit "xi-test")) 0 Examples.fresh (Some Examples.ip)
                   (lit "../../v1/user")))
         = 429).
Proof.
  apply (only_well_formed_ids_are_fetched
           (fun _ _ => ConversationsHandler.Replied 200 None)
           (Some (lit "xi-test")) 0 Examples.fresh (Some Examples.ip)
           (lit "../../v1/user")).
  right. right. exists 46%N. split.
  - vm_compute. tauto.
  - vm_compute. intuition discriminate.
Defined.


Lemma assoc_head (k : list N) (v : JValue) (rest : list (list N * JValue)) :
  assoc ((k, v) :: rest) k = Some v.
Proof. cbn [assoc]. unfold str_eqb. now rewrite bool_decide_eq_true_2. Qed.

Lemma assoc_skip (k' k : list N) (v : JValue) (rest : list (list N * JValue)) :
  k' <> k -> assoc ((k', v) :: rest) k = assoc rest k.
Proof.
  intros Hne. cbn [assoc]. unfold str_eqb.
  now rewrite bool_decide_eq_false_2.
Qed.

Ltac keys_differ :=
  let H := fresh in intros H; vm_compute in H; discriminate H.

(** What the route makes of one entry of the upstream transcript. *)
Lemma map_entry_fields (raw o : JValue) :
  ConversationsHandler.map_entry raw = Some o ->
  raw <> JNull
  /\ (member o (lit "role") = Some (JStr (lit "agent"))
      \/ member o (lit "role") = Some (JStr (lit "user")))
  /\ (member o (lit "role") = Some (JStr (lit "agent"))
      <-> member raw (lit "role") = Some (JStr (lit "agent")))
  /\ member o (lit "message")
     = option_map ConversationsHandler.serialized (member raw (lit "message"))
  /\ member o (lit "timestamp")
     = option_map ConversationsHandler.serialized
         (member raw (lit "time_in_call_secs"))
  /\ (forall k : list N, ~ In k ENTRY_KEYS -> member o k = None).
Proof.
  intros Hmap.
  assert (Hnull : raw <> JNull) by (intros ->; discriminate Hmap).
  split; [exact Hnull|].
  assert (Ho : o = JObj ([ (lit "role",
                            JStr match member raw (lit "role") with
                                 | Some (JStr r) =>
                                     if str_eqb r (lit "agent")
                                     then lit "agent" else lit "user"
                                 | _ => lit "user"
                                 end) ]
                         ++ ConversationsHandler.property "message"
                              (member raw (lit "message"))
                         ++ ConversationsHandler.property "timestamp"
                              (member raw (lit "time_in_call_secs")))).
  { unfold ConversationsHandler.map_entry in Hmap.
    destruct raw; try contradiction; now injection Hmap as <-. }
  subst o. clear Hmap. cbn [member app].
  assert (Hrole : forall (r : list N) (rest : list (list N * JValue)),
             assoc ((lit "role", JStr r) :: rest) (lit "role")
             = Some (JStr r)) by (intros; apply assoc_head).
  rewrite Hrole.
  split; [|split; [|split; [|split]]].
  - destruct (member raw (lit "role")) as [[|?|?|r|?|?]|]; auto.
    destruct (str_eqb r (lit "agent")); auto.
  - destruct (member raw (lit "role")) as [[|?|?|r|?|?]|];
      try (split; intros H; vm_compute in H; discriminate H).
    unfold str_eqb. case_bool_decide as Hr.
    + subst r. tauto.
    + split; intros H; [vm_compute in H; discriminate H|].
      injection H as H. contradiction.
  - rewrite assoc_skip by keys_differ.
    destruct (member raw (lit "message")) as [m|]; cbn [ConversationsHandler.property app option_map].
    + apply assoc_head.
    + destruct (member raw (lit "time_in_call_secs")) as [t|];
        cbn [ConversationsHandler.property]; [|reflexivity].
      now rewrite assoc_skip by keys_differ.
  - rewrite assoc_skip by keys_differ.
    destruct (member raw (lit "message")) as [m|];
      cbn [ConversationsHandler.property app option_map].
    + rewrite assoc_skip by keys_differ.
      destruct (member raw (lit "time_in_call_secs")) as [t|];
        cbn [ConversationsHandler.property option_map]; [|reflexivity].
      apply assoc_head.
    + destruct (member raw (lit "time_in_call_secs")) as [t|];
        cbn [ConversationsHandler.property option_map]; [|reflexivity].
      apply assoc_head.
  - intros k Hk. unfold ENTRY_KEYS in Hk. cbn [In] in Hk.
    rewrite assoc_skip by tauto.
    destruct (member raw (lit "message")) as [m|];
      destruct (member raw (lit "time_in_call_secs")) as [t|];
      cbn [ConversationsHandler.property app];
      rewrite ?assoc_skip by tauto; reflexivity.
Qed.

Lemma map_entries_fields (raws : list JValue) :
  forall entries : list JValue,
    ConversationsHandler.map_entries raws = Some entries ->
    Forall2 (fun raw o => ConversationsHandler.map_entry raw = Some o)
            raws entries.
Proof.
  induction raws as [|raw raws IH]; intros entries Hmap; cbn in Hmap.
  - injection Hmap as <-. constructor.
  - destruct (ConversationsHandler.map_entry raw) as [o|] eqn:Ho;
      [|discriminate Hmap].
    destruct (ConversationsHandler.map_entries raws) as [os|];
      [|discriminate Hmap].
    injection Hmap as <-. constructor; [exact Ho | now apply IH].
Qed.

(** The shapes of the answers of the route. *)
Lemma retrieval_answers
    (upstream : list N -> list N -> ConversationsHandler.Upstream)
    (key : option (list N))
    (now : Z) (st : LimiterState) (forwardedFor : option (list N))
    (id : list N) :
  let response :=
    snd (ConversationsHandler.GET upstream key now st forwardedFor id) in
  (exists (apiKey : list N) (code : Z) (data : JValue) (entries : list JValue),
      key = Some apiKey
      /\ upstream (ConversationsHandler.conversation_url id) apiKey
         = ConversationsHandler.Replied code (Some data)
      /\ ConversationsHandler.is_complete data = true
      /\ ConversationsHandler.mapped_transcript data = Some entries
      /\ response
         = ConversationsHandler.mkResponse 200
             (JObj [ (lit "ready", JBool true);
                     (lit "transcript", JArr entries) ]))
  \/ response
     = ConversationsHandler.mkResponse 202 (JObj [ (lit "ready", JBool false) ])
  \/ (exists (code : Z) (message : list N),
         In (code, message) RETRIEVAL_FAILURES
         /\ response
            = ConversationsHandler.mkResponse code
                (JObj [ (lit "error", JStr message) ])).
Proof.
  cbv zeta. rewrite GET_steps. cbv zeta.
  pose proof (retrieval_cases upstream key id) as Hcases.
  cbv zeta in Hcases.
  destruct (ConversationsHandler.handle_admitted upstream key id)
    as [fetched response]. cbn [fst snd] in Hcases.
  assert (Hfailure : forall (code : Z) (message : string),
             In (code, lit message) RETRIEVAL_FAILURES ->
             exists (code' : Z) (message' : list N),
               In (code', message') RETRIEVAL_FAILURES
               /\ ConversationsHandler.error_response message code
                  = ConversationsHandler.mkResponse code'
                      (JObj [ (lit "error", JStr message') ])).
  { intros code message Hin. now exists code, (lit message). }
  destruct (success _); cbn [fst snd].
  - destruct Hcases
      as [[_ Hrun]|[(_ & _ & Hrun)|(apiKey & _ & Hkey & _ & _ & Hend)]].
    + injection Hrun as _ ->. right. right. apply Hfailure.
      unfold RETRIEVAL_FAILURES. right. now left.
    + injection Hrun as _ ->. right. right. apply Hfailure.
      unfold RETRIEVAL_FAILURES. right. right. now left.
    + destruct Hend
        as [->|[_ [->|(code & data & Hup & _ & _
                       & [[_ ->]|(Hdone & entries & Hmap & ->)])]]].
      * right. right. apply Hfailure.
        unfold RETRIEVAL_FAILURES. do 4 right. now left.
      * right. right. apply Hfailure.
        unfold RETRIEVAL_FAILURES. do 3 right. now left.
      * right. now left.
      * left. exists apiKey, code, data, entries. auto.
  - right. right. apply Hfailure. unfold RETRIEVAL_FAILURES. now left.
Qed.

(** X18. When the retrieval route answers 200, the ElevenLabs API has
    reported the conversation as done or finished, and the transcript of
    the answer has one entry for each entry of the upstream transcript,
    in order (none when the upstream transcript is missing or falsy):
    its role is "agent" when the upstream role is the string "agent" and
    "user" in every other case, its message and timestamp are the
    upstream [message] and [time_in_call_secs] when present, and it has
    no other property. *)
Theorem transcript_entries_normalised
    (upstream : list N -> list N -> ConversationsHandler.Upstream)
    (ELEVENLABS_API_KEY : option (list N))
    (now : Z) (st : LimiterState) (forwardedFor : option (list N))
    (id : list N) :
  let response :=
    snd (ConversationsHandler.GET upstream ELEVENLABS_API_KEY now st
           forwardedFor id) in
  ConversationsHandler.status response = 200 ->
  exists (apiKey : list N) (code : Z) (data : JValue) (entries : list JValue),
    ELEVENLABS_API_KEY = Some apiKey
    /\ upstream (lit "https://api.elevenlabs.io/v1/convai/conversations/" ++ id)
                apiKey
       = ConversationsHandler.Replied code (Some data)
    /\ (member data (lit "status") = Some (JStr (lit "done"))
        \/ member data (lit "status") = Some (JStr (lit "finished")))
    /\ ConversationsHandler.body response
       = JObj [ (lit "ready", JBool true); (lit "transcript", JArr entries) ]
    /\ Forall2
         (fun raw o =>
            raw <> JNull
            /\ (member o (lit "role") = Some (JStr (lit "agent"))
                \/ member o (lit "role") = Some (JStr (lit "user")))
            /\ (member o (lit "role") = Some (JStr (lit "agent"))
                <-> member raw (lit "role") = Some (JStr (lit "agent")))
            /\ member o (lit "message")
               = option_map ConversationsHandler.serialized
                   (member raw (lit "message"))
            /\ member o (lit "timestamp")
               = option_map ConversationsHandler.serialized
                   (member raw (lit "time_in_call_secs"))
            /\ (forall k : list N, ~ In k ENTRY_KEYS -> member o k = None))
         match member data (lit "transcript") with
         | Some (JArr raws) => raws
         | _ => []
         end
         entries.
Proof.
  cbv zeta. intros Hstatus.
  destruct (retrieval_answers upstream ELEVENLABS_API_KEY now st forwardedFor id)
    as [(apiKey & code & data & entries & Hkey & Hup & Hdone & Hmap & Hresponse)
       |[Hresponse|(code & message & Hin & Hresponse)]];
    rewrite Hresponse in Hstatus |- *; cbn [ConversationsHandler.status] in Hstatus.
  - exists apiKey, code, data, entries.
    split; [exact Hkey|]. split; [exact Hup|]. split; [|split; [reflexivity|]].
    + unfold ConversationsHandler.is_complete in Hdone.
      destruct (member data (lit "status")) as [[|?|?|s|?|?]|];
        try discriminate Hdone.
      apply orb_true_iff in Hdone as [Hs|Hs];
        unfold str_eqb in Hs; apply bool_decide_eq_true in Hs; subst s; auto.
    + unfold ConversationsHandler.mapped_transcript in Hmap.
      assert (Hraws : Forall2 (fun raw o =>
                                 ConversationsHandler.map_entry raw = Some o)
                        match member data (lit "transcript") with
                        | Some (JArr raws) => raws
                        | _ => []
                        end entries).
      { destruct (truthy (member data (lit "transcript"))) eqn:Htruthy.
        - destruct (member data (lit "transcript")) as [[|?|?|?|raws|?]|];
            try discriminate Hmap.
          now apply map_entries_fields.
        - injection Hmap as <-.
          destruct (member data (lit "transcript")) as [[|?|?|?|raws|?]|];
            try constructor.
          discriminate Htruthy. }
      eapply Forall2_impl; [exact Hraws|].
      intros raw o Ho. now apply map_entry_fields.
  - discriminate Hstatus.
  - unfold RETRIEVAL_FAILURES in Hin. cbn [In] in Hin.
    exfalso. intuition congruence.
Qed.

Lemma transcript_entries_normalised_witness :
  exists (apiKey : list N) (code : Z) (data : JValue) (entries : list JValue),
    Some (lit "xi-test") = Some apiKey
    /\ Upstreams.api
         (lit "https://api.elevenlabs.io/v1/convai/conversations/"
          ++ Examples.conversation) apiKey
       = ConversationsHandler.Replied code (Some data)
    /\ (member data (lit "status") = Some (JStr (lit "done"))
        \/ member data (lit "status") = Some (JStr (lit "finished")))
    /\ ConversationsHandler.body
         (snd (ConversationsHandler.GET Upstreams.api (Some (lit "xi-test")) 0
                 Examples.fresh (Some Examples.ip) Examples.conversation))
       = JObj [ (lit "ready", JBool true); (lit "transcript", JArr entries) ]
    /\ Forall2
         (fun raw o =>
            raw <> JNull
            /\ (member o (lit "role") = Some (JStr (lit "agent"))
                \/ member o (lit "role") = Some (JStr (lit "user")))
            /\ (member o (lit "role") = Some (JStr (lit "agent"))
                <-> member raw (lit "role") = Some (JStr (lit "agent")))
            /\ member o (lit "message")
               = option_map ConversationsHandler.serialized
                   (member raw (lit "message"))
            /\ member o (lit "timestamp")
               = option_map ConversationsHandler.serialized
                   (member raw (lit "time_in_call_secs"))
            /\ (forall k : list N, ~ In k ENTRY_KEYS -> member o k = None))
         match member data (lit "transcript") with
         | Some (JArr raws) => raws
         | _ => []
         end
         entries.
Proof.
  apply (transcript_entries_normalised Upstreams.api (Some (lit "xi-test")) 0
           Examples.fresh (Some Examples.ip) Examples.conversation).
  vm_compute. reflexivity.
Defined.

(** X19. The client and the route fit together: a retrieval whose polls
    are answered by the retrieval route (or lost on the network) ends
    with a transcript that is an array, with the message of one of the
    route's errors, with the network error or with the not-yet-available
    error; the client never meets a response it does not understand and
    never has to fall back on the bare status code. *)
Theorem client_understands_route (source : nat -> FetchResult) (id : list N) :
  (forall i : nat,
      (i < MAX_ATTEMPTS)%nat ->
      source i = NetworkFailure
      \/ exists (upstream : list N -> list N -> ConversationsHandler.Upstream)
                (key : option (list N)) (now : Z) (st : LimiterState)
                (forwardedFor : option (list N)) (id' : list N),
          source i
          = ConversationsHandler.as_fetched
              (snd (ConversationsHandler.GET upstream key now st forwardedFor
                      id'))) ->
  match snd (fetchTranscript source id) with
  | Ok transcript => exists entries : list JValue, transcript = Some (JArr entries)
  | Throw NetworkError => True
  | Throw NotYetAvailable => True
  | Throw UnexpectedResponse => False
  | Throw (HttpError code message) =>
      exists m : list N,
        message = Some (JStr m) /\ In (code, m) RETRIEVAL_FAILURES
  end.
Proof.
  intros Hserved.
  destruct (first_decisive source MAX_ATTEMPTS)
    as [Hall|(k & Hk & Hend & Hbefore)].
  - rewrite poll_all_retry by exact Hall. exact I.
  - unfold fetchTranscript.
    rewrite (poll_until_decisive source id k Hk Hend MAX_ATTEMPTS 0)
      by (try lia; intros i Hi; apply Hbefore; lia).
    cbn [snd].
    destruct (Hserved k Hk)
      as [Hlost|(upstream & key & now & st & fwd & id' & Hroute)].
    + rewrite Hlost. exact I.
    + rewrite Hroute in Hend |- *.
      destruct (retrieval_answers upstream key now st fwd id')
        as [(apiKey & code & data & entries & _ & _ & _ & _ & Hresponse)
           |[Hresponse|(code & message & Hin & Hresponse)]];
        rewrite Hresponse in Hend |- *.
      * exists entries. reflexivity.
      * discriminate Hend.
      * unfold RETRIEVAL_FAILURES in Hin. cbn [In] in Hin.
        destruct Hin as [Heq|[Heq|[Heq|[Heq|[Heq|[]]]]]];
          injection Heq as <- <-;
          (eexists; split; [reflexivity|]);
          unfold RETRIEVAL_FAILURES; cbn [In]; tauto.
Qed.

Lemma client_understands_route_witness :
  match snd (fetchTranscript Upstreams.route Examples.conversation) with
  | Ok transcript => exists entries : list JValue, transcript = Some (JArr entries)
  | Throw NetworkError => True
  | Throw NotYetAvailable => True
  | Throw UnexpectedResponse => False
  | Throw (HttpError code message) =>
      exists m : list N,
        message = Some (JStr m) /\ In (code, m) RETRIEVAL_FAILURES
  end.
Proof.
  apply (client_understands_route Upstreams.route Examples.conversation).
  intros i Hi. right.
  exists Upstreams.api, (Some (lit "xi-test")), 0, Examples.fresh,
    (Some Examples.ip), Examples.conversation.
  reflexivity.
Defined.

(** ** The page *)

Lemma render_queue (h : Wizard.Hook) : Wizard.queue (Wizard.render h) = [].
Proof. reflexivity. Qed.

Lemma render_render (h : Wizard.Hook) :
  Wizard.render (Wizard.render h) = Wizard.render h.
Proof. reflexivity. Qed.

Lemma render_failed (message : list N) (h : Wizard.Hook) :
  Wizard.stateRef (Wizard.render (Page.failed message h))
  = let s := Wizard.stateRef (Wizard.render h) in
    Wizard.mkWizardState (Wizard.step s) (Wizard.cvText s)
      (Wizard.cvFileName s) (Wizard.conversationId s) (Wizard.transcript s)
      (Wizard.results s) None (Some message) (Wizard.loading s).
Proof.
  unfold Page.failed, Wizard.setAnalysisPhase, Wizard.setError.
  now rewrite !render_setState.
Qed.

Lemma render_started (h : Wizard.Hook) :
  Wizard.stateRef
    (Wizard.render (Wizard.setAnalysisPhase (Some Phase1)
                      (Wizard.setStep analysis h)))
  = let s := Wizard.stateRef (Wizard.render h) in
    Wizard.mkWizardState analysis (Wizard.cvText s) (Wizard.cvFileName s)
      (Wizard.conversationId s) (Wizard.transcript s) (Wizard.results s)
      (Some Phase1) None (Wizard.loading s).
Proof.
  unfold Wizard.setAnalysisPhase, Wizard.setStep.
  now rewrite !render_setState.
Qed.

Lemma render_retrieved (transcript : option JValue) (h : Wizard.Hook) :
  Wizard.stateRef
    (Wizard.render (Wizard.setAnalysisPhase (Some Phase2)
                      (Wizard.setTranscript transcript h)))
  = let s := Wizard.stateRef (Wizard.render h) in
    Wizard.mkWizardState (Wizard.step s) (Wizard.cvText s)
      (Wizard.cvFileName s) (Wizard.conversationId s) transcript
      (Wizard.results s) (Some Phase2) (Wizard.error s) (Wizard.loading s).
Proof.
  unfold Wizard.setAnalysisPhase, Wizard.setTranscript.
  now rewrite !render_setState.
Qed.

Lemma render_scored (results : ScoringResults) (h : Wizard.Hook) :
  Wizard.stateRef
    (Wizard.render
       (Wizard.setStep results_step
          (Wizard.render (Wizard.setAnalysisPhase (Some Phase3)
                            (Wizard.setResults (Some results) h)))))
  = let s := Wizard.stateRef (Wizard.render h) in
    Wizard.mkWizardState results_step (Wizard.cvText s)
      (Wizard.cvFileName s) (Wizard.conversationId s) (Wizard.transcript s)
      (Some results) (Some Phase3) None (Wizard.loading s).
Proof.
  unfold Wizard.setAnalysisPhase, Wizard.setResults, Wizard.setStep.
  rewrite render_setState, render_render. now rewrite !render_setState.
Qed.

(** A transcript that can be formatted is an array. *)
Lemma transcriptText_array (ToString TypeError_message : option JValue -> list N)
    (transcript : option JValue) (text : list N) :
  Page.transcriptText ToString TypeError_message transcript = Ok text ->
  exists entries : list JValue, transcript = Some (JArr entries).
Proof.
  unfold Page.transcriptText.
  destruct transcript as [[| | | |entries|]|]; try discriminate.
  intros _. now exists entries.
Qed.

Section Analysis.

Variable ToString : option JValue -> list N.
Variable TypeError_message : option JValue -> list N.
Variable retrieve : list N -> result FetchError (option JValue).
Variable score : JValue -> Page.ScoreResponse.

(** The two ways the pipeline settles. *)
Lemma pipeline_cases (id : list N) (h : Wizard.Hook) :
  let run :=
    Page.runAnalysisPipeline ToString TypeError_message retrieve score id h in
  let before := Wizard.stateRef (Wizard.render h) in
  let final := Wizard.stateRef (snd run) in
  (exists (transcript : option JValue) (text : list N)
          (results : ScoringResults),
      retrieve id = Ok transcript
      /\ Page.transcriptText ToString TypeError_message transcript = Ok text
      /\ score (JObj [ (lit "cvText",
                        JStr (default [] (Wizard.cvText before)));
                       (lit "transcript", JStr text) ])
         = Page.Accepted results
      /\ fst run
         = [ Page.Retrieve id;
             Page.Score (JObj [ (lit "cvText",
                                 JStr (default [] (Wizard.cvText before)));
                                (lit "transcript", JStr text) ]);
             Page.Wait 800 ]
      /\ final
         = Wizard.mkWizardState results_step (Wizard.cvText before)
             (Wizard.cvFileName before) (Wizard.conversationId before)
             transcript (Some results) (Some Phase3) None
             (Wizard.loading before))
  \/ (exists (message : list N) (kept : option JValue),
         (fst run = [Page.Retrieve id]
          \/ exists body : JValue,
              fst run = [Page.Retrieve id; Page.Score body]
              /\ match score body with
                 | Page.Rejected m | Page.Unreadable m => message = m
                 | Page.Refused status json =>
                     message
                     = Page.refusal_message ToString TypeError_message status
                         json
                 | Page.Accepted _ => False
                 end)
         /\ final
            = Wizard.mkWizardState analysis (Wizard.cvText before)
                (Wizard.cvFileName before) (Wizard.conversationId before)
                kept (Wizard.results before) None (Some message)
                (Wizard.loading before)).
Proof.
  cbv zeta. unfold Page.runAnalysisPipeline.
  set (h1 := Wizard.render (Wizard.setAnalysisPhase (Some Phase1)
                              (Wizard.setStep analysis h))).
  assert (H1 : Wizard.stateRef (Wizard.render h1)
               = Wizard.stateRef h1) by reflexivity.
  pose proof (render_started h) as Hstart. cbv zeta in Hstart.
  fold h1 in Hstart.
  destruct (retrieve id) as [transcript|e].
  - destruct (Page.transcriptText ToString TypeError_message transcript)
      as [text|message] eqn:Htext.
    + assert (Hsnap :
        Wizard.cvText
          (Wizard.stateRef
             (Wizard.setAnalysisPhase (Some Phase2)
                (Wizard.setTranscript transcript h1)))
        = Wizard.cvText (Wizard.stateRef (Wizard.render h))).
      { change (Wizard.stateRef
                  (Wizard.setAnalysisPhase (Some Phase2)
                     (Wizard.setTranscript transcript h1)))
          with (Wizard.stateRef h1).
        now rewrite Hstart. }
      rewrite !Hsnap.
      set (body := JObj [ (lit "cvText",
                           JStr (default []
                                   (Wizard.cvText
                                      (Wizard.stateRef (Wizard.render h)))));
                          (lit "transcript", JStr text) ]).
      destruct (score body) as [m|results|m|status json] eqn:Hscore;
        cbn [fst snd].
      * right. exists m, transcript. split.
        -- right. exists body. rewrite Hscore. now split.
        -- rewrite render_failed, render_render, render_retrieved, H1, Hstart.
           reflexivity.
      * left. exists transcript, text, results.
        split; [reflexivity|]. split; [exact Htext|]. split; [exact Hscore|].
        split; [reflexivity|].
        rewrite render_scored, render_render, render_retrieved, H1, Hstart.
        reflexivity.
      * right. exists m, transcript. split.
        -- right. exists body. rewrite Hscore. now split.
        -- rewrite render_failed, render_render, render_retrieved, H1, Hstart.
           reflexivity.
      * right.
        exists (Page.refusal_message ToString TypeError_message status json),
          transcript.
        split.
        -- right. exists body. rewrite Hscore. now split.
        -- rewrite render_failed, render_render, render_retrieved, H1, Hstart.
           reflexivity.
    + right. exists message, transcript. cbn [fst snd].
      split; [now left|].
      rewrite render_failed, render_retrieved, H1, Hstart. reflexivity.
  - right.
    exists (Page.retrieval_message ToString e),
      (Wizard.transcript (Wizard.stateRef (Wizard.render h))).
    cbn [fst snd]. split; [now left|].
    rewrite render_failed, H1, Hstart. reflexivity.
Qed.

End Analysis.

Section Scoring.

Variable ToString : option JValue -> list N.
Variable TypeError_message : option JValue -> list N.
Variable retrieve : list N -> result FetchError (option JValue).
Variable score : JValue -> Page.ScoreResponse.

(** The pipeline once the transcript is retrieved and formatted. *)
Lemma pipeline_after_formatting (id : list N) (h : Wizard.Hook)
    (transcript : option JValue) (text : list N) :
  retrieve id = Ok transcript ->
  Page.transcriptText ToString TypeError_message transcript = Ok text ->
  let run :=
    Page.runAnalysisPipeline ToString TypeError_message retrieve score id h in
  let before := Wizard.stateRef (Wizard.render h) in
  let body :=
    JObj [ (lit "cvText", JStr (default [] (Wizard.cvText before)));
           (lit "transcript", JStr text) ] in
  let stopped (message : list N) :=
    Wizard.mkWizardState analysis (Wizard.cvText before)
      (Wizard.cvFileName before) (Wizard.conversationId before) transcript
      (Wizard.results before) None (Some message) (Wizard.loading before) in
  fst run
  = [Page.Retrieve id; Page.Score body]
    ++ match score body with
       | Page.Accepted _ => [Page.Wait 800]
       | _ => []
       end
  /\ Wizard.stateRef (snd run)
     = match score body with
       | Page.Accepted results =>
           Wizard.mkWizardState results_step (Wizard.cvText before)
             (Wizard.cvFileName before) (Wizard.conversationId before)
             transcript (Some results) (Some Phase3) None
             (Wizard.loading before)
       | Page.Rejected m | Page.Unreadable m => stopped m
       | Page.Refused status json =>
           stopped (Page.refusal_message ToString TypeError_message status json)
       end.
Proof.
  intros Hretrieve Htext. cbv zeta.
  pose proof (pipeline_cases ToString TypeError_message retrieve score id h)
    as Hcases. cbv zeta in Hcases.
  unfold Page.runAnalysisPipeline in *.
  rewrite Hretrieve, Htext in *.
  set (h1 := Wizard.render (Wizard.setAnalysisPhase (Some Phase1)
                              (Wizard.setStep analysis h))) in *.
  assert (Hsnap :
    Wizard.cvText
      (Wizard.stateRef
         (Wizard.setAnalysisPhase (Some Phase2)
            (Wizard.setTranscript transcript h1)))
    = Wizard.cvText (Wizard.stateRef (Wizard.render h))).
  { change (Wizard.stateRef
              (Wizard.setAnalysisPhase (Some Phase2)
                 (Wizard.setTranscript transcript h1)))
      with (Wizard.stateRef h1).
    subst h1. now rewrite render_started. }
  rewrite !Hsnap in *.
  set (body := JObj [ (lit "cvText",
                       JStr (default []
                               (Wizard.cvText
                                  (Wizard.stateRef (Wizard.render h)))));
                      (lit "transcript", JStr text) ]) in *.
  destruct Hcases
    as [(t & x & results & Ht & Hx & Hscore & Hrun & Hfinal)
       |(message & kept & Hrun & Hfinal)].
  - injection Ht as <-. rewrite Htext in Hx. injection Hx as <-.
    fold body in Hscore.
    rewrite Hscore in *. cbn [fst snd] in *. now split.
  - destruct (score body) as [m|results|m|status json] eqn:Hscore;
      cbn [fst snd] in *.
    + split; [reflexivity|].
      rewrite render_failed, render_render, render_retrieved.
      subst h1. rewrite render_render, render_started. reflexivity.
    + exfalso. destruct Hrun as [Hrun|(b & Hrun & Hend)]; [discriminate Hrun|].
      injection Hrun as <-. fold body in Hend. now rewrite Hscore in Hend.
    + split; [reflexivity|].
      rewrite render_failed, render_render, render_retrieved.
      subst h1. rewrite render_render, render_started. reflexivity.
    + split; [reflexivity|].
      rewrite render_failed, render_render, render_retrieved.
      subst h1. rewrite render_render, render_started. reflexivity.
Qed.

End Scoring.

(** X20. The analysis pipeline settles in one of two states only.
    Unless it reaches the results step, it leaves the wizard on the
    analysis step with no phase and an error message, for which the page
    renders no step component at all, and dismissing the banner leaves
    the card empty; the results, the CV, its file name and the
    conversation ID are as they were, and no scoring request follows a
    failed retrieval. *)
Theorem failed_analysis_leaves_an_empty_card
    (ToString TypeError_message : option JValue -> list N)
    (retrieve : list N -> result FetchError (option JValue))
    (score : JValue -> Page.ScoreResponse)
    (id : list N) (h : Wizard.Hook) :
  let run :=
    Page.runAnalysisPipeline ToString TypeError_message retrieve score id h in
  let before := Wizard.stateRef (Wizard.render h) in
  let final := Wizard.stateRef (snd run) in
  Wizard.step final <> results_step ->
  Wizard.step final = analysis
  /\ Wizard.analysisPhase final = None
  /\ (exists message : list N, Wizard.error final = Some message)
  /\ Page.view final = Page.Nothing
  /\ Page.view (Wizard.stateRef (Wizard.render (Wizard.setError None (snd run))))
     = Page.Nothing
  /\ Wizard.results final = Wizard.results before
  /\ Wizard.cvText final = Wizard.cvText before
  /\ Wizard.cvFileName final = Wizard.cvFileName before
  /\ Wizard.conversationId final = Wizard.conversationId before
  /\ (forall e : FetchError,
         retrieve id = Throw e -> fst run = [Page.Retrieve id]).
Proof.
  cbv zeta. intros Hstep.
  pose proof (pipeline_cases ToString TypeError_message retrieve score id h)
    as Hcases. cbv zeta in Hcases.
  destruct Hcases
    as [(t & x & results & _ & _ & _ & _ & Hfinal)
       |(message & kept & Hrun & Hfinal)].
  - rewrite Hfinal in Hstep. cbn in Hstep. contradiction.
  - assert (Hdismiss :
      Wizard.stateRef (Wizard.render
                         (Wizard.setError None
                            (Page.runAnalysisPipeline ToString TypeError_message
                               retrieve score id h).2))
      = Wizard.mkWizardState analysis
          (Wizard.cvText (Wizard.stateRef (Wizard.render h)))
          (Wizard.cvFileName (Wizard.stateRef (Wizard.render h)))
          (Wizard.conversationId (Wizard.stateRef (Wizard.render h)))
          kept (Wizard.results (Wizard.stateRef (Wizard.render h)))
          None None (Wizard.loading (Wizard.stateRef (Wizard.render h)))).
    { unfold Wizard.setError. rewrite render_setState.
      assert (Hsettled :
        Wizard.render (Page.runAnalysisPipeline ToString TypeError_message
                         retrieve score id h).2
        = (Page.runAnalysisPipeline ToString TypeError_message
             retrieve score id h).2).
      { unfold Page.runAnalysisPipeline.
        destruct (retrieve id); [|reflexivity].
        destruct (Page.transcriptText _ _ _); [|reflexivity].
        now destruct (score _). }
      rewrite Hsettled, Hfinal. reflexivity. }
    rewrite Hdismiss, Hfinal. cbn.
    repeat (split; [first [reflexivity | now exists message]|]).
    intros e He. unfold Page.runAnalysisPipeline. now rewrite He.
Qed.

Lemma failed_analysis_leaves_an_empty_card_witness :
  Wizard.step
    (Wizard.stateRef
       (snd (Page.runAnalysisPipeline Sessions.ToString
               Sessions.TypeError_message Sessions.unavailable Sessions.scorer
               Examples.conversation Sessions.interviewing)))
  = analysis
  /\ Wizard.analysisPhase
       (Wizard.stateRef
          (snd (Page.runAnalysisPipeline Sessions.ToString
                  Sessions.TypeError_message Sessions.unavailable
                  Sessions.scorer Examples.conversation
                  Sessions.interviewing)))
     = None.
Proof.
  pose proof (failed_analysis_leaves_an_empty_card Sessions.ToString
                Sessions.TypeError_message Sessions.unavailable Sessions.scorer
                Examples.conversation Sessions.interviewing) as Hempty.
  cbv zeta in Hempty.
  destruct Hempty as (Hstep & Hphase & _).
  - vm_compute. discriminate.
  - split; [exact Hstep | exact Hphase].
Defined.

(** X21. When the transcript is retrieved and formatted and the scoring
    route answers with results, the pipeline has retrieved, then posted
    once the CV text of the latest render (the empty string when there
    is none) with the formatted transcript, then waited 800 ms; the
    wizard is on the results step with the transcript as retrieved and
    the results as received, the error cleared and everything else
    untouched, and the page renders the results. *)
Theorem successful_analysis_shows_results
    (ToString TypeError_message : option JValue -> list N)
    (retrieve : list N -> result FetchError (option JValue))
    (score : JValue -> Page.ScoreResponse)
    (id : list N) (h : Wizard.Hook)
    (transcript : option JValue) (text : list N) (results : ScoringResults) :
  let run :=
    Page.runAnalysisPipeline ToString TypeError_message retrieve score id h in
  let before := Wizard.stateRef (Wizard.render h) in
  let final := Wizard.stateRef (snd run) in
  let body :=
    JObj [ (lit "cvText", JStr (default [] (Wizard.cvText before)));
           (lit "transcript", JStr text) ] in
  retrieve id = Ok transcript ->
  Page.transcriptText ToString TypeError_message transcript = Ok text ->
  score body = Page.Accepted results ->
  fst run = [Page.Retrieve id; Page.Score body; Page.Wait 800]
  /\ final
     = Wizard.mkWizardState results_step (Wizard.cvText before)
         (Wizard.cvFileName before) (Wizard.conversationId before)
         transcript (Some results) (Some Phase3) None (Wizard.loading before)
  /\ Page.view final = Page.Results results transcript
  /\ Page.banner final = None.
Proof.
  cbv zeta. intros Hretrieve Htext Hscore.
  destruct (pipeline_after_formatting ToString TypeError_message retrieve score
              id h transcript text Hretrieve Htext) as [Hrun Hfinal].
  rewrite Hscore in Hrun, Hfinal. rewrite Hrun, Hfinal.
  split; [reflexivity|]. split; [reflexivity|].
  destruct (transcriptText_array _ _ _ _ Htext) as [entries ->].
  split; reflexivity.
Qed.

Lemma successful_analysis_shows_results_witness :
  Page.banner
    (Wizard.stateRef
       (snd (Page.runAnalysisPipeline Sessions.ToString
               Sessions.TypeError_message Sessions.retrieved Sessions.scorer
               Examples.conversation Sessions.interviewing)))
  = None.
Proof.
  edestruct (successful_analysis_shows_results Sessions.ToString
               Sessions.TypeError_message Sessions.retrieved Sessions.scorer
               Examples.conversation Sessions.interviewing)
    as (_ & _ & _ & Hbanner); [| | |exact Hbanner].
  - vm_compute. reflexivity.
  - vm_compute. reflexivity.
  - vm_compute. reflexivity.
Defined.

Lemma scoring_failure_message (code : Z) (message : list N) :
  In (code, message) SCORING_FAILURES ->
  code <> 200 /\ message <> [].
Proof.
  unfold SCORING_FAILURES. cbn [In].
  intros [H|[H|[H|[H|[H|[H|[H|[H|[]]]]]]]]]; injection H as <- <-;
    split; discriminate.
Qed.

(** The answers of the scoring route: results with 200, or one of the
    fixed failures. *)
Lemma scoring_route_payload
    (JSON_parse : list N -> option JValue)
    (messages_create : list N -> option (list ContentBlock))
    (key : option (list N)) (now : Z) (st : LimiterState) (req : Request) :
  let run := POST JSON_parse messages_create key now st req in
  match payload (snd run) with
  | ResultsBody _ => status (snd run) = 200 /\ length (snd (fst run)) = 1%nat
  | ErrorBody message => In (status (snd run), message) SCORING_FAILURES
  end.
Proof.
  cbv zeta. rewrite POST_steps. cbv zeta.
  destruct (success (snd (rateLimit now _ 30 60000 _ st))); cbn [fst snd].
  - pose proof (handle_admitted_cases JSON_parse messages_create key req)
      as Hcases. cbv zeta in Hcases.
    destruct (handle_admitted JSON_parse messages_create key req)
      as [calls response]. cbn [fst snd] in *.
    destruct Hcases
      as [(-> & code & message & -> & Htable & _ & _)
         |(pl & t & _ & _ & -> & Hend)].
    + exact Htable.
    + destruct Hend as [->|[->|(blocks & parsed & results & _ & _ & _ & ->)]];
        cbn [status payload length unexpected_error failed_to_score
             error_response];
        [| |now split];
        unfold SCORING_FAILURES; repeat first [left; reflexivity | right].
  - cbn [status payload error_response].
    unfold SCORING_FAILURES. now left.
Qed.

(** X22. The page and the scoring route fit together: when the route
    refuses the request the pipeline posts, with whatever status, the
    wizard's error is the route's own message for that status, the banner
    shows it, and the page renders no step component. *)
Theorem page_shows_the_routes_refusal
    (JSON_parse : list N -> option JValue)
    (messages_create : list N -> option (list ContentBlock))
    (key : option (list N)) (now : Z) (st : LimiterState)
    (forwardedFor : option (list N))
    (ToString TypeError_message : option JValue -> list N)
    (retrieve : list N -> result FetchError (option JValue))
    (id : list N) (h : Wizard.Hook)
    (transcript : option JValue) (text : list N) :
  let score :=
    scoring_route JSON_parse messages_create key now st forwardedFor in
  let run :=
    Page.runAnalysisPipeline ToString TypeError_message retrieve score id h in
  let before := Wizard.stateRef (Wizard.render h) in
  let final := Wizard.stateRef (snd run) in
  let response :=
    snd (POST JSON_parse messages_create key now st
           (mkRequest forwardedFor
              (Some (JObj [ (lit "cvText",
                             JStr (default [] (Wizard.cvText before)));
                            (lit "transcript", JStr text) ])))) in
  retrieve id = Ok transcript ->
  Page.transcriptText ToString TypeError_message transcript = Ok text ->
  status response <> 200 ->
  exists message : list N,
    payload response = ErrorBody message
    /\ In (status response, message) SCORING_FAILURES
    /\ Wizard.error final = Some message
    /\ Page.banner final = Some message
    /\ Page.view final = Page.Nothing.
Proof.
  cbv zeta. intros Hretrieve Htext Hstatus.
  destruct (pipeline_after_formatting ToString TypeError_message retrieve
              (scoring_route JSON_parse messages_create key now st forwardedFor)
              id h transcript text Hretrieve Htext) as [_ Hfinal].
  rewrite Hfinal. clear Hfinal. unfold scoring_route.
  pose proof (scoring_route_payload JSON_parse messages_create key now st
                (mkRequest forwardedFor
                   (Some (JObj [ (lit "cvText",
                                  JStr (default []
                                          (Wizard.cvText
                                             (Wizard.stateRef
                                                (Wizard.render h)))));
                                 (lit "transcript", JStr text) ]))))
    as Hpayload. cbv zeta in Hpayload.
  destruct (payload _) as [message|results]; [|now destruct Hpayload].
  exists message. split; [reflexivity|]. split; [exact Hpayload|].
  destruct (scoring_failure_message _ _ Hpayload) as [_ Hmessage].
  destruct message as [|c message]; [contradiction|].
  repeat split.
Qed.

Lemma page_shows_the_routes_refusal_witness :
  exists message : list N,
    payload
      (snd (POST Json.parse Examples.collaborator (Some (lit "sk-test")) 0
              Examples.fresh
              (mkRequest (Some Examples.ip)
                 (Some (JObj [ (lit "cvText",
                                JStr (default []
                                        (Wizard.cvText
                                           (Wizard.stateRef
                                              (Wizard.render
                                                 Sessions.interviewing)))));
                               (lit "transcript", JStr []) ])))))
    = ErrorBody message
    /\ In (status
             (snd (POST Json.parse Examples.collaborator (Some (lit "sk-test"))
                     0 Examples.fresh
                     (mkRequest (Some Examples.ip)
                        (Some (JObj [ (lit "cvText",
                                       JStr (default []
                                               (Wizard.cvText
                                                  (Wizard.stateRef
                                                     (Wizard.render
                                                        Sessions.interviewing)))));
                                      (lit "transcript", JStr []) ]))))),
           message) SCORING_FAILURES
    /\ Wizard.error
         (Wizard.stateRef
            (snd (Page.runAnalysisPipeline Sessions.ToString
                    Sessions.TypeError_message Sessions.silent
                    (scoring_route Json.parse Examples.collaborator
                       (Some (lit "sk-test")) 0 Examples.fresh
                       (Some Examples.ip))
                    Examples.conversation Sessions.interviewing)))
       = Some message
    /\ Page.banner
         (Wizard.stateRef
            (snd (Page.runAnalysisPipeline Sessions.ToString
                    Sessions.TypeError_message Sessions.silent
                    (scoring_route Json.parse Examples.collaborator
                       (Some (lit "sk-test")) 0 Examples.fresh
                       (Some Examples.ip))
                    Examples.conversation Sessions.interviewing)))
       = Some message
    /\ Page.view
         (Wizard.stateRef
            (snd (Page.runAnalysisPipeline Sessions.ToString
                    Sessions.TypeError_message Sessions.silent
                    (scoring_route Json.parse Examples.collaborator
                       (Some (lit "sk-test")) 0 Examples.fresh
                       (Some Examples.ip))
                    Examples.conversation Sessions.interviewing)))
       = Page.Nothing.
Proof.
  apply (page_shows_the_routes_refusal Json.parse Examples.collaborator
           (Some (lit "sk-test")) 0 Examples.fresh (Some Examples.ip)
           Sessions.ToString Sessions.TypeError_message Sessions.silent
           Examples.conversation Sessions.interviewing (Some (JArr [])) []).
  - reflexivity.
  - reflexivity.
  - vm_compute. discriminate.
Defined.

(** X23. A conversation in which nothing was said cannot be scored: the
    page posts an empty transcript, the scoring route refuses it without
    calling the collaborator, and the wizard ends on the empty analysis
    card with the message that the transcript is required (or, when the
    limiter denies, that there were too many requests). *)
Theorem silent_conversation_is_not_scored
    (JSON_parse : list N -> option JValue)
    (messages_create : list N -> option (list ContentBlock))
    (key : option (list N)) (now : Z) (st : LimiterState)
    (forwardedFor : option (list N))
    (ToString TypeError_message : option JValue -> list N)
    (retrieve : list N -> result FetchError (option JValue))
    (id : list N) (h : Wizard.Hook) :
  let score :=
    scoring_route JSON_parse messages_create key now st forwardedFor in
  let run :=
    Page.runAnalysisPipeline ToString TypeError_message retrieve score id h in
  let before := Wizard.stateRef (Wizard.render h) in
  let final := Wizard.stateRef (snd run) in
  let served :=
    POST JSON_parse messages_create key now st
      (mkRequest forwardedFor
         (Some (JObj [ (lit "cvText", JStr (default [] (Wizard.cvText before)));
                       (lit "transcript", JStr []) ]))) in
  retrieve id = Ok (Some (JArr [])) ->
  fst run
  = [ Page.Retrieve id;
      Page.Score (JObj [ (lit "cvText",
                          JStr (default [] (Wizard.cvText before)));
                         (lit "transcript", JStr []) ]) ]
  /\ snd (fst served) = []
  /\ (Wizard.error final = Some (lit "Interview transcript is required")
      \/ Wizard.error final
         = Some (lit "Too many requests. Please wait a moment and try again."))
  /\ Page.view final = Page.Nothing.
Proof.
  cbv zeta. intros Hretrieve.
  destruct (pipeline_after_formatting ToString TypeError_message retrieve
              (scoring_route JSON_parse messages_create key now st forwardedFor)
              id h (Some (JArr [])) [] Hretrieve eq_refl) as [Hrun Hfinal].
  rewrite Hrun, Hfinal. clear Hrun Hfinal. unfold scoring_route.
  rewrite POST_steps. cbv zeta.
  destruct (success _); cbn [fst snd]; repeat split; auto.
Qed.

Lemma silent_conversation_is_not_scored_witness :
  Page.view
    (Wizard.stateRef
       (snd (Page.runAnalysisPipeline Sessions.ToString
               Sessions.TypeError_message Sessions.silent
               (scoring_route Json.parse Examples.collaborator
                  (Some (lit "sk-test")) 0 Examples.fresh (Some Examples.ip))
               Examples.conversation Sessions.interviewing)))
  = Page.Nothing.
Proof.
  apply (silent_conversation_is_not_scored Json.parse Examples.collaborator
           (Some (lit "sk-test")) 0 Examples.fresh (Some Examples.ip)
           Sessions.ToString Sessions.TypeError_message Sessions.silent
           Examples.conversation Sessions.interviewing).
  reflexivity.
Defined.

(** ** Sessions *)

Section Sessions.

Variable ToString : option JValue -> list N.
Variable TypeError_message : option JValue -> list N.
Variable retrieve : list N -> result FetchError (option JValue).
Variable score : JValue -> Page.ScoreResponse.

Lemma render_setter (update : Wizard.WizardState -> Wizard.WizardState)
    (s : Wizard.WizardState) :
  Wizard.render (Wizard.setState update (Wizard.mkHook s []))
  = Wizard.mkHook (update s) [].
Proof. reflexivity. Qed.

(** One action on a rendered page keeps the CV unless it replaces it. *)
Lemma react_keeps_cv (s : Wizard.WizardState) (a : Action) :
  replaces_cv a = false ->
  exists s' : Wizard.WizardState,
    react ToString TypeError_message retrieve score (Wizard.mkHook s []) a
    = Wizard.mkHook s' []
    /\ Wizard.cvText s' = Wizard.cvText s
    /\ Wizard.cvFileName s' = Wizard.cvFileName s.
Proof.
  intros Ha.
  destruct a as [| | |text fileName|message| |id| |]; try discriminate Ha;
    try (eexists; split; [reflexivity|]; split; reflexivity).
  unfold react, Page.handleConversationEnd.
  pose proof (pipeline_cases ToString TypeError_message retrieve score id
                (Wizard.setConversationId (Some id) (Wizard.mkHook s [])))
    as Hcases. cbv zeta in Hcases.
  set (run := Page.runAnalysisPipeline ToString TypeError_message retrieve
                score id
                (Wizard.setConversationId (Some id) (Wizard.mkHook s []))) in *.
  assert (Hsettled : Wizard.render (snd run)
                     = Wizard.mkHook (Wizard.stateRef (snd run)) []).
  { subst run. unfold Page.runAnalysisPipeline.
    destruct (retrieve id); [|reflexivity].
    destruct (Page.transcriptText _ _ _); [|reflexivity].
    now destruct (score _). }
  rewrite Hsettled. eexists. split; [reflexivity|].
  destruct Hcases as [(t & x & r & _ & _ & _ & _ & ->)|(m & kept & _ & ->)];
    split; reflexivity.
Qed.

Lemma session_keeps_cv (actions : list Action) :
  forall s : Wizard.WizardState,
    forallb (fun a => negb (replaces_cv a)) actions = true ->
    exists s' : Wizard.WizardState,
      session ToString TypeError_message retrieve score actions
        (Wizard.mkHook s [])
      = Wizard.mkHook s' []
      /\ Wizard.cvText s' = Wizard.cvText s
      /\ Wizard.cvFileName s' = Wizard.cvFileName s.
Proof.
  induction actions as [|a actions IH]; intros s Hall.
  - exists s. repeat split.
  - cbn [forallb] in Hall. apply andb_true_iff in Hall as [Ha Hall].
    apply negb_true_iff in Ha.
    destruct (react_keeps_cv s a Ha) as (s1 & Hreact & Hcv & Hname).
    destruct (IH s1 Hall) as (s' & Hsession & Hcv' & Hname').
    exists s'. unfold session in *. cbn [fold_left].
    rewrite Hreact, Hsession. split; [reflexivity|].
    split; congruence.
Qed.

End Sessions.

(** X24. The wizard never loses the CV by itself: through any series of
    actions on the page (beginning, declining, skipping the upload,
    errors and their dismissal, conversations ending with whatever the
    pipeline meets, retries), the CV text and its file name stay as they
    were until a new file is uploaded or the user starts over. *)
Theorem cv_survives_the_session
    (ToString TypeError_message : option JValue -> list N)
    (retrieve : list N -> result FetchError (option JValue))
    (score : JValue -> Page.ScoreResponse)
    (actions : list Action) (h : Wizard.Hook) :
  forallb (fun a => negb (replaces_cv a)) actions = true ->
  let before := Wizard.stateRef (Wizard.render h) in
  let after :=
    Wizard.stateRef
      (session ToString TypeError_message retrieve score actions
         (Wizard.render h)) in
  Wizard.cvText after = Wizard.cvText before
  /\ Wizard.cvFileName after = Wizard.cvFileName before.
Proof.
  intros Hall. cbv zeta.
  destruct (session_keeps_cv ToString TypeError_message retrieve score actions
              (Wizard.stateRef (Wizard.render h)) Hall)
    as (s' & Hsession & Hcv & Hname).
  change (Wizard.render h)
    with (Wizard.mkHook (Wizard.stateRef (Wizard.render h)) []) at 1 3.
  rewrite Hsession. now split.
Qed.

Lemma cv_survives_the_session_witness :
  Wizard.cvText
    (Wizard.stateRef
       (session Sessions.ToString Sessions.TypeError_message
          Sessions.unavailable Sessions.scorer
          [ ConversationEnd Examples.conversation; Dismiss; TryAgain; Decline;
            SkipUpload ]
          (Wizard.render Sessions.interviewing)))
  = Wizard.cvText (Wizard.stateRef (Wizard.render Sessions.interviewing))
  /\ Wizard.cvFileName
       (Wizard.stateRef
          (session Sessions.ToString Sessions.TypeError_message
             Sessions.unavailable Sessions.scorer
             [ ConversationEnd Examples.conversation; Dismiss; TryAgain;
               Decline; SkipUpload ]
             (Wizard.render Sessions.interviewing)))
     = Wizard.cvFileName
         (Wizard.stateRef (Wizard.render Sessions.interviewing)).
Proof.
  apply (cv_survives_the_session Sessions.ToString Sessions.TypeError_message
           Sessions.unavailable Sessions.scorer
           [ ConversationEnd Examples.conversation; Dismiss; TryAgain; Decline;
             SkipUpload ]
           Sessions.interviewing).
  reflexivity.
Defined.




(** ** The limiter never denies within budget *)

(** X26. The limiter never denies a client within its budget: when the
    timestamps stored for a key and the calls that follow number at most
    [maxRequests] together, every one of those calls is admitted,
    whatever the clock readings, the window and the cleanups in
    between. *)
Theorem within_budget_always_admitted
    (identifier namespace : list N) (maxRequests windowMs : Z)
    (times : list Z) (st : LimiterState) :
  Z.of_nat (length (stored namespace identifier st))
  + Z.of_nat (length times) <= maxRequests ->
  snd (burst ScoreInterviewRoute.rateLimit identifier maxRequests windowMs
         namespace times st)
  = repeat true (length times).
Proof.
  revert st. induction times as [|now later IH]; intros st Hbudget;
    [reflexivity|].
  cbn [burst length repeat].
  pose proof (rateLimit_on_key now identifier maxRequests windowMs
                namespace st) as Hcall. cbv zeta in Hcall.
  destruct (ScoreInterviewRoute.rateLimit now identifier maxRequests
              windowMs namespace st) as [st1 r].
  destruct Hcall as (Hs & Hst1 & _ & _).
  pose proof (prune_length now windowMs (stored namespace identifier st))
    as Hvalid.
  cbn [length] in Hbudget.
  assert (Hok : success r = true) by (rewrite Hs; apply Z.ltb_lt; lia).
  rewrite Hok in Hst1.
  specialize (IH st1).
  destruct (burst ScoreInterviewRoute.rateLimit identifier maxRequests
              windowMs namespace later st1) as [st2 rs].
  cbn [snd] in IH |- *. rewrite Hok, IH; [reflexivity|].
  rewrite Hst1, length_app. cbn [length]. lia.
Qed.

Lemma within_budget_always_admitted_witness :
  snd (burst ScoreInterviewRoute.rateLimit Examples.ip 5 60000
         (lit "score-interview") [3000; 1000; 90000] Scenarios.due)
  = repeat true (length [3000; 1000; 90000]).
Proof.
  apply (within_budget_always_admitted Examples.ip (lit "score-interview")
           5 60000 [3000; 1000; 90000] Scenarios.due).
  vm_compute. discriminate.
Defined.
